(** * BudgetingApp: the allocation and goal-planning engine of [functions.py]

    A shallow embedding of the engine functions of [src/functions.py] and
    the properties the specification states about them.

    Numbers.  Integer month counts, ages and years are [Z].  Python's
    [float] amounts are embedded twice.

    - In the first part of the file an amount is an exact rational ([Q])
      and the arithmetic is exact.  This part carries the properties that
      binary64 rounding does not touch: both sides of the statement are
      the same expression of the code, or the result is an integer, a
      boolean, a label or the shape of the returned data.

    - In the second part ([Module Float] and [Module Binary64]) a float is
      the rational it denotes and every operation rounds to the nearest
      binary64 value, ties to even.  This part carries the properties that
      depend on what the arithmetic computes: totals, thresholds, the
      order of computed scores, and which divisions raise.

    Equality of amounts is [Qeq] ([==]).

    Exceptions.  A Python function that can raise is embedded in the
    [result] monad: [Ok v] is a normal return, [Raise e] an uncaught
    exception.  Every division whose divisor is not a literal goes through
    [pdiv] (exact) or [fdiv] (binary64), which raise [ZeroDivisionError]
    on a zero divisor as Python does.  A function that returns [None]
    returns [Ok None]. *)

From Stdlib Require Import QArith Qabs Qpower ZArith List String Ascii Bool.

From Stdlib Require Import Lia Lqa Sorted Permutation.

Import ListNotations.

Local Open Scope string_scope.

Local Open Scope list_scope.

Local Open Scope Q_scope.

(** ** The Python runtime the engine relies on *)

Module Py.

Inductive exn : Type :=
| ZeroDivisionError
| ValueError
| OverflowError.

Inductive result (A : Type) : Type :=
| Ok (a : A)
| Raise (e : exn).

Arguments Ok {A} a.

Arguments Raise {A} e.

Definition bind {A B : Type} (m : result A) (k : A -> result B) : result B :=
  match m with
  | Ok a => k a
  | Raise e => Raise e
  end.

(** [for x in l: acc.append(f x)] where [f] may raise. *)
Fixpoint mapM {A B : Type} (f : A -> result B) (l : list A) : result (list B) :=
  match l with
  | [] => Ok []
  | x :: l' =>
      bind (f x) (fun y => bind (mapM f l') (fun ys => Ok (y :: ys)))
  end.

(** [x < y] on numbers. *)
Definition Qltb (x y : Q) : bool := negb (Qle_bool y x).

(** [x / y] *)
Definition pdiv (x y : Q) : result Q :=
  if Qeq_bool y 0 then Raise ZeroDivisionError else Ok (x / y).

(** [b ** n] for an integer exponent; a zero base with a negative
    exponent raises [ZeroDivisionError]. *)
Definition pypow (b : Q) (n : Z) : result Q :=
  if Qeq_bool b 0 && (n <? 0)%Z then Raise ZeroDivisionError else Ok (b ^ n).

(** [max(a, b)] and [min(a, b)]: the first argument wins a tie. *)
Definition pymax (a b : Q) : Q := if Qltb a b then b else a.

Definition pymin (a b : Q) : Q := if Qltb b a then b else a.

(** [abs(x)] *)
Definition pyabs (x : Q) : Q := Qabs x.

(** [sum(values)]: starts from 0 and adds from the left. *)
Definition pysum (values : list Q) : Q := fold_left Qplus values 0.

(** Rounding to the nearest integer, ties to the even one. *)
Definition round_half_even (x : Q) : Z :=
  let n := Qnum x in
  let d := Zpos (Qden x) in
  let q := (n / d)%Z in
  let r := (n mod d)%Z in
  match (2 * r ?= d)%Z with
  | Lt => q
  | Gt => (q + 1)%Z
  | Eq => if Z.even q then q else (q + 1)%Z
  end.

(** [round(x, 1)] *)
Definition round1 (x : Q) : Q := inject_Z (round_half_even (x * 10)) / 10.

(** [str.lower()] and [str.capitalize()] on ASCII text. *)
Definition lower_ascii (c : ascii) : ascii :=
  let n := nat_of_ascii c in
  if (65 <=? n)%nat && (n <=? 90)%nat then ascii_of_nat (n + 32) else c.

Definition upper_ascii (c : ascii) : ascii :=
  let n := nat_of_ascii c in
  if (97 <=? n)%nat && (n <=? 122)%nat then ascii_of_nat (n - 32) else c.

Fixpoint lower (s : string) : string :=
  match s with
  | EmptyString => EmptyString
  | String c s' => String (lower_ascii c) (lower s')
  end.

Definition capitalize (s : string) : string :=
  match s with
  | EmptyString => EmptyString
  | String c s' => String (upper_ascii c) (lower s')
  end.

(** A [dict] with string keys, in insertion order. *)
Definition dict (V : Type) : Type := list (string * V).

Definition keys {V : Type} (d : dict V) : list string := map fst d.

Definition values {V : Type} (d : dict V) : list V := map snd d.

(** [d.get(k, default)] *)
Fixpoint get {V : Type} (d : dict V) (k : string) (default : V) : V :=
  match d with
  | [] => default
  | (k', v) :: d' => if String.eqb k k' then v else get d' k default
  end.

(** [l.index(x)]: raises [ValueError] when [x] is not in [l]. *)
Fixpoint index (l : list string) (x : string) : result nat :=
  match l with
  | [] => Raise ValueError
  | y :: l' =>
      if String.eqb x y then Ok 0%nat
      else bind (index l' x) (fun i => Ok (S i))
  end.

(** [sorted(l, key=key, reverse=True)] and [l.sort(key=key, reverse=True)].
    Python's sort is stable, also with [reverse=True]: elements whose keys
    compare equal keep their input order.  The stable arrangement is
    built by insertion: [x], which came before every element of [l],
    moves right only past elements with a strictly greater key. *)
Section Sort.

Context {A K : Type}.

Variable ltb : K -> K -> bool.

Variable key : A -> K.

Fixpoint insert_desc (x : A) (l : list A) : list A :=
  match l with
  | [] => [x]
  | y :: l' =>
      if ltb (key x) (key y) then y :: insert_desc x l'
      else x :: y :: l'
  end.

Fixpoint sort_desc (l : list A) : list A :=
  match l with
  | [] => []
  | x :: l' => insert_desc x (sort_desc l')
  end.

End Sort.

End Py.

Import Py.

Notation "x <- m ;; k" := (bind m (fun x => k))
  (at level 61, m at next level, right associativity).

(** ** Allocator *)

Inductive Category : Type := Savings | Investments | Personal | Misc.

(** The dict [allocate_budget] returns: exactly the four category keys. *)
Record Allocation : Type := mkAllocation {
  savings : Q;
  investments : Q;
  personal : Q;
  misc : Q
}.

Definition alloc_get (a : Allocation) (c : Category) : Q :=
  match c with
  | Savings => savings a
  | Investments => investments a
  | Personal => personal a
  | Misc => misc a
  end.

Definition alloc_set (a : Allocation) (c : Category) (v : Q) : Allocation :=
  match c with
  | Savings => mkAllocation v (investments a) (personal a) (misc a)
  | Investments => mkAllocation (savings a) v (personal a) (misc a)
  | Personal => mkAllocation (savings a) (investments a) v (misc a)
  | Misc => mkAllocation (savings a) (investments a) (personal a) v
  end.

(** [sum(allocation.values())] *)
Definition alloc_total (a : Allocation) : Q :=
  pysum [savings a; investments a; personal a; misc a].

(** The same dict with its string keys, in insertion order. *)
Definition alloc_items (a : Allocation) : dict Q :=
  [("savings", savings a); ("investments", investments a);
   ("personal", personal a); ("misc", misc a)].

(** [allocate_budget(total_amount, savings_pct, investment_pct, personal_pct,
    misc_pct=15)]; [None] for [misc_pct] is a call without that argument. *)
Definition allocate_budget (total_amount savings_pct investment_pct personal_pct : Q)
    (misc_pct : option Q) : Allocation :=
  let misc_pct := match misc_pct with Some p => p | None => 15 end in
  {| savings := total_amount * (savings_pct / 100);
     investments := total_amount * (investment_pct / 100);
     personal := total_amount * (personal_pct / 100);
     misc := total_amount * (misc_pct / 100) |}.

(** ** Goal calculators *)

Definition savings_goal_calculator (target_amount : Q) (months : Z) : result Q :=
  pdiv target_amount (inject_Z months).

Definition investment_goal_calculator (target_amount : Q) (months : Z)
    (annual_return_pct : Q) : result Q :=
  let r := (annual_return_pct / 100) / 12 in
  let n := months in
  if Qeq_bool r 0 then pdiv target_amount (inject_Z n)
  else
    p <- pypow (1 + r) n ;;
    pdiv (target_amount * r) (p - 1).

(** ** Reallocation planner *)

Definition reduction_priority : list Category := [Misc; Personal].

(** The [for category in reduction_priority] loop; the state is
    [(new_allocation, remaining_shortfall)], and [break] leaves it as is. *)
Fixpoint reduce_loop (allocation : Allocation) (total_income : Q)
    (cats : list Category) (st : Allocation * Q) : Allocation * Q :=
  match cats with
  | [] => st
  | category :: rest =>
      let '(new_allocation, remaining_shortfall) := st in
      if Qle_bool remaining_shortfall 0 then st
      else
        let min_amount := total_income * (5 # 100) in
        let available := pymax 0 (alloc_get allocation category - min_amount) in
        let reduction := pymin available remaining_shortfall in
        if Qltb 0 reduction then
          reduce_loop allocation total_income rest
            (alloc_set new_allocation category
               (alloc_get new_allocation category - reduction),
             remaining_shortfall - reduction)
        else reduce_loop allocation total_income rest st
  end.

Definition create_unified_reallocation_plan (allocation : Allocation)
    (savings_shortfall investment_shortfall total_income : Q) : option Allocation :=
  let new_allocation := allocation in
  let total_shortfall := savings_shortfall + investment_shortfall in
  let remaining_shortfall := total_shortfall in
  let '(new_allocation, remaining_shortfall) :=
    reduce_loop allocation total_income reduction_priority
      (new_allocation, remaining_shortfall) in
  if Qltb remaining_shortfall total_shortfall then
    let freed_amount := total_shortfall - remaining_shortfall in
    let '(new_allocation, freed_amount) :=
      if Qltb 0 savings_shortfall then
        let amount_to_savings := pymin savings_shortfall freed_amount in
        (alloc_set new_allocation Savings
           (alloc_get new_allocation Savings + amount_to_savings),
         freed_amount - amount_to_savings)
      else (new_allocation, freed_amount) in
    let new_allocation :=
      if Qltb 0 investment_shortfall && Qltb 0 freed_amount then
        let amount_to_investments := pymin investment_shortfall freed_amount in
        alloc_set new_allocation Investments
          (alloc_get new_allocation Investments + amount_to_investments)
      else new_allocation in
    Some new_allocation
  else None.

(** The amount the planner can take from one category: what lies above the
    floor of 5% of total income. *)
Definition available (allocation : Allocation) (total_income : Q) (c : Category) : Q :=
  pymax 0 (alloc_get allocation c - total_income * (5 # 100)).

(** The total freed amount: what the loop took from misc and personal. *)
Definition freed_amount (allocation : Allocation)
    (savings_shortfall investment_shortfall total_income : Q) : Q :=
  let total_shortfall := savings_shortfall + investment_shortfall in
  total_shortfall -
  snd (reduce_loop allocation total_income reduction_priority
         (allocation, total_shortfall)).

(** ** Asset allocation optimizer *)

Record AssetAllocation : Type := mkAssetAllocation {
  stocks : Q;
  bonds : Q;
  cash : Q;
  risk_profile : string;
  rebalance_trigger : Z
}.

(** [(base_stocks, base_bonds, base_cash)] per risk profile. *)
Definition risk_profiles : dict (Q * Q * Q) :=
  [("conservative", (30, 55, 15));
   ("moderate", (60, 30, 10));
   ("aggressive", (80, 15, 5))].

Definition age_adjustment (age : Z) : Q :=
  if (age <? 30)%Z then 10
  else if (age <? 40)%Z then 5
  else if (age <? 50)%Z then 0
  else if (age <? 60)%Z then -10
  else -20.

Definition asset_allocation_optimizer (age : Z) (risk_tolerance : string)
    (timeline_years : Z) : result AssetAllocation :=
  let '(stock_pct, bond_pct, cash_pct) :=
    get risk_profiles (lower risk_tolerance) (60, 30, 10) in
  let age_adj := age_adjustment age in
  let '(stock_pct, bond_pct, cash_pct) :=
    if negb (String.eqb (lower risk_tolerance) "conservative") then
      let stock_pct := pymax 20 (pymin 85 (stock_pct + age_adj)) in
      let remaining := 100 - stock_pct in
      (stock_pct, remaining * 0.75, remaining * 0.25)
    else (stock_pct, bond_pct, cash_pct) in
  let '(stock_pct, bond_pct, cash_pct) :=
    if (timeline_years <? 2)%Z then
      let stock_pct := pymax 10 (stock_pct - 30) in
      let cash_pct := pymax 30 (cash_pct + 20) in
      (stock_pct, 100 - stock_pct - cash_pct, cash_pct)
    else if (timeline_years <? 5)%Z then
      let stock_pct := pymax 20 (stock_pct - 15) in
      let cash_pct := pymax 15 (cash_pct + 10) in
      (stock_pct, 100 - stock_pct - cash_pct, cash_pct)
    else (stock_pct, bond_pct, cash_pct) in
  let '(stock_pct, bond_pct, cash_pct) :=
    if String.eqb (lower risk_tolerance) "conservative" then
      let stock_pct := pymin stock_pct 40 in
      let remaining := 100 - stock_pct in
      (stock_pct, remaining * 0.7, remaining * 0.3)
    else (stock_pct, bond_pct, cash_pct) in
  let total := stock_pct + bond_pct + cash_pct in
  normalized <-
    (if negb (Qeq_bool total 100) then
       s <- pdiv stock_pct total ;;
       b <- pdiv bond_pct total ;;
       c <- pdiv cash_pct total ;;
       Ok (s * 100, b * 100, c * 100)
     else Ok (stock_pct, bond_pct, cash_pct)) ;;
  let '(stock_pct, bond_pct, cash_pct) := normalized in
  Ok {| stocks := round1 stock_pct;
        bonds := round1 bond_pct;
        cash := round1 cash_pct;
        risk_profile := capitalize risk_tolerance;
        rebalance_trigger := 5 |}.

(** The three risk profiles the callers accept. *)
Definition valid_risk (risk_tolerance : string) : Prop :=
  risk_tolerance = "conservative" \/ risk_tolerance = "moderate" \/
  risk_tolerance = "aggressive".

(** ** Dynamic reallocation advisor *)

(** One entry of [category_analysis]. *)
Record Analysis : Type := mkAnalysis {
  an_allocated : Q;
  an_spent : Q;
  an_difference : Q;
  an_usage_pct : Q
}.

Record Deficit : Type := mkDeficit {
  d_category : string;
  d_overspend : Q;
  d_allocated : Q;
  d_spent : Q
}.

Record Surplus : Type := mkSurplus {
  s_category : string;
  s_surplus : Q;
  s_allocated : Q;
  s_spent : Q;
  s_usage_pct : Q
}.

(** The ['action'] text of a suggestion, kept as the values the f-string
    formats: the amounts and the [(amount, category)] sources. *)
Inductive Action : Type :=
| CoverOverspend (amount : Q) (sources : list (Q * string))
| BoostBy (amount : Q)
| RedirectSurplus (amount : Q) (target : string) (sources : list (Q * string))
| OverspentBy (amount : Q)
| UsingOnly (usage_pct : Q) (surplus : Q).

Record Suggestion : Type := mkSuggestion {
  sg_type : string;
  sg_category : string;
  sg_allocated : Q;
  sg_spent : Q;
  sg_action : Action;
  sg_priority : string
}.

Definition priority_order : list string :=
  ["savings"; "investments"; "personal"; "misc"].

(** [(spent / allocated * 100) if allocated > 0 else 0] *)
Definition usage_pct (spent allocated : Q) : result Q :=
  if Qltb 0 allocated then q <- pdiv spent allocated ;; Ok (q * 100) else Ok 0.

(** [d[k] = v] *)
Fixpoint dict_set {V : Type} (d : dict V) (k : string) (v : V) : dict V :=
  match d with
  | [] => [(k, v)]
  | (k', v') :: d' =>
      if String.eqb k k' then (k, v) :: d' else (k', v') :: dict_set d' k v
  end.

Fixpoint collect_deficits (category_analysis : dict Analysis) : list Deficit :=
  match category_analysis with
  | [] => []
  | (category, data) :: rest =>
      if Qltb (an_difference data) 0 then
        {| d_category := category; d_overspend := pyabs (an_difference data);
           d_allocated := an_allocated data; d_spent := an_spent data |}
        :: collect_deficits rest
      else collect_deficits rest
  end.

Fixpoint collect_surpluses (category_analysis : dict Analysis) : list Surplus :=
  match category_analysis with
  | [] => []
  | (category, data) :: rest =>
      if Qltb 0 (an_difference data) && Qltb (an_usage_pct data) 85 then
        {| s_category := category; s_surplus := an_difference data;
           s_allocated := an_allocated data; s_spent := an_spent data;
           s_usage_pct := an_usage_pct data |}
        :: collect_surpluses rest
      else collect_surpluses rest
  end.

(** [sorted(surplus_categories, key=lambda x: priority_order.index(x['category']),
    reverse=True)]: the keys are computed first, and a category outside
    [priority_order] raises [ValueError]. *)
Definition sorted_by_priority (surplus_categories : list Surplus)
    : result (list Surplus) :=
  decorated <- mapM (fun x => i <- index priority_order (s_category x) ;; Ok (i, x))
                 surplus_categories ;;
  Ok (map snd (sort_desc Nat.ltb fst decorated)).

(** [x in l] for strings. *)
Definition mem (x : string) (l : list string) : bool := existsb (String.eqb x) l.

(** The loop that offers the leftover surplus to the first priority category
    that is not a surplus source. *)
Fixpoint boost_loop (allocation actual_spending : dict Q)
    (surplus_categories : list Surplus) (remaining_surplus : Q)
    (cats : list string) : list Suggestion :=
  match cats with
  | [] => []
  | priority_cat :: rest =>
      if mem priority_cat (map s_category surplus_categories) then
        boost_loop allocation actual_spending surplus_categories remaining_surplus rest
      else
        [{| sg_type := "surplus_reallocation"; sg_category := priority_cat;
            sg_allocated := get allocation priority_cat 0;
            sg_spent := get actual_spending priority_cat 0;
            sg_action := BoostBy remaining_surplus;
            sg_priority := "Medium" |}]
  end.

(** The loop of case 2 over [['savings', 'investments']]. *)
Fixpoint redirect_loop (allocation actual_spending : dict Q)
    (surplus_categories : list Surplus) (total_surplus : Q)
    (cats : list string) : list Suggestion :=
  match cats with
  | [] => []
  | priority_cat :: rest =>
      if Qltb 0 total_surplus then
        let sources := map (fun s => (s_surplus s, s_category s)) surplus_categories in
        [{| sg_type := "surplus_reallocation"; sg_category := priority_cat;
            sg_allocated := get allocation priority_cat 0;
            sg_spent := get actual_spending priority_cat 0;
            sg_action := RedirectSurplus total_surplus priority_cat sources;
            sg_priority := "High" |}]
      else redirect_loop allocation actual_spending surplus_categories total_surplus rest
  end.

Definition deficit_warning (deficit : Deficit) : Suggestion :=
  {| sg_type := "deficit_warning"; sg_category := d_category deficit;
     sg_allocated := d_allocated deficit; sg_spent := d_spent deficit;
     sg_action := OverspentBy (d_overspend deficit);
     sg_priority := "High" |}.

Fixpoint efficiency_tips (surplus_categories : list Surplus) : list Suggestion :=
  match surplus_categories with
  | [] => []
  | surplus :: rest =>
      if Qltb (s_usage_pct surplus) 70 then
        {| sg_type := "efficiency_tip"; sg_category := s_category surplus;
           sg_allocated := s_allocated surplus; sg_spent := s_spent surplus;
           sg_action := UsingOnly (s_usage_pct surplus) (s_surplus surplus);
           sg_priority := "Low" |}
        :: efficiency_tips rest
      else efficiency_tips rest
  end.

(** Truth value of a list: non-empty. *)
Definition truthy {A : Type} (l : list A) : bool :=
  match l with [] => false | _ :: _ => true end.

(** ** Goal conflict resolver *)

(** A goal dict; a missing key is [None] and is read with [goal.get(key, default)]. *)
Record Goal : Type := mkGoal {
  g_name : option string;
  g_target_amount : option Q;
  g_timeline_months : option Z;
  g_deadline_months : option Z;
  g_expected_return : option Q;
  g_monthly_required : option Q
}.

Definition get_or {A : Type} (field : option A) (default : A) : A :=
  match field with
  | Some v => v
  | None => default
  end.

Record ScoredGoal : Type := mkScoredGoal {
  name : string;
  target_amount : Q;
  monthly_required : Q;
  deadline_months : Z;
  expected_return : Q;
  urgency_score : Q;
  roi_score : Q;
  feasibility_score : Q;
  total_score : Q;
  priority : string
}.

Definition calculate_urgency_score (deadline_months : Z) : Q :=
  if (deadline_months <=? 3)%Z then 10
  else if (deadline_months <=? 6)%Z then 8
  else if (deadline_months <=? 12)%Z then 6
  else if (deadline_months <=? 24)%Z then 4
  else 2.

Definition calculate_roi_score (expected_return : Q) (timeline_months : Z) : result Q :=
  if (timeline_months =? 0)%Z then Ok 0
  else
    q <- pdiv expected_return (inject_Z timeline_months) ;;
    let annualized_return := q * 12 in
    if Qle_bool 15 annualized_return then Ok 10
    else if Qle_bool 12 annualized_return then Ok 8
    else if Qle_bool 8 annualized_return then Ok 6
    else if Qle_bool 5 annualized_return then Ok 4
    else Ok 2.

Definition calculate_feasibility_score (monthly_required monthly_income : Q)
    (current_allocation : dict Q) : result Q :=
  let available_funds := monthly_income - pysum (values current_allocation) in
  if Qeq_bool monthly_required 0 then Ok 5
  else
    coverage_ratio <-
      (if Qltb 0 monthly_required then pdiv available_funds monthly_required
       else Ok 0) ;;
    if Qle_bool 1.5 coverage_ratio then Ok 10
    else if Qle_bool 1.0 coverage_ratio then Ok 8
    else if Qle_bool 0.7 coverage_ratio then Ok 6
    else if Qle_bool 0.5 coverage_ratio then Ok 4
    else Ok 2.

(** The body of the scoring loop for one goal. *)
Definition score_goal (monthly_income : Q) (current_allocation : dict Q) (goal : Goal)
    : result ScoredGoal :=
  let urgency_score := calculate_urgency_score (get_or (g_deadline_months goal) 12%Z) in
  roi_score <- calculate_roi_score (get_or (g_expected_return goal) 0)
                 (get_or (g_timeline_months goal) 12%Z) ;;
  feasibility_score <- calculate_feasibility_score
                         (get_or (g_monthly_required goal) 0)
                         monthly_income current_allocation ;;
  let total_score :=
    (urgency_score * 0.4) + (roi_score * 0.3) + (feasibility_score * 0.3) in
  Ok {| name := get_or (g_name goal) "Unnamed Goal";
        target_amount := get_or (g_target_amount goal) 0;
        monthly_required := get_or (g_monthly_required goal) 0;
        deadline_months := get_or (g_deadline_months goal) 12%Z;
        expected_return := get_or (g_expected_return goal) 0;
        urgency_score := urgency_score;
        roi_score := roi_score;
        feasibility_score := feasibility_score;
        total_score := total_score;
        priority := if Qle_bool 7 total_score then "High"
                    else if Qle_bool 5 total_score then "Medium"
                    else "Low" |}.

Definition goal_conflict_resolver (goals : list Goal) (monthly_income : Q)
    (current_allocation : dict Q) : result (option (list ScoredGoal)) :=
  if negb (truthy goals) || (List.length goals <? 2)%nat then Ok None
  else
    scored_goals <- mapM (score_goal monthly_income current_allocation) goals ;;
    Ok (Some (sort_desc Qltb total_score scored_goals)).

(** ** Tax-loss harvesting and opportunity cost *)

Record Investment : Type := mkInvestment {
  i_name : option string;
  i_current_value : option Q;
  i_purchase_value : option Q
}.

Record Opportunity : Type := mkOpportunity {
  o_name : string;
  o_loss_amount : Q;
  o_loss_pct : Q;
  o_tax_offset_benefit : Q;
  o_suggestion : string
}.

(** [((current_value - purchase_value) / purchase_value) * 100
     if purchase_value > 0 else 0] *)
Definition loss_pct (current_value purchase_value : Q) : result Q :=
  if Qltb 0 purchase_value then
    q <- pdiv (current_value - purchase_value) purchase_value ;;
    Ok (q * 100)
  else Ok 0.

Fixpoint harvest_loop (investments_data : list Investment) : result (list Opportunity) :=
  match investments_data with
  | [] => Ok []
  | inv :: rest =>
      let current_value := get_or (i_current_value inv) 0 in
      let purchase_value := get_or (i_purchase_value inv) 0 in
      l <- loss_pct current_value purchase_value ;;
      opportunities <- harvest_loop rest ;;
      if Qltb l (-5) then
        let tax_offset := pyabs (current_value - purchase_value) * 0.3 in
        Ok ({| o_name := get_or (i_name inv) "Unknown";
               o_loss_amount := pyabs (current_value - purchase_value);
               o_loss_pct := pyabs l;
               o_tax_offset_benefit := tax_offset;
               o_suggestion := "Consider selling to offset gains" |}
            :: opportunities)
      else Ok opportunities
  end.

Definition tax_loss_harvesting_tracker (investments_data : list Investment)
    : result (option (list Opportunity)) :=
  if negb (truthy investments_data) then Ok None
  else
    opportunities <- harvest_loop investments_data ;;
    Ok (if truthy opportunities then Some opportunities else None).

(** ** Inflation adjuster *)

Record AdjustedGoal : Type := mkAdjustedGoal {
  ag_name : string;
  original_target : Q;
  adjusted_target : Q;
  inflation_impact : Q;
  original_monthly : Q;
  adjusted_monthly : Q;
  monthly_increase : Q;
  timeline_years : Q;
  inflation_rate : Q
}.

(** ** Allocation-health analyzer *)

(** The local [score] of [analyze_allocation_health]. *)
Definition health_score (savings_ratio investment_ratio discretionary_ratio : Q) : Z :=
  let score := 0%Z in
  let score :=
    if Qle_bool 20 savings_ratio then (score + 35)%Z
    else if Qle_bool 15 savings_ratio then (score + 25)%Z
    else if Qle_bool 10 savings_ratio then (score + 15)%Z
    else score in
  let score :=
    if Qle_bool 15 investment_ratio then (score + 35)%Z
    else if Qle_bool 10 investment_ratio then (score + 25)%Z
    else if Qle_bool 5 investment_ratio then (score + 15)%Z
    else score in
  let score :=
    if Qle_bool discretionary_ratio 40 then (score + 30)%Z
    else if Qle_bool discretionary_ratio 50 then (score + 20)%Z
    else if Qle_bool discretionary_ratio 60 then (score + 10)%Z
    else score in
  score.

Definition analyze_allocation_health
    (savings_ratio investment_ratio discretionary_ratio : Q) : string :=
  let score := health_score savings_ratio investment_ratio discretionary_ratio in
  if (85 <=? score)%Z then "Excellent"
  else if (70 <=? score)%Z then "Good"
  else if (50 <=? score)%Z then "Fair"
  else "Needs Improvement".

(** The recommendation and leak texts of [generate_ai_analysis], kept as the
    values their f-strings format. *)
Inductive Advice : Type :=
| ReduceDiscretionary (discretionary_ratio amount : Q)
| RedirectFromMisc (potential_redirect : Q)
| IncreaseSavings (savings_ratio : Q)
| AimForInvestment (investment_ratio : Q)
| ReviewPersonalExpenses
| AllocationsMeetGoals
| StrongFoundation.

Inductive Leak : Type :=
| SavingsShortfall (amount : Q)
| InvestmentShortfall (amount : Q)
| HighDiscretionary (discretionary_ratio : Q).

Record AiAnalysis : Type := mkAiAnalysis {
  allocation_health : string;
  recommendations : list Advice;
  identified_leaks : list Leak;
  priority_actions : list string
}.

(** [generate_ai_analysis]; [allocation] is the four-key dict.  The lists
    are built in the order of the [append] calls. *)
Definition generate_ai_analysis (total_income : Q) (allocation : Allocation)
    (savings_gap investment_gap : Q) : result AiAnalysis :=
  q <- pdiv (savings allocation) total_income ;;
  let savings_ratio := q * 100 in
  q <- pdiv (investments allocation) total_income ;;
  let investment_ratio := q * 100 in
  let discretionary := personal allocation + misc allocation in
  q <- pdiv discretionary total_income ;;
  let discretionary_ratio := q * 100 in
  let health :=
    analyze_allocation_health savings_ratio investment_ratio discretionary_ratio in
  let '(recs, leaks, actions) := ([], [], []) in
  (* savings gap *)
  let '(recs, leaks, actions) :=
    if Qltb savings_gap 0 then
      let leaks := leaks ++ [SavingsShortfall (pyabs savings_gap)] in
      if Qltb 40 discretionary_ratio then
        (recs ++ [ReduceDiscretionary discretionary_ratio (pyabs savings_gap)],
         leaks, actions ++ ["Cut personal/misc expenses"])
      else (recs, leaks, actions)
    else (recs, leaks, actions) in
  (* investment gap *)
  let '(recs, leaks, actions) :=
    if Qltb investment_gap 0 then
      let leaks := leaks ++ [InvestmentShortfall (pyabs investment_gap)] in
      if Qltb (total_income * 0.15) (misc allocation) then
        let potential_redirect := misc allocation - (total_income * 0.15) in
        (recs ++ [RedirectFromMisc potential_redirect],
         leaks, actions ++ ["Optimize misc expenses"])
      else (recs, leaks, actions)
    else (recs, leaks, actions) in
  (* general recommendations *)
  let '(recs, actions) :=
    if Qltb savings_ratio 20 then
      (recs ++ [IncreaseSavings savings_ratio], actions ++ ["Boost emergency fund"])
    else (recs, actions) in
  let '(recs, actions) :=
    if Qltb investment_ratio 15 then
      (recs ++ [AimForInvestment investment_ratio],
       actions ++ ["Increase wealth building"])
    else (recs, actions) in
  let '(recs, leaks) :=
    if Qltb 50 discretionary_ratio then
      (recs ++ [ReviewPersonalExpenses],
       leaks ++ [HighDiscretionary discretionary_ratio])
    else (recs, leaks) in
  (* positive feedback *)
  let recs :=
    if Qle_bool 0 savings_gap && Qle_bool 0 investment_gap then
      recs ++ [AllocationsMeetGoals]
    else recs in
  let recs :=
    if Qle_bool 20 savings_ratio && Qle_bool 15 investment_ratio then
      recs ++ [StrongFoundation]
    else recs in
  Ok {| allocation_health := health;
        recommendations := recs;
        identified_leaks := leaks;
        priority_actions := actions |}.

(** ** Expense forecasting and income volatility *)

(** [len(l)] as a number. *)
Definition len {A : Type} (l : list A) : Q := inject_Z (Z.of_nat (List.length l)).

(** [l[-n:]]: the last [n] elements, all of [l] when it is shorter. *)
Definition last_n {A : Type} (n : nat) (l : list A) : list A :=
  skipn (List.length l - n) l.

(** [min(l)] and [max(l)]: the first smallest, respectively greatest,
    element; [ValueError] on an empty list. *)
Definition pymin_list (l : list Q) : result Q :=
  match l with
  | [] => Raise ValueError
  | x :: l' => Ok (fold_left pymin l' x)
  end.

Definition pymax_list (l : list Q) : result Q :=
  match l with
  | [] => Raise ValueError
  | x :: l' => Ok (fold_left pymax l' x)
  end.

(** A prediction; [p_suggestion] is the amount its suggestion text shows. *)
Record Prediction : Type := mkPrediction {
  p_type : string;
  p_amount : Q;
  p_probability : Q;
  p_timeframe : string;
  p_suggestion : Q
}.

Definition expense_forecasting (monthly_expenses_history : list Q)
    : result (option (list Prediction)) :=
  if negb (truthy monthly_expenses_history)
     || (List.length monthly_expenses_history <? 3)%nat then Ok None
  else
    avg_expense <- pdiv (pysum monthly_expenses_history)
                     (len monthly_expenses_history) ;;
    let spikes :=
      filter (fun exp => Qltb (avg_expense * 1.5) exp) monthly_expenses_history in
    predictions <-
      (if truthy spikes then
         avg_spike <- pdiv (pysum spikes) (len spikes) ;;
         spike_frequency <- pdiv (len spikes) (len monthly_expenses_history) ;;
         Ok [{| p_type := "Irregular Expense Spike";
                p_amount := avg_spike;
                p_probability := spike_frequency;
                p_timeframe := "2-3 months";
                p_suggestion := avg_spike / 3 |}]
       else Ok []) ;;
    let recent_trend := last_n 3 monthly_expenses_history in
    let predictions :=
      match recent_trend with
      | [r0; r1; r2] =>
          if Qltb r0 r1 && Qltb r1 r2 then
            let increase := r2 - r0 in
            predictions ++
            [{| p_type := "Upward Spending Trend";
                p_amount := r2 + (increase / 2);
                p_probability := 0.7;
                p_timeframe := "Next month";
                p_suggestion := increase / 2 |}]
          else predictions
      | _ => predictions
      end in
    let predictions :=
      if negb (truthy predictions) then
        predictions ++
        [{| p_type := "Stable Spending Pattern";
            p_amount := avg_expense;
            p_probability := 0.8;
            p_timeframe := "Next 2-3 months";
            p_suggestion := avg_expense |}]
      else predictions in
    Ok (Some predictions).

Record IncomeBuffer : Type := mkIncomeBuffer {
  avg_income : Q;
  volatility_pct : Q;
  safe_budget : Q;
  buffer_needed : Q;
  recommendation : string
}.

Definition income_volatility_buffer (income_history : list Q)
    : result (option IncomeBuffer) :=
  if negb (truthy income_history) || (List.length income_history <? 2)%nat
  then Ok None
  else
    let recent_income :=
      if (6 <=? List.length income_history)%nat then last_n 6 income_history
      else income_history in
    avg_income <- pdiv (pysum recent_income) (len recent_income) ;;
    min_income <- pymin_list recent_income ;;
    max_income <- pymax_list recent_income ;;
    q <- pdiv (max_income - min_income) avg_income ;;
    let volatility := q * 100 in
    let '(safe_budget, buffer_needed) :=
      if Qltb 30 volatility then
        let safe_budget := avg_income * 0.7 in
        (safe_budget, avg_income - safe_budget)
      else
        let safe_budget := avg_income * 0.85 in
        (safe_budget, avg_income - safe_budget) in
    Ok (Some {| avg_income := avg_income;
                volatility_pct := volatility;
                safe_budget := safe_budget;
                buffer_needed := buffer_needed;
                recommendation := if Qltb 30 volatility then "High volatility"
                                  else "Moderate volatility" |}).

(** ** Micro-savings triggers and streak tracking *)

(** A transaction dict; a missing key is [None]. *)
Record Transaction : Type := mkTransaction {
  t_category : option string;
  t_budgeted : option Q;
  t_actual : option Q
}.

Record Trigger : Type := mkTrigger {
  tr_category : string;
  tr_budgeted : Q;
  tr_actual : Q;
  tr_saved : Q;
  tr_action : string
}.

Record MicroSavings : Type := mkMicroSavings {
  triggers : list Trigger;
  total_micro_savings : Q
}.

(** The loop over the transactions; the state is
    [(triggers, total_micro_savings)]. *)
Fixpoint triggers_loop (savings_threshold : Q) (transactions : list Transaction)
    (st : list Trigger * Q) : list Trigger * Q :=
  match transactions with
  | [] => st
  | trans :: rest =>
      let '(triggers, total_micro_savings) := st in
      let category := get_or (t_category trans) "" in
      let budgeted := get_or (t_budgeted trans) 0 in
      let actual := get_or (t_actual trans) 0 in
      if Qltb actual budgeted then
        let saved := budgeted - actual in
        if Qle_bool savings_threshold saved then
          triggers_loop savings_threshold rest
            (triggers ++
               [{| tr_category := category; tr_budgeted := budgeted;
                   tr_actual := actual; tr_saved := saved;
                   tr_action := "Auto-transfer to investments" |}],
             total_micro_savings + saved)
        else triggers_loop savings_threshold rest st
      else triggers_loop savings_threshold rest st
  end.

(** [micro_savings_triggers(transactions, savings_threshold=50)] *)
Definition micro_savings_triggers (transactions : list Transaction)
    (savings_threshold : option Q) : option MicroSavings :=
  let savings_threshold := get_or savings_threshold 50 in
  if negb (truthy transactions) then None
  else
    let '(triggers, total_micro_savings) :=
      triggers_loop savings_threshold transactions ([], 0) in
    if truthy triggers then
      Some {| triggers := triggers; total_micro_savings := total_micro_savings |}
    else None.

(** [month.get('success', False)] on a month dict whose ['success'] entry,
    if present, is a bool. *)
Definition success (month : option bool) : bool := get_or month false.

(** The first loop of [streak_tracking]; the state is
    [(longest_streak, temp_streak)]. *)
Fixpoint longest_loop (monthly_performance : list (option bool)) (st : Z * Z)
    : Z * Z :=
  match monthly_performance with
  | [] => st
  | month :: rest =>
      let '(longest_streak, temp_streak) := st in
      if success month then
        let temp_streak := (temp_streak + 1)%Z in
        longest_loop rest (Z.max longest_streak temp_streak, temp_streak)
      else longest_loop rest (longest_streak, 0%Z)
  end.

(** The second loop, over [reversed(monthly_performance)], with its [break]. *)
Fixpoint current_loop (reversed : list (option bool)) (current_streak : Z) : Z :=
  match reversed with
  | [] => current_streak
  | month :: rest =>
      if success month then current_loop rest (current_streak + 1)%Z
      else current_streak
  end.

(** The four milestone texts: 1 year, 6 months, 3 months, "Starting strong!". *)
Inductive Milestone : Type :=
| OneYearStreak
| SixMonthStreak
| ThreeMonthStreak
| StartingStrong.

Record StreakData : Type := mkStreakData {
  current_streak : Z;
  longest_streak : Z;
  success_rate : Q;
  total_months : Z;
  milestone : option Milestone;
  goal_type : string
}.

(** [streak_tracking(monthly_performance, goal_type='budget_adherence')] *)
Definition streak_tracking (monthly_performance : list (option bool))
    (goal_type : option string) : result (option StreakData) :=
  let goal_type := get_or goal_type "budget_adherence" in
  if negb (truthy monthly_performance)
     || (List.length monthly_performance <? 1)%nat then Ok None
  else
    let '(longest_streak, temp_streak) :=
      longest_loop monthly_performance (0%Z, 0%Z) in
    let current_streak := current_loop (rev monthly_performance) 0%Z in
    let success_count :=
      Z.of_nat (List.length (filter success monthly_performance)) in
    q <- pdiv (inject_Z success_count) (len monthly_performance) ;;
    let success_rate := q * 100 in
    let milestone :=
      if (12 <=? current_streak)%Z then Some OneYearStreak
      else if (6 <=? current_streak)%Z then Some SixMonthStreak
      else if (3 <=? current_streak)%Z then Some ThreeMonthStreak
      else if (1 <=? current_streak)%Z then Some StartingStrong
      else None in
    Ok (Some {| current_streak := current_streak;
                longest_streak := longest_streak;
                success_rate := success_rate;
                total_months := Z.of_nat (List.length monthly_performance);
                milestone := milestone;
                goal_type := goal_type |}).

(** ** Market-aware advisor *)

(** The ['action'] of a recommendation: a fixed text, or the text that
    shows the increase percentage and amount. *)
Inductive MarketAction : Type :=
| ConsiderIncreasing (increase_pct : Q) (increase_amount : Q)
| FixedAction (text : string).

Record Recommendation : Type := mkRecommendation {
  r_type : string;
  r_action : MarketAction;
  r_reasoning : string;
  r_risk_level : string
}.

Record MarketAdvice : Type := mkMarketAdvice {
  ma_market_status : string;
  ma_volatility : string;
  ma_recommendations : list Recommendation;
  ma_allocation_adjustments : dict Q
}.

Definition market_aware_advisor (current_market_conditions : dict string)
    (investment_allocation : Q) (risk_tolerance : string) : option MarketAdvice :=
  if negb (truthy current_market_conditions) then None
  else
    let market_status := lower (get current_market_conditions "status" "neutral") in
    let volatility := lower (get current_market_conditions "volatility" "medium") in
    let '(recommendations, allocation_adjustments) :=
      if String.eqb market_status "dip" || String.eqb market_status "correction" then
        if mem (lower risk_tolerance) ["moderate"; "aggressive"] then
          let increase_pct :=
            if String.eqb (lower risk_tolerance) "aggressive" then 15 else 10 in
          let increase_amount := investment_allocation * (increase_pct / 100) in
          ([{| r_type := "opportunity";
               r_action := ConsiderIncreasing increase_pct increase_amount;
               r_reasoning :=
                 "Market dip presents buying opportunity for long-term gains";
               r_risk_level := "Medium" |}],
           [("increase_investment", increase_amount)])
        else
          ([{| r_type := "caution";
               r_action := FixedAction "Maintain current investment allocation";
               r_reasoning :=
                 "Conservative profile - stay the course during volatility";
               r_risk_level := "Low" |}],
           [])
      else if String.eqb market_status "peak"
              || String.eqb market_status "overvalued" then
        let recommendations :=
          [{| r_type := "caution";
              r_action := FixedAction "Maintain or slightly reduce equity exposure";
              r_reasoning :=
                "Market appears overvalued - protect gains and build cash reserves";
              r_risk_level := "Low" |}] in
        if negb (String.eqb (lower risk_tolerance) "aggressive") then
          (recommendations ++
           [{| r_type := "rebalancing";
               r_action := FixedAction "Shift 10% from stocks to bonds/cash";
               r_reasoning := "Lock in profits and increase stability";
               r_risk_level := "Low" |}],
           [])
        else (recommendations, [])
      else if String.eqb market_status "neutral"
              || String.eqb market_status "stable" then
        ([{| r_type := "steady";
             r_action := FixedAction "Continue regular investment schedule";
             r_reasoning :=
               "Market conditions normal - maintain disciplined approach";
             r_risk_level := "Low" |}],
         [])
      else ([], []) in
    let recommendations :=
      if String.eqb volatility "high" then
        recommendations ++
        [{| r_type := "volatility_warning";
            r_action := FixedAction "Increase emergency fund by 1 month expenses";
            r_reasoning := "High volatility period - strengthen financial buffer";
            r_risk_level := "Medium" |}]
      else recommendations in
    Some {| ma_market_status := capitalize market_status;
            ma_volatility := capitalize volatility;
            ma_recommendations := recommendations;
            ma_allocation_adjustments := allocation_adjustments |}.

(** The points each ratio earns in [health_score]. *)
Definition savings_points (savings_ratio : Q) : Z :=
  if Qle_bool 20 savings_ratio then 35
  else if Qle_bool 15 savings_ratio then 25
  else if Qle_bool 10 savings_ratio then 15
  else 0.

Definition investment_points (investment_ratio : Q) : Z :=
  if Qle_bool 15 investment_ratio then 35
  else if Qle_bool 10 investment_ratio then 25
  else if Qle_bool 5 investment_ratio then 15
  else 0.

Definition discretionary_points (discretionary_ratio : Q) : Z :=
  if Qle_bool discretionary_ratio 40 then 30
  else if Qle_bool discretionary_ratio 50 then 20
  else if Qle_bool discretionary_ratio 60 then 10
  else 0.

(** An investment bought for a positive value and now worth less than 95%
    of it. *)
Definition lost_over_5_pct (inv : Investment) : Prop :=
  0 < get_or (i_purchase_value inv) 0 /\
  get_or (i_current_value inv) 0 < 0.95 * get_or (i_purchase_value inv) 0.

(** A transaction that stayed under its budget by at least the threshold. *)
Definition saved_enough (savings_threshold : Q) (trans : Transaction) : Prop :=
  get_or (t_actual trans) 0 < get_or (t_budgeted trans) 0 /\
  savings_threshold <= get_or (t_budgeted trans) 0 - get_or (t_actual trans) 0.

(** * Binary64 arithmetic

    Python's [float] is IEEE 754 binary64.  The definitions above compute
    with the exact rationals; they serve the properties that rounding cannot
    touch.  In this part a finite float is the rational number it denotes
    and every arithmetic operation rounds its exact result to the nearest
    binary64 value, ties to even, as the hardware does: 53 significant bits
    and gradual underflow down to [2 ^ -1074].  Amounts are floats (the API
    models and the console input convert them); months, ages and counters
    are [int]s, converted where they meet a float.

    The exponent range is not bounded above.  Where Python raises
    [OverflowError] the embedding does too: for an int too large for a
    float and for [**].  Where Python silently yields [inf] (a sum, product
    or quotient beyond the largest finite float) the embedding goes on with
    the rounded number; such results, and [inf] and [nan] inputs, are
    outside this model, and the numeric statements below bound the
    magnitude of their inputs. *)

Module Float.

(** [floor (log2 |x|)] for [x] not 0. *)
Definition ilog2 (x : Q) : Z :=
  let k := (Z.log2 (Z.abs (Qnum x)) - Z.log2 (Zpos (Qden x)))%Z in
  if Qle_bool (2 ^ k) (Qabs x) then k else (k - 1)%Z.

(** The exponent of the last significant bit of the float nearest to [x]. *)
Definition fexp (x : Q) : Z := Z.max (ilog2 x - 52) (-1074).

(** Rounding to the nearest binary64 value, ties to even. *)
Definition fl (x : Q) : Q :=
  inject_Z (round_half_even (x / 2 ^ fexp x)) * 2 ^ fexp x.

(** The unit roundoff, the smallest positive float and half of it. *)
Definition unit_roundoff : Q := 2 ^ (-53).
Definition min_float : Q := 2 ^ (-1074).
Definition half_min : Q := 2 ^ (-1075).

(** [x + y], [x - y], [x * y] and [x / y] on floats; [float(n)] of an int. *)
Definition fadd (x y : Q) : Q := fl (x + y).
Definition fsub (x y : Q) : Q := fl (x - y).
Definition fmul (x y : Q) : Q := fl (x * y).
Definition fdiv (x y : Q) : result Q :=
  if Qeq_bool y 0 then Raise ZeroDivisionError else Ok (fl (x / y)).

(** A number whose nearest float would be beyond the largest finite one,
    [2 ^ 1024 - 2 ^ 971]. *)
Definition overflows (x : Q) : bool := Qle_bool (2 ^ 1024) (Qabs (fl x)).

(** The conversion of the int operand of [x / n], [x * n] and [x ** n]. *)
Definition of_int (n : Z) : result Q :=
  if overflows (inject_Z n) then Raise OverflowError else Ok (fl (inject_Z n)).

(** [a / b] on two ints: the quotient rounded once. *)
Definition int_truediv (a b : Z) : result Q :=
  if (b =? 0)%Z then Raise ZeroDivisionError
  else if overflows (inject_Z a / inject_Z b) then Raise OverflowError
  else Ok (fl (inject_Z a / inject_Z b)).

(** [sum(values)] on floats: starts from 0 and adds from the left.  (From
    version 3.12 on CPython compensates the rounding error of [sum]; the
    statements about totals below also bound the exact sum of the floats,
    which no order or method of summation changes.) *)
Definition fsum (values : list Q) : Q := fold_left fadd values 0.

End Float.
Import Float.

(** * The engine in binary64

    The functions below are the engine functions with every float operation
    rounded.  They carry the names of the source; the exact ones above are
    referred to by their plain names, these as [Binary64.f]. *)

Module Binary64.

(** ** Allocator *)

Definition alloc_total (a : Allocation) : Q :=
  fsum [savings a; investments a; personal a; misc a].

Definition allocate_budget (total_amount savings_pct investment_pct personal_pct : Q)
    (misc_pct : option Q) : Allocation :=
  let misc_pct := match misc_pct with Some p => p | None => 15 end in
  {| savings := fmul total_amount (fl (savings_pct / 100));
     investments := fmul total_amount (fl (investment_pct / 100));
     personal := fmul total_amount (fl (personal_pct / 100));
     misc := fmul total_amount (fl (misc_pct / 100)) |}.

(** ** Reallocation planner *)

Fixpoint reduce_loop (allocation : Allocation) (total_income : Q)
    (cats : list Category) (st : Allocation * Q) : Allocation * Q :=
  match cats with
  | [] => st
  | category :: rest =>
      let '(new_allocation, remaining_shortfall) := st in
      if Qle_bool remaining_shortfall 0 then st
      else
        let min_amount := fmul total_income (fl 0.05) in
        let available := pymax 0 (fsub (alloc_get allocation category) min_amount) in
        let reduction := pymin available remaining_shortfall in
        if Qltb 0 reduction then
          reduce_loop allocation total_income rest
            (alloc_set new_allocation category
               (fsub (alloc_get new_allocation category) reduction),
             fsub remaining_shortfall reduction)
        else reduce_loop allocation total_income rest st
  end.

Definition create_unified_reallocation_plan (allocation : Allocation)
    (savings_shortfall investment_shortfall total_income : Q) : option Allocation :=
  let new_allocation := allocation in
  let total_shortfall := fadd savings_shortfall investment_shortfall in
  let remaining_shortfall := total_shortfall in
  let '(new_allocation, remaining_shortfall) :=
    reduce_loop allocation total_income reduction_priority
      (new_allocation, remaining_shortfall) in
  if Qltb remaining_shortfall total_shortfall then
    let freed_amount := fsub total_shortfall remaining_shortfall in
    let '(new_allocation, freed_amount) :=
      if Qltb 0 savings_shortfall then
        let amount_to_savings := pymin savings_shortfall freed_amount in
        (alloc_set new_allocation Savings
           (fadd (alloc_get new_allocation Savings) amount_to_savings),
         fsub freed_amount amount_to_savings)
      else (new_allocation, freed_amount) in
    let new_allocation :=
      if Qltb 0 investment_shortfall && Qltb 0 freed_amount then
        let amount_to_investments := pymin investment_shortfall freed_amount in
        alloc_set new_allocation Investments
          (fadd (alloc_get new_allocation Investments) amount_to_investments)
      else new_allocation in
    Some new_allocation
  else None.

(** ** Guarded divisions *)

(** [(spent / allocated * 100) if allocated > 0 else 0] *)
Definition usage_pct (spent allocated : Q) : result Q :=
  if Qltb 0 allocated then q <- fdiv spent allocated ;; Ok (fmul q 100) else Ok 0.

(** [((current_value - purchase_value) / purchase_value) * 100
     if purchase_value > 0 else 0] *)
Definition loss_pct (current_value purchase_value : Q) : result Q :=
  if Qltb 0 purchase_value then
    q <- fdiv (fsub current_value purchase_value) purchase_value ;;
    Ok (fmul q 100)
  else Ok 0.

(** ** Goal calculators *)

Definition savings_goal_calculator (target_amount : Q) (months : Z) : result Q :=
  months <- of_int months ;;
  fdiv target_amount months.

(** [(annual_return_pct / 100) / 12] *)
Definition monthly_rate (annual_return_pct : Q) : Q :=
  fl (fl (annual_return_pct / 100) / 12).

Section Power.

(** [b ** e] on floats is the C library's [pow]: not a rational function,
    and not always the nearest float.  The embedding takes it as a
    parameter; it can raise [OverflowError], and [ZeroDivisionError] for a
    zero base with a negative exponent.  (For a negative base and a
    fractional exponent Python returns a complex number; no call below
    can do so: the exponent is an int, or the base is above 1.) *)
Variable float_pow : Q -> Q -> result Q.

Definition investment_goal_calculator (target_amount : Q) (months : Z)
    (annual_return_pct : Q) : result Q :=
  let r := monthly_rate annual_return_pct in
  let n := months in
  if Qeq_bool r 0 then
    n <- of_int n ;;
    fdiv target_amount n
  else
    n <- of_int n ;;
    p <- float_pow (fadd 1 r) n ;;
    fdiv (fmul target_amount r) (fsub p 1).

(** The future value [opportunity_cost_calculator] stores under
    ['lost_future_value']: the division by the monthly rate. *)
Definition lost_future_value (skipped_amount : Q) (months : Z) (annual_return_pct : Q)
    : result Q :=
  let r := monthly_rate annual_return_pct in
  let n := months in
  if Qeq_bool r 0 then
    n <- of_int n ;;
    Ok (fmul skipped_amount n)
  else
    n <- of_int n ;;
    p <- float_pow (fadd 1 r) n ;;
    q <- fdiv (fsub p 1) r ;;
    Ok (fmul skipped_amount q).

(** The monthly requirement that [goal_conflict_resolver_endpoint] and
    [inflation_adjuster_endpoint] of [api.py] compute for each goal before
    they call the engine. *)
Definition endpoint_monthly_req (target_amount : Q) (timeline_months : Z)
    (expected_return : Q) : result Q :=
  if Qltb 0 expected_return then
    let r := monthly_rate expected_return in
    n <- of_int timeline_months ;;
    p <- float_pow (fadd 1 r) n ;;
    fdiv (fmul target_amount r) (fsub p 1)
  else
    n <- of_int timeline_months ;;
    fdiv target_amount n.

(** The body of the loop of [inflation_adjuster] for one goal. *)
Definition adjust_goal (current_inflation_rate : Q) (goal : Goal)
    : result AdjustedGoal :=
  let original_target := get_or (g_target_amount goal) 0 in
  timeline_years <- int_truediv (get_or (g_timeline_months goal) 12%Z) 12 ;;
  growth <- float_pow (fadd 1 (fl (current_inflation_rate / 100))) timeline_years ;;
  let adjusted_target := fmul original_target growth in
  let inflation_impact := fsub adjusted_target original_target in
  let timeline_months := get_or (g_timeline_months goal) 12%Z in
  let expected_return := get_or (g_expected_return goal) 0 in
  adjusted_monthly <-
    (if Qltb 0 expected_return then
       let r := monthly_rate expected_return in
       n <- of_int timeline_months ;;
       p <- float_pow (fadd 1 r) n ;;
       fdiv (fmul adjusted_target r) (fsub p 1)
     else
       n <- of_int timeline_months ;;
       fdiv adjusted_target n) ;;
  let original_monthly := get_or (g_monthly_required goal) 0 in
  let monthly_increase := fsub adjusted_monthly original_monthly in
  Ok {| ag_name := get_or (g_name goal) "Unnamed Goal";
        original_target := original_target;
        adjusted_target := adjusted_target;
        inflation_impact := inflation_impact;
        original_monthly := original_monthly;
        adjusted_monthly := adjusted_monthly;
        monthly_increase := monthly_increase;
        timeline_years := timeline_years;
        inflation_rate := current_inflation_rate |}.

Definition inflation_adjuster (goals : list Goal) (current_inflation_rate : Q)
    : result (option (list AdjustedGoal)) :=
  if negb (truthy goals) || Qle_bool current_inflation_rate 0 then Ok None
  else
    adjusted_goals <- mapM (adjust_goal current_inflation_rate) goals ;;
    Ok (Some adjusted_goals).

End Power.

(** ** Goal conflict resolver *)

Definition calculate_roi_score (expected_return : Q) (timeline_months : Z) : result Q :=
  if (timeline_months =? 0)%Z then Ok 0
  else
    n <- of_int timeline_months ;;
    q <- fdiv expected_return n ;;
    let annualized_return := fmul q 12 in
    if Qle_bool 15 annualized_return then Ok 10
    else if Qle_bool 12 annualized_return then Ok 8
    else if Qle_bool 8 annualized_return then Ok 6
    else if Qle_bool 5 annualized_return then Ok 4
    else Ok 2.

Definition calculate_feasibility_score (monthly_required monthly_income : Q)
    (current_allocation : dict Q) : result Q :=
  let available_funds := fsub monthly_income (fsum (values current_allocation)) in
  if Qeq_bool monthly_required 0 then Ok 5
  else
    coverage_ratio <-
      (if Qltb 0 monthly_required then fdiv available_funds monthly_required
       else Ok 0) ;;
    if Qle_bool (fl 1.5) coverage_ratio then Ok 10
    else if Qle_bool (fl 1.0) coverage_ratio then Ok 8
    else if Qle_bool (fl 0.7) coverage_ratio then Ok 6
    else if Qle_bool (fl 0.5) coverage_ratio then Ok 4
    else Ok 2.

(** The body of the scoring loop for one goal. *)
Definition score_goal (monthly_income : Q) (current_allocation : dict Q) (goal : Goal)
    : result ScoredGoal :=
  let urgency_score := calculate_urgency_score (get_or (g_deadline_months goal) 12%Z) in
  roi_score <- calculate_roi_score (get_or (g_expected_return goal) 0)
                 (get_or (g_timeline_months goal) 12%Z) ;;
  feasibility_score <- calculate_feasibility_score
                         (get_or (g_monthly_required goal) 0)
                         monthly_income current_allocation ;;
  let total_score :=
    fadd (fadd (fmul urgency_score (fl 0.4)) (fmul roi_score (fl 0.3)))
      (fmul feasibility_score (fl 0.3)) in
  Ok {| name := get_or (g_name goal) "Unnamed Goal";
        target_amount := get_or (g_target_amount goal) 0;
        monthly_required := get_or (g_monthly_required goal) 0;
        deadline_months := get_or (g_deadline_months goal) 12%Z;
        expected_return := get_or (g_expected_return goal) 0;
        urgency_score := urgency_score;
        roi_score := roi_score;
        feasibility_score := feasibility_score;
        total_score := total_score;
        priority := if Qle_bool 7 total_score then "High"
                    else if Qle_bool 5 total_score then "Medium"
                    else "Low" |}.

Definition goal_conflict_resolver (goals : list Goal) (monthly_income : Q)
    (current_allocation : dict Q) : result (option (list ScoredGoal)) :=
  if negb (truthy goals) || (List.length goals <? 2)%nat then Ok None
  else
    scored_goals <- mapM (score_goal monthly_income current_allocation) goals ;;
    Ok (Some (sort_desc Qltb total_score scored_goals)).

(** ** Dynamic reallocation advisor *)

(** [difference = allocated - spent] of one category. *)
Definition difference (allocation actual_spending : dict Q) (category : string) : Q :=
  fsub (get allocation category 0) (get actual_spending category 0).

Definition analyse (allocation actual_spending : dict Q) (category : string)
    : result Analysis :=
  let allocated := get allocation category 0 in
  let spent := get actual_spending category 0 in
  let difference := fsub allocated spent in
  u <- usage_pct spent allocated ;;
  Ok {| an_allocated := allocated; an_spent := spent;
        an_difference := difference; an_usage_pct := u |}.

(** The value of the guarded [usage_pct] expression for one category. *)
Definition usage_of (allocation actual_spending : dict Q) (category : string) : Q :=
  let allocated := get allocation category 0 in
  let spent := get actual_spending category 0 in
  if Qltb 0 allocated then fmul (fl (spent / allocated)) 100 else 0.

(** The [category_analysis] entry of one category. *)
Definition analysis_of (allocation actual_spending : dict Q) (category : string)
    : Analysis :=
  {| an_allocated := get allocation category 0;
     an_spent := get actual_spending category 0;
     an_difference := difference allocation actual_spending category;
     an_usage_pct := usage_of allocation actual_spending category |}.

(** No category is underspent; no category is overspent; every underspent
    category has used at least 85% of its allocation: each with the
    difference and the usage percentage the code computes. *)
Definition no_surplus (allocation actual_spending : dict Q) : Prop :=
  forall c, In c (keys allocation) ->
    ~ 0 < difference allocation actual_spending c.

Definition no_deficit (allocation actual_spending : dict Q) : Prop :=
  forall c, In c (keys allocation) ->
    ~ difference allocation actual_spending c < 0.

Definition surpluses_well_used (allocation actual_spending : dict Q) : Prop :=
  forall c, In c (keys allocation) ->
    0 < difference allocation actual_spending c ->
    85 <= usage_of allocation actual_spending c.

(** First pass; the state is [(category_analysis, total_surplus, total_deficit)]. *)
Fixpoint first_pass (allocation actual_spending : dict Q) (cats : list string)
    (st : dict Analysis * Q * Q) : result (dict Analysis * Q * Q) :=
  match cats with
  | [] => Ok st
  | category :: rest =>
      let '(category_analysis, total_surplus, total_deficit) := st in
      a <- analyse allocation actual_spending category ;;
      let category_analysis := dict_set category_analysis category a in
      if Qltb 0 (an_difference a) then
        first_pass allocation actual_spending rest
          (category_analysis, fadd total_surplus (an_difference a), total_deficit)
      else if Qltb (an_difference a) 0 then
        first_pass allocation actual_spending rest
          (category_analysis, total_surplus,
           fadd total_deficit (pyabs (an_difference a)))
      else
        first_pass allocation actual_spending rest
          (category_analysis, total_surplus, total_deficit)
  end.

(** The inner loop over the sorted donors; the state is [(sources, temp_surplus)]. *)
Fixpoint pick_sources (ordered : list Surplus) (amount_to_allocate : Q)
    (st : list (Q * string) * Q) : list (Q * string) :=
  match ordered with
  | [] => fst st
  | surplus :: rest =>
      let '(sources, temp_surplus) := st in
      if Qle_bool temp_surplus 0 then sources
      else
        let contribution := pymin (s_surplus surplus) amount_to_allocate in
        if Qltb 0 contribution then
          pick_sources rest amount_to_allocate
            (sources ++ [(contribution, s_category surplus)],
             fsub temp_surplus contribution)
        else pick_sources rest amount_to_allocate st
  end.

(** The loop over the deficits of case 1; the state is
    [(suggestions, remaining_surplus)]. *)
Fixpoint cover_deficits (surplus_categories : list Surplus) (deficits : list Deficit)
    (st : list Suggestion * Q) : result (list Suggestion * Q) :=
  match deficits with
  | [] => Ok st
  | deficit :: rest =>
      let '(suggestions, remaining_surplus) := st in
      if Qle_bool remaining_surplus 0 then Ok st
      else
        let amount_needed := d_overspend deficit in
        let amount_to_allocate := pymin amount_needed remaining_surplus in
        ordered <- sorted_by_priority surplus_categories ;;
        let sources := pick_sources ordered amount_to_allocate ([], remaining_surplus) in
        cover_deficits surplus_categories rest
          (suggestions ++
             [{| sg_type := "deficit_coverage"; sg_category := d_category deficit;
                 sg_allocated := d_allocated deficit; sg_spent := d_spent deficit;
                 sg_action := CoverOverspend amount_to_allocate sources;
                 sg_priority := "High" |}],
           fsub remaining_surplus amount_to_allocate)
  end.

Definition dynamic_reallocation_suggestions (allocation actual_spending : dict Q)
    (months_tracked : Z) : result (option (list Suggestion)) :=
  if (months_tracked <? 2)%Z then Ok None
  else
    pass <- first_pass allocation actual_spending (keys allocation) ([], 0, 0) ;;
    let '(category_analysis, total_surplus, total_deficit) := pass in
    suggestions <-
      (if Qltb 0 total_surplus || Qltb 0 total_deficit then
         let deficit_categories := collect_deficits category_analysis in
         let surplus_categories := collect_surpluses category_analysis in
         suggestions <-
           (if truthy surplus_categories && truthy deficit_categories then
              covered <- cover_deficits surplus_categories deficit_categories
                           ([], total_surplus) ;;
              let '(suggestions, remaining_surplus) := covered in
              if Qltb 0 remaining_surplus then
                Ok (suggestions ++
                    boost_loop allocation actual_spending surplus_categories
                      remaining_surplus priority_order)
              else Ok suggestions
            else if truthy surplus_categories && negb (truthy deficit_categories) then
              Ok (redirect_loop allocation actual_spending surplus_categories
                    total_surplus ["savings"; "investments"])
            else if truthy deficit_categories && negb (truthy surplus_categories) then
              Ok (map deficit_warning deficit_categories)
            else Ok []) ;;
         Ok (suggestions ++ efficiency_tips surplus_categories)
       else Ok []) ;;
    Ok (if truthy suggestions then Some suggestions else None).

End Binary64.

Module B := Binary64.

(** * Properties *)

(** ** Comparisons, [min] and [max] *)

Lemma Qltb_true (x y : Q) : Qltb x y = true <-> x < y.
Proof.
  unfold Qltb. rewrite negb_true_iff. split; intro H.
  - apply Qnot_le_lt. intro Hle. apply Qle_bool_iff in Hle. congruence.
  - destruct (Qle_bool y x) eqn:E; [|reflexivity].
    apply Qle_bool_iff in E. exfalso. apply (Qlt_not_le _ _ H E).
Qed.

Lemma Qltb_false (x y : Q) : Qltb x y = false <-> y <= x.
Proof.
  unfold Qltb. rewrite negb_false_iff. apply Qle_bool_iff.
Qed.

Lemma Qle_bool_false (x y : Q) : Qle_bool x y = false <-> y < x.
Proof.
  split; intro H.
  - apply Qnot_le_lt. intro Hle. apply Qle_bool_iff in Hle. congruence.
  - destruct (Qle_bool x y) eqn:E; [|reflexivity].
    apply Qle_bool_iff in E. exfalso. apply (Qlt_not_le _ _ H E).
Qed.

Lemma Qeq_bool_false (x y : Q) : Qeq_bool x y = false <-> ~ x == y.
Proof.
  split; intro H.
  - intro E. apply Qeq_bool_iff in E. congruence.
  - destruct (Qeq_bool x y) eqn:E; [|reflexivity].
    apply Qeq_bool_iff in E. contradiction.
Qed.

(** Splits on the first comparison of the goal and records its outcome as
    an order fact. *)
Ltac case_cmp :=
  match goal with
  | |- context [Qltb ?x ?y] =>
      let H := fresh "C" in
      destruct (Qltb x y) eqn:H;
      [apply Qltb_true in H | apply Qltb_false in H]
  | |- context [Qle_bool ?x ?y] =>
      let H := fresh "C" in
      destruct (Qle_bool x y) eqn:H;
      [apply Qle_bool_iff in H | apply Qle_bool_false in H]
  | |- context [Qeq_bool ?x ?y] =>
      let H := fresh "C" in
      destruct (Qeq_bool x y) eqn:H;
      [apply Qeq_bool_iff in H | apply Qeq_bool_false in H]
  end.

Lemma pymax_cases (a b : Q) :
  (a < b /\ pymax a b = b) \/ (b <= a /\ pymax a b = a).
Proof.
  unfold pymax. case_cmp; [left | right]; split; auto.
Qed.

Lemma pymin_cases (a b : Q) :
  (b < a /\ pymin a b = b) \/ (a <= b /\ pymin a b = a).
Proof.
  unfold pymin. case_cmp; [left | right]; split; auto.
Qed.

Lemma pdiv_ok (x y : Q) : ~ y == 0 -> pdiv x y = Ok (x / y).
Proof.
  intro H. unfold pdiv. apply Qeq_bool_false in H. rewrite H. reflexivity.
Qed.

Lemma pdiv_zero (x y : Q) : y == 0 -> pdiv x y = Raise ZeroDivisionError.
Proof.
  intro H. unfold pdiv. apply Qeq_bool_iff in H. rewrite H. reflexivity.
Qed.


(** C10: called without a misc percentage, [allocate_budget] uses 15, and the
    misc amount is [0.15 * total_amount]. *)
Theorem allocate_budget_default_misc (total_amount s i p : Q) :
  allocate_budget total_amount s i p None
    = allocate_budget total_amount s i p (Some 15) /\
  misc (allocate_budget total_amount s i p None) == 0.15 * total_amount.
Proof.
  split; [reflexivity|].
  unfold allocate_budget. cbn [misc]. field.
Qed.

(** ** Goal calculators *)





(** ** Reallocation planner *)

Lemma pymin_spec (a b : Q) :
  pymin a b <= a /\ pymin a b <= b /\ (pymin a b == a \/ pymin a b == b).
Proof.
  destruct (pymin_cases a b) as [[H ->] | [H ->]]; repeat split;
    try lra; auto using Qeq_refl.
Qed.

Lemma pymax_spec (a b : Q) :
  a <= pymax a b /\ b <= pymax a b /\ (pymax a b == a \/ pymax a b == b).
Proof.
  destruct (pymax_cases a b) as [[H ->] | [H ->]]; repeat split;
    try lra; auto using Qeq_refl.
Qed.

(** Records the order facts of every [min] and [max] of the goal. *)
Ltac note_minmax :=
  repeat match goal with
  | |- context [pymin ?a ?b] =>
      lazymatch goal with
      | _ : pymin a b <= a /\ _ |- _ => fail
      | _ => pose proof (pymin_spec a b)
      end
  | |- context [pymax ?a ?b] =>
      lazymatch goal with
      | _ : a <= pymax a b /\ _ |- _ => fail
      | _ => pose proof (pymax_spec a b)
      end
  end.

Ltac split_facts :=
  repeat match goal with
  | H : _ /\ _ |- _ => destruct H
  | H : _ \/ _ |- _ => destruct H
  end.

(** With a positive combined shortfall the freed amount is the smaller of the
    shortfall and what misc and personal hold above their floors. *)
Lemma freed_amount_eq (allocation : Allocation)
    (savings_shortfall investment_shortfall total_income : Q) :
  0 < savings_shortfall + investment_shortfall ->
  freed_amount allocation savings_shortfall investment_shortfall total_income
  == pymin (savings_shortfall + investment_shortfall)
       (available allocation total_income Misc +
        available allocation total_income Personal).
Proof.
  intro Hpos. unfold freed_amount, available, reduction_priority.
  cbn [reduce_loop alloc_get]. cbv zeta.
  note_minmax.
  repeat (case_cmp; cbn [fst snd]); note_minmax; split_facts; lra.
Qed.

(** The planner returns [None] exactly when the loop freed nothing. *)
Lemma create_unified_reallocation_plan_none_iff (allocation : Allocation)
    (savings_shortfall investment_shortfall total_income : Q) :
  create_unified_reallocation_plan allocation savings_shortfall
    investment_shortfall total_income = None <->
  freed_amount allocation savings_shortfall investment_shortfall total_income <= 0.
Proof.
  unfold create_unified_reallocation_plan, freed_amount. cbv zeta.
  destruct (reduce_loop allocation total_income reduction_priority
              (allocation, savings_shortfall + investment_shortfall))
    as [new_allocation remaining].
  cbn [snd].
  destruct (Qltb remaining (savings_shortfall + investment_shortfall)) eqn:C.
  - apply Qltb_true in C. split; intro H.
    + destruct (Qltb 0 savings_shortfall); discriminate.
    + lra.
  - apply Qltb_false in C. split; intro H; [lra | reflexivity].
Qed.

(** With a positive combined shortfall: [None] exactly when neither misc nor
    personal holds anything above its floor; any positive freed amount, full
    or partial, yields a plan. *)
Lemma create_unified_reallocation_plan_none_floor (allocation : Allocation)
    (savings_shortfall investment_shortfall total_income : Q) :
  0 < savings_shortfall + investment_shortfall ->
  (create_unified_reallocation_plan allocation savings_shortfall
     investment_shortfall total_income = None <->
   available allocation total_income Misc +
   available allocation total_income Personal == 0).
Proof.
  intro Hpos. rewrite create_unified_reallocation_plan_none_iff.
  rewrite (freed_amount_eq _ _ _ _ Hpos).
  unfold available.
  note_minmax. split_facts; split; intro; lra.
Qed.

(** C1, the code at the failing input: with allocation
    (20000, 20000, 45000, 15000), income 100000 (floor 5000), a savings
    shortfall of 60000 and no investment shortfall, the loop frees
    50000 < 60000, and the planner still returns a plan: savings 70000,
    investments 20000, personal 5000, misc 5000. *)
Theorem create_unified_reallocation_plan_partial_cover :
  let allocation := mkAllocation 20000 20000 45000 15000 in
  freed_amount allocation 60000 0 100000 == 50000 /\
  freed_amount allocation 60000 0 100000 < 60000 + 0 /\
  exists plan,
    create_unified_reallocation_plan allocation 60000 0 100000 = Some plan /\
    savings plan == 70000 /\ investments plan == 20000 /\
    personal plan == 5000 /\ misc plan == 5000.
Proof.
  cbv zeta. split; [vm_compute; reflexivity|]. split; [vm_compute; reflexivity|].
  eexists. split; [vm_compute; reflexivity|].
  repeat split; vm_compute; reflexivity.
Qed.

(** ** Asset allocation optimizer *)

(** The optimizer looks at [age] and [timeline_years] through six
    comparisons only; once they are decided the result is a closed term. *)
Ltac decide_profile age timeline_years :=
  unfold asset_allocation_optimizer, age_adjustment;
  destruct (age <? 30)%Z, (age <? 40)%Z, (age <? 50)%Z, (age <? 60)%Z,
           (timeline_years <? 2)%Z, (timeline_years <? 5)%Z.

(** For the three risk profiles the optimizer returns, whatever the age and
    the timeline, and the three rounded percentages sum to exactly 100. *)
Lemma asset_allocation_optimizer_exact (age : Z) (risk_tolerance : string)
    (timeline_years : Z) :
  valid_risk risk_tolerance ->
  exists a,
    asset_allocation_optimizer age risk_tolerance timeline_years = Ok a /\
    stocks a + bonds a + cash a == 100.
Proof.
  intros [-> | [-> | ->]]; decide_profile age timeline_years;
    (eexists; split; [vm_compute; reflexivity | vm_compute; reflexivity]).
Qed.

(** C6: for every age of at least 18, each of the three risk profiles and
    every positive timeline, the optimizer returns, and its rounded stocks,
    bonds and cash percentages sum to 100 within 0.1. *)
Theorem asset_allocation_optimizer_sums_to_100 (age : Z) (risk_tolerance : string)
    (timeline_years : Z) :
  (18 <= age)%Z ->
  valid_risk risk_tolerance ->
  (0 < timeline_years)%Z ->
  exists a,
    asset_allocation_optimizer age risk_tolerance timeline_years = Ok a /\
    Qabs (stocks a + bonds a + cash a - 100) <= 1 # 10.
Proof.
  intros _ Hrisk _.
  destruct (asset_allocation_optimizer_exact age risk_tolerance timeline_years Hrisk)
    as (a & Ha & Hsum).
  exists a. split; [exact Ha|].
  setoid_replace (stocks a + bonds a + cash a - 100) with 0 by (rewrite Hsum; ring).
  discriminate.
Qed.

Lemma asset_allocation_optimizer_sums_to_100_witness :
  (18 <= 30)%Z /\ valid_risk "aggressive" /\ (0 < 2)%Z /\
  exists a,
    asset_allocation_optimizer 30 "aggressive" 2 = Ok a /\
    Qabs (stocks a + bonds a + cash a - 100) <= 1 # 10.
Proof.
  split; [discriminate|]. split; [right; right; reflexivity|].
  split; [reflexivity|].
  apply (asset_allocation_optimizer_sums_to_100 30 "aggressive" 2);
    [discriminate | right; right; reflexivity | reflexivity].
Defined.

(** C7: with the conservative profile the stocks percentage is at most 40,
    for every age of at least 18 and every positive timeline. *)
Theorem asset_allocation_optimizer_conservative_cap (age timeline_years : Z) :
  (18 <= age)%Z ->
  (0 < timeline_years)%Z ->
  exists a,
    asset_allocation_optimizer age "conservative" timeline_years = Ok a /\
    stocks a <= 40.
Proof.
  intros _ _. decide_profile age timeline_years;
    (eexists; split; [vm_compute; reflexivity | vm_compute; discriminate]).
Qed.

Lemma asset_allocation_optimizer_conservative_cap_witness :
  (18 <= 18)%Z /\ (0 < 1)%Z /\
  exists a,
    asset_allocation_optimizer 18 "conservative" 1 = Ok a /\ stocks a <= 40.
Proof.
  split; [discriminate|]. split; [reflexivity|].
  apply (asset_allocation_optimizer_conservative_cap 18 1);
    [discriminate | reflexivity].
Defined.

Lemma mapM_ok {A B : Type} (f : A -> result B) (l : list A) :
  (forall x, In x l -> exists y, f x = Ok y) ->
  exists ys, mapM f l = Ok ys /\ Forall2 (fun x y => f x = Ok y) l ys.
Proof.
  induction l as [|x l IH]; intro H.
  - exists []. split; [reflexivity | constructor].
  - destruct (H x (or_introl eq_refl)) as [y Hy].
    destruct IH as (ys & Hys & HF); [intros; apply H; right; assumption|].
    exists (y :: ys). cbn [mapM]. rewrite Hy, Hys. cbn [bind].
    split; [reflexivity | constructor; assumption].
Qed.

(** ** The stable descending sort *)

Section SortFacts.

Context {A : Type}.

Variable key : A -> Q.

Lemma insert_desc_perm (x : A) (l : list A) :
  Permutation (x :: l) (insert_desc Qltb key x l).
Proof.
  induction l as [|y l IH]; cbn [insert_desc]; [reflexivity|].
  destruct (Qltb (key x) (key y)); [|reflexivity].
  rewrite perm_swap. apply perm_skip, IH.
Qed.


Lemma insert_desc_sorted (x : A) (l : list A) :
  StronglySorted (fun a b => key b <= key a) l ->
  StronglySorted (fun a b => key b <= key a) (insert_desc Qltb key x l).
Proof.
  induction 1 as [|y l Hs IH Hy]; cbn [insert_desc].
  - repeat constructor.
  - destruct (Qltb (key x) (key y)) eqn:C.
    + apply Qltb_true in C. constructor; [exact IH|].
      rewrite <- insert_desc_perm. constructor; [|exact Hy].
      cbv beta. lra.
    + apply Qltb_false in C. constructor.
      * constructor; assumption.
      * constructor; [exact C|].
        eapply Forall_impl; [|exact Hy].
        cbv beta. intros z Hz. lra.
Qed.

Lemma sort_desc_sorted (l : list A) :
  StronglySorted (fun a b => key b <= key a) (sort_desc Qltb key l).
Proof.
  induction l as [|x l IH]; cbn [sort_desc];
    [constructor | apply insert_desc_sorted, IH].
Qed.

(** Insertion keeps the elements of every key in their order: the new
    element only moves past elements of a strictly greater key. *)
Lemma insert_desc_stable (k : Q) (x : A) (l : list A) :
  filter (fun y => Qeq_bool (key y) k) (insert_desc Qltb key x l)
  = filter (fun y => Qeq_bool (key y) k) (x :: l).
Proof.
  induction l as [|y l IH]; cbn [insert_desc]; [reflexivity|].
  destruct (Qltb (key x) (key y)) eqn:C; [|reflexivity].
  apply Qltb_true in C.
  cbn [filter] in *. rewrite IH.
  destruct (Qeq_bool (key x) k) eqn:Hx, (Qeq_bool (key y) k) eqn:Hy;
    try reflexivity.
  apply Qeq_bool_iff in Hx. apply Qeq_bool_iff in Hy. lra.
Qed.

Lemma sort_desc_stable (k : Q) (l : list A) :
  filter (fun y => Qeq_bool (key y) k) (sort_desc Qltb key l)
  = filter (fun y => Qeq_bool (key y) k) l.
Proof.
  induction l as [|x l IH]; cbn [sort_desc]; [reflexivity|].
  rewrite insert_desc_stable. cbn [filter]. rewrite IH. reflexivity.
Qed.

(** A list has one stable descending arrangement only: two descending
    lists that keep, for every key, the same elements in the same order are
    equal.  So every stable sort returns what [sort_desc] returns. *)
Lemma stable_sorted_unique (l1 : list A) :
  forall l2 : list A,
    StronglySorted (fun a b => key b <= key a) l1 ->
    StronglySorted (fun a b => key b <= key a) l2 ->
    (forall k, filter (fun y => Qeq_bool (key y) k) l1
               = filter (fun y => Qeq_bool (key y) k) l2) ->
    l1 = l2.
Proof.
  assert (Hrefl : forall z : A, Qeq_bool (key z) (key z) = true)
    by (intro z; apply Qeq_bool_iff; reflexivity).
  induction l1 as [|x l1 IH]; intros [|y l2] S1 S2 Hf.
  - reflexivity.
  - specialize (Hf (key y)). cbn [filter] in Hf. rewrite Hrefl in Hf. discriminate.
  - specialize (Hf (key x)). cbn [filter] in Hf. rewrite Hrefl in Hf. discriminate.
  - inversion S1 as [|? ? S1' F1]; subst. inversion S2 as [|? ? S2' F2]; subst.
    rewrite Forall_forall in F1, F2.
    assert (Hxy : key x <= key y).
    { assert (Hin : In x (filter (fun z => Qeq_bool (key z) (key x)) (y :: l2))).
      { rewrite <- Hf. cbn [filter]. rewrite Hrefl. left. reflexivity. }
      apply filter_In in Hin. destruct Hin as [[<- | Hin] _];
        [apply Qle_refl | exact (F2 x Hin)]. }
    assert (Hyx : key y <= key x).
    { assert (Hin : In y (filter (fun z => Qeq_bool (key z) (key y)) (x :: l1))).
      { rewrite Hf. cbn [filter]. rewrite Hrefl. left. reflexivity. }
      apply filter_In in Hin. destruct Hin as [[<- | Hin] _];
        [apply Qle_refl | exact (F1 y Hin)]. }
    assert (Hk : Qeq_bool (key y) (key x) = true) by (apply Qeq_bool_iff; lra).
    assert (E : x = y).
    { specialize (Hf (key x)). cbn [filter] in Hf. rewrite Hrefl, Hk in Hf.
      congruence. }
    subst y. f_equal. apply IH; [assumption | assumption|].
    intro k. specialize (Hf k). cbn [filter] in Hf.
    destruct (Qeq_bool (key x) k); congruence.
Qed.

Lemma sort_desc_unique (l l' : list A) :
  StronglySorted (fun a b => key b <= key a) l' ->
  (forall k, filter (fun y => Qeq_bool (key y) k) l'
             = filter (fun y => Qeq_bool (key y) k) l) ->
  l' = sort_desc Qltb key l.
Proof.
  intros Hs Hf. apply stable_sorted_unique;
    [exact Hs | apply sort_desc_sorted|].
  intro k. rewrite sort_desc_stable. apply Hf.
Qed.

End SortFacts.

(** ** Goal conflict resolver *)

Lemma dict_set_new {V : Type} (d : dict V) (k : string) (v : V) :
  In (k, v) (dict_set d k v).
Proof.
  induction d as [|[k' v'] d IH]; cbn [dict_set]; [left; reflexivity|].
  destruct (String.eqb k k'); [left; reflexivity | right; exact IH].
Qed.

Lemma dict_set_inv {V : Type} (d : dict V) (k k' : string) (v a : V) :
  In (k', a) (dict_set d k v) -> (k' = k /\ a = v) \/ In (k', a) d.
Proof.
  induction d as [|[k0 v0] d IH]; cbn [dict_set].
  - intros [E | []]. left. inversion E. auto.
  - destruct (String.eqb k k0).
    + intros [E | H]; [left; inversion E; auto | right; right; exact H].
    + intros [E | H]; [right; left; exact E|].
      destruct (IH H) as [? | ?]; [left; assumption | right; right; assumption].
Qed.

Lemma dict_set_other {V : Type} (d : dict V) (k k' : string) (v a : V) :
  k' <> k -> In (k', a) d -> In (k', a) (dict_set d k v).
Proof.
  intro Hne. induction d as [|[k0 v0] d IH]; cbn [dict_set]; [intros []|].
  destruct (String.eqb_spec k k0) as [-> | Hk].
  - intros [E | H]; [inversion E; congruence | right; exact H].
  - intros [E | H]; [left; exact E | right; exact (IH H)].
Qed.

Lemma collect_deficits_nil (ca : dict Analysis) :
  collect_deficits ca = [] <->
  forall k a, In (k, a) ca -> 0 <= an_difference a.
Proof.
  induction ca as [|[k0 a0] ca IH]; cbn [collect_deficits].
  - split; [intros _ k a [] | reflexivity].
  - destruct (Qltb (an_difference a0) 0) eqn:C.
    + apply Qltb_true in C. split; [discriminate|].
      intro H. specialize (H k0 a0 (or_introl eq_refl)). lra.
    + apply Qltb_false in C. rewrite IH. split; intros H k a.
      * intros [E | Hin]; [inversion E; subst; exact C | exact (H k a Hin)].
      * intro Hin. apply (H k a). right. exact Hin.
Qed.

Lemma collect_surpluses_nil (ca : dict Analysis) :
  collect_surpluses ca = [] <->
  forall k a, In (k, a) ca -> 0 < an_difference a -> 85 <= an_usage_pct a.
Proof.
  induction ca as [|[k0 a0] ca IH]; cbn [collect_surpluses].
  - split; [intros _ k a [] | reflexivity].
  - destruct (Qltb 0 (an_difference a0)) eqn:C1;
      [destruct (Qltb (an_usage_pct a0) 85) eqn:C2|]; cbn [andb].
    + apply Qltb_true in C1. apply Qltb_true in C2. split; [discriminate|].
      intro H. specialize (H k0 a0 (or_introl eq_refl) C1). lra.
    + apply Qltb_true in C1. apply Qltb_false in C2. rewrite IH.
      split; intros H k a.
      * intros [E | Hin]; [inversion E; subst; intros _; exact C2 | exact (H k a Hin)].
      * intro Hin. apply (H k a). right. exact Hin.
    + apply Qltb_false in C1. rewrite IH. split; intros H k a.
      * intros [E | Hin]; [inversion E; subst; intro; lra | exact (H k a Hin)].
      * intro Hin. apply (H k a). right. exact Hin.
Qed.

Lemma truthy_length {A : Type} (l : list A) :
  (0 < List.length l)%nat -> truthy l = true.
Proof.
  destruct l; cbn; [lia | reflexivity].
Qed.

(** * Further properties of the engine *)

(** ** Reallocation planner: floors, priority and full coverage *)

(** What the loop took from misc ([red1]) and from personal ([red2]): never
    more than the category holds above its floor, from personal only once
    misc is drained, and together the smaller of the shortfall and what the
    two categories hold above their floors. *)
Lemma reduce_loop_two (allocation : Allocation) (total_income shortfall : Q) :
  let st := reduce_loop allocation total_income reduction_priority
              (allocation, shortfall) in
  let red1 := misc allocation - misc (fst st) in
  let red2 := personal allocation - personal (fst st) in
  savings (fst st) == savings allocation /\
  investments (fst st) == investments allocation /\
  snd st == shortfall - red1 - red2 /\
  0 <= red1 /\ red1 <= available allocation total_income Misc /\
  0 <= red2 /\ red2 <= available allocation total_income Personal /\
  (0 < red2 -> red1 == available allocation total_income Misc) /\
  (0 < shortfall ->
   red1 + red2 == pymin shortfall (available allocation total_income Misc +
                                   available allocation total_income Personal)) /\
  (shortfall <= 0 -> red1 + red2 == 0).
Proof.
  unfold reduction_priority, available.
  cbn [reduce_loop alloc_get]. cbv zeta.
  note_minmax.
  repeat (case_cmp; cbn [fst snd alloc_get alloc_set savings investments personal misc]);
    split_facts; repeat split; intros; lra.
Qed.

(** The plan in terms of what the loop took: the freed amount goes to
    savings up to the savings shortfall, the rest to investments. *)
Lemma plan_amounts (allocation : Allocation)
    (savings_shortfall investment_shortfall total_income : Q) (plan : Allocation) :
  create_unified_reallocation_plan allocation savings_shortfall
    investment_shortfall total_income = Some plan ->
  let red1 := misc allocation - misc plan in
  let red2 := personal allocation - personal plan in
  let to_savings := savings plan - savings allocation in
  let to_investments := investments plan - investments allocation in
  0 < red1 + red2 /\
  0 <= red1 /\ red1 <= available allocation total_income Misc /\
  0 <= red2 /\ red2 <= available allocation total_income Personal /\
  (0 < red2 -> red1 == available allocation total_income Misc) /\
  (0 < savings_shortfall + investment_shortfall ->
   red1 + red2
   == pymin (savings_shortfall + investment_shortfall)
        (available allocation total_income Misc +
         available allocation total_income Personal)) /\
  0 <= to_savings /\ 0 <= to_investments /\
  (0 <= savings_shortfall -> 0 <= investment_shortfall ->
   ((to_savings == savings_shortfall /\ savings_shortfall <= red1 + red2) \/
    (to_savings == red1 + red2 /\ red1 + red2 <= savings_shortfall)) /\
   to_investments == red1 + red2 - to_savings).
Proof.
  unfold create_unified_reallocation_plan.
  pose proof (reduce_loop_two allocation total_income
                (savings_shortfall + investment_shortfall)) as L.
  cbv zeta in L.
  destruct (reduce_loop allocation total_income reduction_priority
              (allocation, savings_shortfall + investment_shortfall))
    as [new_allocation remaining].
  cbn [fst snd] in L.
  destruct L as (L1 & L2 & L3 & L4 & L5 & L6 & L7 & L8 & L9 & L10).
  cbv zeta.
  destruct (Qltb remaining (savings_shortfall + investment_shortfall)) eqn:C;
    [|discriminate].
  apply Qltb_true in C.
  note_minmax.
  repeat (case_cmp; cbn [andb]); note_minmax;
    intro E; injection E as <-;
    cbn [alloc_get alloc_set savings investments personal misc] in *;
    split_facts; repeat split; intros; try lra;
    try (apply L8; lra); try (apply L9; lra);
    try (assert (misc allocation - misc new_allocation +
                 (personal allocation - personal new_allocation) == 0)
           by (apply L10; lra); lra);
    try (left; split; lra); try (right; split; lra).
Qed.

(** X3: misc is drawn on before personal: a plan that lowers personal has
    taken from misc everything misc held above its floor. *)
Theorem plan_takes_misc_first (allocation : Allocation)
    (savings_shortfall investment_shortfall total_income : Q) (plan : Allocation) :
  create_unified_reallocation_plan allocation savings_shortfall
    investment_shortfall total_income = Some plan ->
  personal plan < personal allocation ->
  misc plan == misc allocation - available allocation total_income Misc.
Proof.
  intros E Hlt. pose proof (plan_amounts _ _ _ _ _ E) as A. cbv zeta in A.
  destruct A as (_ & _ & _ & _ & _ & A1 & _).
  assert (H : misc allocation - misc plan
              == available allocation total_income Misc) by (apply A1; lra).
  lra.
Qed.

Lemma plan_takes_misc_first_witness :
  exists plan,
    create_unified_reallocation_plan (mkAllocation 20000 20000 45000 15000)
      30000 0 100000 = Some plan /\
    personal plan < 45000 /\
    misc plan
      == 15000 - available (mkAllocation 20000 20000 45000 15000) 100000 Misc.
Proof.
  eexists. split; [vm_compute; reflexivity|].
  split; [vm_compute; reflexivity|].
  apply (plan_takes_misc_first (mkAllocation 20000 20000 45000 15000)
           30000 0 100000);
    vm_compute; reflexivity.
Defined.

(** ** Goal calculators and opportunity cost *)

(** ** Sums and dict updates *)

Lemma fold_left_Qplus (l : list Q) :
  forall a, fold_left Qplus l a == a + pysum l.
Proof.
  unfold pysum. induction l as [|x l IH]; intro a; cbn [fold_left].
  - ring.
  - rewrite (IH (a + x)), (IH (0 + x)). ring.
Qed.

Lemma pysum_cons (x : Q) (l : list Q) : pysum (x :: l) == x + pysum l.
Proof.
  unfold pysum at 1. cbn [fold_left]. rewrite fold_left_Qplus. ring.
Qed.

(** ** Allocation-health analyzer *)

Lemma health_score_split (s i d : Q) :
  health_score s i d
  = (savings_points s + investment_points i + discretionary_points d)%Z.
Proof.
  unfold health_score, savings_points, investment_points, discretionary_points.
  cbv zeta.
  repeat match goal with
         | |- context [Qle_bool ?x ?y] => destruct (Qle_bool x y)
         end; reflexivity.
Qed.

Lemma savings_points_mono (s s' : Q) :
  s <= s' -> (savings_points s <= savings_points s')%Z.
Proof.
  intro H. unfold savings_points. repeat case_cmp; try lia; lra.
Qed.

Lemma investment_points_mono (i i' : Q) :
  i <= i' -> (investment_points i <= investment_points i')%Z.
Proof.
  intro H. unfold investment_points. repeat case_cmp; try lia; lra.
Qed.

Lemma discretionary_points_mono (d d' : Q) :
  d' <= d -> (discretionary_points d <= discretionary_points d')%Z.
Proof.
  intro H. unfold discretionary_points. repeat case_cmp; try lia; lra.
Qed.

Lemma excellent_iff_score (s i d : Q) :
  analyze_allocation_health s i d = "Excellent" <-> (85 <= health_score s i d)%Z.
Proof.
  unfold analyze_allocation_health. cbv zeta.
  destruct (85 <=? health_score s i d)%Z eqn:E1.
  - apply Z.leb_le in E1. split; [intros _; exact E1 | reflexivity].
  - apply Z.leb_gt in E1.
    destruct (70 <=? health_score s i d)%Z;
      [|destruct (50 <=? health_score s i d)%Z];
      (split; [discriminate | lia]).
Qed.

Lemma needs_improvement_iff_score (s i d : Q) :
  analyze_allocation_health s i d = "Needs Improvement"
  <-> (health_score s i d < 50)%Z.
Proof.
  unfold analyze_allocation_health. cbv zeta.
  destruct (85 <=? health_score s i d)%Z eqn:E1;
    [apply Z.leb_le in E1; split; [discriminate | lia]|].
  destruct (70 <=? health_score s i d)%Z eqn:E2;
    [apply Z.leb_le in E2; split; [discriminate | lia]|].
  destruct (50 <=? health_score s i d)%Z eqn:E3.
  - apply Z.leb_le in E3. split; [discriminate | lia].
  - apply Z.leb_gt in E3. split; [intros _; exact E3 | reflexivity].
Qed.

(** X9: a higher savings ratio, a higher investment ratio and a lower
    discretionary ratio never lower the health score: an "Excellent"
    allocation stays "Excellent", and an allocation that "Needs Improvement"
    after the change needed it before. *)
Theorem health_score_monotone (s i d s' i' d' : Q) :
  s <= s' -> i <= i' -> d' <= d ->
  (health_score s i d <= health_score s' i' d')%Z /\
  (analyze_allocation_health s i d = "Excellent" ->
   analyze_allocation_health s' i' d' = "Excellent") /\
  (analyze_allocation_health s' i' d' = "Needs Improvement" ->
   analyze_allocation_health s i d = "Needs Improvement").
Proof.
  intros Hs Hi Hd.
  assert (H : (health_score s i d <= health_score s' i' d')%Z).
  { rewrite !health_score_split.
    pose proof (savings_points_mono _ _ Hs).
    pose proof (investment_points_mono _ _ Hi).
    pose proof (discretionary_points_mono _ _ Hd). lia. }
  split; [exact H|].
  rewrite !excellent_iff_score, !needs_improvement_iff_score. lia.
Qed.

Lemma health_score_monotone_witness :
  18 <= 20 /\ 15 <= 15 /\ 45 <= 50 /\
  (health_score 18 15 50 <= health_score 20 15 45)%Z /\
  (analyze_allocation_health 18 15 50 = "Excellent" ->
   analyze_allocation_health 20 15 45 = "Excellent") /\
  (analyze_allocation_health 20 15 45 = "Needs Improvement" ->
   analyze_allocation_health 18 15 50 = "Needs Improvement").
Proof.
  split; [discriminate|]. split; [discriminate|]. split; [discriminate|].
  apply (health_score_monotone 18 15 50 20 15 45); discriminate.
Defined.

(** X10: the label is "Excellent" exactly when savings is at least 20% and
    investments at least 15% with discretionary spending at most 50%, or one
    of the two is a bracket lower (savings at least 15%, or investments at
    least 10%) with discretionary spending at most 40%. *)
Theorem excellent_iff (s i d : Q) :
  analyze_allocation_health s i d = "Excellent" <->
  (20 <= s /\ 15 <= i /\ d <= 50) \/
  (20 <= s /\ 10 <= i /\ d <= 40) \/
  (15 <= s /\ 15 <= i /\ d <= 40).
Proof.
  rewrite excellent_iff_score, health_score_split.
  unfold savings_points, investment_points, discretionary_points.
  repeat case_cmp;
    (split;
     [intro H; try lia;
      first [left; repeat split; lra
            | right; left; repeat split; lra
            | right; right; repeat split; lra]
     | intros [H | [H | H]]; try lia; destruct H as (? & ? & ?); lra]).
Qed.

(** Decides every remaining branch of the goal without recording it. *)
Ltac split_ifs :=
  repeat match goal with
         | |- context [if ?b then _ else _] => destruct b
         end.

(** X11: [generate_ai_analysis] raises [ZeroDivisionError] exactly when the
    total income is 0, and returns an analysis exactly when it is not. *)
Theorem generate_ai_analysis_zero_income (total_income : Q)
    (allocation : Allocation) (savings_gap investment_gap : Q) :
  (generate_ai_analysis total_income allocation savings_gap investment_gap
   = Raise ZeroDivisionError <-> total_income == 0) /\
  ((exists analysis,
      generate_ai_analysis total_income allocation savings_gap investment_gap
      = Ok analysis) <-> ~ total_income == 0).
Proof.
  assert (Hok : ~ total_income == 0 ->
                exists analysis,
                  generate_ai_analysis total_income allocation savings_gap
                    investment_gap = Ok analysis).
  { intro Hne. unfold generate_ai_analysis.
    rewrite !pdiv_ok by exact Hne. cbn [bind]. cbv zeta.
    split_ifs; eexists; reflexivity. }
  assert (Hzero : total_income == 0 ->
                  generate_ai_analysis total_income allocation savings_gap
                    investment_gap = Raise ZeroDivisionError).
  { intro H0. unfold generate_ai_analysis.
    rewrite (pdiv_zero _ _ H0). reflexivity. }
  split; split.
  - intro E. destruct (Qeq_dec total_income 0) as [H0 | Hne]; [exact H0|].
    destruct (Hok Hne) as [a Ha]. congruence.
  - exact Hzero.
  - intros [a Ha] H0. rewrite (Hzero H0) in Ha. discriminate.
  - exact Hok.
Qed.

(** ** Expense forecasting *)

Lemma len_cons {A : Type} (x : A) (l : list A) : len (x :: l) == 1 + len l.
Proof.
  unfold len. cbn [List.length]. rewrite Nat2Z.inj_succ. unfold Z.succ.
  rewrite inject_Z_plus. change (inject_Z 1) with 1. ring.
Qed.

Lemma len_nonneg {A : Type} (l : list A) : 0 <= len l.
Proof.
  unfold len. change 0 with (inject_Z 0). rewrite <- Zle_Qle. lia.
Qed.

Lemma len_pos {A : Type} (l : list A) : l <> [] -> 0 < len l.
Proof.
  destruct l as [|x l]; [congruence|]. intros _.
  rewrite len_cons. pose proof (len_nonneg l). lra.
Qed.


Lemma truthy_true {A : Type} (l : list A) : truthy l = true <-> l <> [].
Proof.
  destruct l; cbn; split; congruence.
Qed.


(** X13: from three months of history on, [expense_forecasting] returns
    one or two predictions; it never raises and never returns an empty
    list. *)
Theorem expense_forecasting_predicts (history : list Q) :
  (3 <= List.length history)%nat ->
  exists predictions,
    expense_forecasting history = Ok (Some predictions) /\
    (1 <= List.length predictions <= 2)%nat.
Proof.
  intro Hlen. unfold expense_forecasting.
  assert (Hne : history <> []) by (destruct history; cbn in Hlen; [lia | congruence]).
  assert (E : negb (truthy history) || (List.length history <? 3)%nat = false).
  { apply truthy_true in Hne. rewrite Hne. cbn [negb orb].
    apply Nat.ltb_ge. exact Hlen. }
  rewrite E. clear E.
  rewrite pdiv_ok by (pose proof (len_pos history Hne); lra). cbn [bind]. cbv zeta.
  set (avg := pysum history / len history).
  set (spikes := filter (fun exp => Qltb (avg * 1.5) exp) history).
  destruct (truthy spikes) eqn:Hs.
  - apply truthy_true in Hs.
    rewrite !pdiv_ok by (pose proof (len_pos history Hne);
                         pose proof (len_pos spikes Hs); lra).
    cbn [bind].
    destruct (last_n 3 history) as [|r0 [|r1 [|r2 [|? ?]]]];
      try destruct (Qltb r0 r1 && Qltb r1 r2);
      cbn [app truthy negb];
      eexists; (split; [reflexivity | cbn [List.length]; lia]).
  - cbn [bind].
    destruct (last_n 3 history) as [|r0 [|r1 [|r2 [|? ?]]]];
      try destruct (Qltb r0 r1 && Qltb r1 r2);
      cbn [app truthy negb];
      eexists; (split; [reflexivity | cbn [List.length]; lia]).
Qed.

Lemma expense_forecasting_predicts_witness :
  (3 <= List.length [100; 100; 400; 100; 110; 120])%nat /\
  exists predictions,
    expense_forecasting [100; 100; 400; 100; 110; 120] = Ok (Some predictions) /\
    (1 <= List.length predictions <= 2)%nat.
Proof.
  split; [cbn; lia|].
  apply (expense_forecasting_predicts [100; 100; 400; 100; 110; 120]).
  cbn; lia.
Defined.



(** ** Income volatility buffer *)

Lemma last_n_short {A : Type} (n : nat) (l : list A) :
  (List.length l <= n)%nat -> last_n n l = l.
Proof.
  intro H. unfold last_n.
  replace (List.length l - n)%nat with 0%nat by lia. reflexivity.
Qed.

Lemma last_n_app {A : Type} (older recent : list A) :
  last_n (List.length recent) (older ++ recent) = recent.
Proof.
  unfold last_n. rewrite length_app.
  replace (List.length older + List.length recent - List.length recent)%nat
    with (List.length older + 0)%nat by lia.
  rewrite skipn_app, Nat.add_0_r, skipn_all.
  replace (List.length older - List.length older)%nat with 0%nat by lia.
  reflexivity.
Qed.

(** The incomes the buffer looks at are the last six, whatever the length. *)
Lemma recent_income_eq (income_history : list Q) :
  (if (6 <=? List.length income_history)%nat then last_n 6 income_history
   else income_history) = last_n 6 income_history.
Proof.
  destruct (6 <=? List.length income_history)%nat eqn:E; [reflexivity|].
  apply Nat.leb_gt in E. symmetry. apply last_n_short. lia.
Qed.




(** X17: only the last six incomes count: putting older incomes in front of
    six recent ones does not change the result. *)
Theorem income_volatility_buffer_last_six (older recent : list Q) :
  List.length recent = 6%nat ->
  income_volatility_buffer (older ++ recent) = income_volatility_buffer recent.
Proof.
  intro H6. unfold income_volatility_buffer. cbv zeta.
  rewrite !recent_income_eq.
  assert (L : last_n 6 (older ++ recent) = recent)
    by (rewrite <- H6; apply last_n_app).
  rewrite L, (last_n_short 6 recent) by lia.
  assert (E1 : negb (truthy (older ++ recent))
               || (List.length (older ++ recent) <? 2)%nat = false).
  { destruct recent as [|x [|y l]]; cbn in H6; try lia.
    destruct older as [|o [|o' older]]; reflexivity. }
  assert (E2 : negb (truthy recent) || (List.length recent <? 2)%nat = false).
  { destruct recent as [|x [|y l]]; cbn in H6; try lia. reflexivity. }
  rewrite E1, E2. reflexivity.
Qed.

Lemma income_volatility_buffer_last_six_witness :
  List.length [50000; 50000; 50000; 50000; 50000; 60000] = 6%nat /\
  income_volatility_buffer
    ([1; 2; 3] ++ [50000; 50000; 50000; 50000; 50000; 60000])
  = income_volatility_buffer [50000; 50000; 50000; 50000; 50000; 60000].
Proof.
  split; [reflexivity|].
  apply (income_volatility_buffer_last_six [1; 2; 3]). reflexivity.
Defined.

(** ** Tax-loss harvesting *)

(** The loss percentage is always defined, and it is below -5 exactly for an
    investment that lost more than 5% of a positive purchase value. *)
Lemma loss_pct_below (current_value purchase_value : Q) :
  exists l,
    loss_pct current_value purchase_value = Ok l /\
    (l < -5 <-> 0 < purchase_value /\ current_value < 0.95 * purchase_value) /\
    (l < -5 -> current_value - purchase_value < 0).
Proof.
  unfold loss_pct. destruct (Qltb 0 purchase_value) eqn:C.
  - apply Qltb_true in C. rewrite pdiv_ok by lra. cbn [bind].
    eexists. split; [reflexivity|].
    set (q := (current_value - purchase_value) / purchase_value).
    assert (Hq : q * purchase_value == current_value - purchase_value)
      by (unfold q; field; lra).
    assert (Hiff : q * 100 < -5 <-> current_value < 0.95 * purchase_value).
    { split; intro H.
      - assert (H1 : q * purchase_value < -0.05 * purchase_value)
          by (apply Qmult_lt_compat_r; lra).
        lra.
      - assert (H1 : q < -0.05) by (apply Qlt_shift_div_r; lra).
        lra. }
    split; [|intro H; apply Hiff in H; lra].
    rewrite Hiff. split; [intro H; split; assumption | intros [_ H]; exact H].
  - apply Qltb_false in C. eexists. split; [reflexivity|].
    split; [split; [intro H; lra | intros [H _]; lra] | intro H; lra].
Qed.

Lemma harvest_loop_spec (investments_data : list Investment) :
  exists opportunities,
    harvest_loop investments_data = Ok opportunities /\
    Forall (fun o => 5 < o_loss_pct o /\ 0 < o_loss_amount o /\
                     o_tax_offset_benefit o == 0.3 * o_loss_amount o)
      opportunities /\
    (List.length opportunities <= List.length investments_data)%nat /\
    (opportunities = [] <->
     forall inv, In inv investments_data -> ~ lost_over_5_pct inv).
Proof.
  induction investments_data as [|inv rest IH].
  - exists []. cbn [harvest_loop]. split; [reflexivity|].
    split; [constructor|]. split; [cbn; lia|].
    split; [intros _ inv [] | reflexivity].
  - destruct IH as (ops & E & HF & Hlen & Hnil).
    cbn [harvest_loop]. cbv zeta.
    destruct (loss_pct_below (get_or (i_current_value inv) 0)
                (get_or (i_purchase_value inv) 0)) as (l & El & Hl & Hneg).
    rewrite El, E. cbn [bind].
    destruct (Qltb l (-5)) eqn:C.
    + apply Qltb_true in C. eexists. split; [reflexivity|].
      split.
      { constructor; [|exact HF].
        cbn [o_loss_pct o_loss_amount o_tax_offset_benefit]. unfold pyabs.
        specialize (Hneg C).
        rewrite (Qabs_neg l) by lra.
        rewrite (Qabs_neg (get_or (i_current_value inv) 0
                           - get_or (i_purchase_value inv) 0)) by lra.
        repeat split; lra. }
      split; [cbn [List.length]; lia|].
      split; [discriminate|].
      intro H. exfalso. apply (H inv (or_introl eq_refl)).
      unfold lost_over_5_pct. apply Hl. exact C.
    + apply Qltb_false in C. exists ops. split; [reflexivity|].
      split; [exact HF|]. split; [cbn [List.length]; lia|].
      rewrite Hnil. split; intros H i.
      * intros [<- | Hin]; [|exact (H i Hin)].
        unfold lost_over_5_pct. intro F. apply Hl in F. lra.
      * intro Hin. apply H. right. exact Hin.
Qed.

(** X19: every opportunity the tracker returns has a loss percentage above
    5, a positive loss amount and a tax offset of 30% of that amount, and
    there are no more opportunities than investments. *)
Theorem tax_loss_opportunities (investments_data : list Investment)
    (opportunities : list Opportunity) :
  tax_loss_harvesting_tracker investments_data = Ok (Some opportunities) ->
  Forall (fun o => 5 < o_loss_pct o /\ 0 < o_loss_amount o /\
                   o_tax_offset_benefit o == 0.3 * o_loss_amount o)
    opportunities /\
  (1 <= List.length opportunities <= List.length investments_data)%nat.
Proof.
  unfold tax_loss_harvesting_tracker.
  destruct (negb (truthy investments_data)); [discriminate|].
  destruct (harvest_loop_spec investments_data) as (ops & E & HF & Hlen & _).
  rewrite E. cbn [bind].
  destruct ops as [|o ops]; cbn [truthy]; [discriminate|].
  intro H. injection H as <-. split; [exact HF|]. cbn [List.length] in *. lia.
Qed.

Lemma tax_loss_opportunities_witness :
  let investments :=
    [mkInvestment (Some "fund") (Some 900) (Some 1000);
     mkInvestment (Some "bond") (Some 990) (Some 1000)] in
  exists opportunities,
    tax_loss_harvesting_tracker investments = Ok (Some opportunities) /\
    Forall (fun o => 5 < o_loss_pct o /\ 0 < o_loss_amount o /\
                     o_tax_offset_benefit o == 0.3 * o_loss_amount o)
      opportunities /\
    (1 <= List.length opportunities <= List.length investments)%nat.
Proof.
  cbv zeta. eexists. split; [vm_compute; reflexivity|].
  apply (tax_loss_opportunities
           [mkInvestment (Some "fund") (Some 900) (Some 1000);
            mkInvestment (Some "bond") (Some 990) (Some 1000)]).
  vm_compute; reflexivity.
Defined.

(** ** Micro-savings triggers *)

(** The loop only appends triggers: one per transaction that saved enough,
    each with its saving added to the total. *)
Lemma triggers_loop_spec (savings_threshold : Q) (transactions : list Transaction) :
  forall (triggers0 : list Trigger) (total0 : Q),
    exists added,
      fst (triggers_loop savings_threshold transactions (triggers0, total0))
        = triggers0 ++ added /\
      snd (triggers_loop savings_threshold transactions (triggers0, total0))
        == total0 + pysum (map tr_saved added) /\
      Forall (fun t => savings_threshold <= tr_saved t /\ 0 < tr_saved t /\
                       tr_saved t = tr_budgeted t - tr_actual t) added /\
      (added = [] <->
       forall trans, In trans transactions -> ~ saved_enough savings_threshold trans).
Proof.
  induction transactions as [|trans rest IH]; intros triggers0 total0.
  - exists []. cbn [triggers_loop fst snd map]. rewrite app_nil_r.
    split; [reflexivity|]. split; [unfold pysum; cbn; ring|].
    split; [constructor|]. split; [intros _ t [] | reflexivity].
  - cbn [triggers_loop]. cbv zeta.
    destruct (Qltb (get_or (t_actual trans) 0) (get_or (t_budgeted trans) 0)) eqn:C1;
      [destruct (Qle_bool savings_threshold
                   (get_or (t_budgeted trans) 0 - get_or (t_actual trans) 0)) eqn:C2|].
    + apply Qltb_true in C1. apply Qle_bool_iff in C2.
      match goal with
      | |- context [triggers_loop _ _ (?t1, ?s1)] =>
          destruct (IH t1 s1) as (added & E1 & E2 & HF & Hnil)
      end.
      eexists (_ :: added). rewrite E1, E2, <- app_assoc. cbn [app map].
      split; [reflexivity|]. split; [rewrite pysum_cons; cbn [tr_saved]; ring|].
      split.
      { constructor; [|exact HF].
        cbn [tr_saved tr_budgeted tr_actual]. repeat split; [exact C2 | lra]. }
      split; [discriminate|].
      intro H. exfalso. apply (H trans (or_introl eq_refl)). split; assumption.
    + apply Qltb_true in C1. apply Qle_bool_false in C2.
      destruct (IH triggers0 total0) as (added & E1 & E2 & HF & Hnil).
      exists added. split; [exact E1|]. split; [exact E2|]. split; [exact HF|].
      rewrite Hnil. split; intros H t.
      * intros [<- | Hin]; [|exact (H t Hin)]. intros [_ F]. lra.
      * intro Hin. apply H. right. exact Hin.
    + apply Qltb_false in C1.
      destruct (IH triggers0 total0) as (added & E1 & E2 & HF & Hnil).
      exists added. split; [exact E1|]. split; [exact E2|]. split; [exact HF|].
      rewrite Hnil. split; intros H t.
      * intros [<- | Hin]; [|exact (H t Hin)]. intros [F _]. lra.
      * intro Hin. apply H. right. exact Hin.
Qed.

(** X20: whenever [micro_savings_triggers] returns data, there is at least
    one trigger, the total is the sum of the triggers' savings, and every
    trigger saved a positive amount of at least the threshold: its budget
    minus its actual spending. *)
Theorem micro_savings_total (transactions : list Transaction)
    (savings_threshold : option Q) (data : MicroSavings) :
  micro_savings_triggers transactions savings_threshold = Some data ->
  triggers data <> [] /\
  total_micro_savings data == pysum (map tr_saved (triggers data)) /\
  Forall (fun t => get_or savings_threshold 50 <= tr_saved t /\ 0 < tr_saved t /\
                   tr_saved t = tr_budgeted t - tr_actual t) (triggers data).
Proof.
  unfold micro_savings_triggers. cbv zeta.
  destruct (negb (truthy transactions)); [discriminate|].
  destruct (triggers_loop_spec (get_or savings_threshold 50) transactions [] 0)
    as (added & E1 & E2 & HF & _).
  destruct (triggers_loop (get_or savings_threshold 50) transactions ([], 0))
    as [trs total].
  cbn [fst snd app] in E1, E2. subst trs.
  destruct added as [|t added]; cbn [truthy]; [discriminate|].
  intro H. injection H as <-. cbn [triggers total_micro_savings].
  split; [discriminate|]. split; [rewrite E2; ring | exact HF].
Qed.

Lemma micro_savings_total_witness :
  let transactions :=
    [mkTransaction (Some "dining") (Some 500) (Some 400);
     mkTransaction (Some "fuel") (Some 500) (Some 480)] in
  exists data,
    micro_savings_triggers transactions None = Some data /\
    triggers data <> [] /\
    total_micro_savings data == pysum (map tr_saved (triggers data)) /\
    Forall (fun t => get_or None 50 <= tr_saved t /\ 0 < tr_saved t /\
                     tr_saved t = tr_budgeted t - tr_actual t) (triggers data).
Proof.
  cbv zeta. eexists. split; [vm_compute; reflexivity|].
  apply (micro_savings_total
           [mkTransaction (Some "dining") (Some 500) (Some 400);
            mkTransaction (Some "fuel") (Some 500) (Some 480)] None).
  vm_compute; reflexivity.
Defined.

(** ** Streak tracking *)

Lemma longest_loop_app (l1 l2 : list (option bool)) (st : Z * Z) :
  longest_loop (l1 ++ l2) st = longest_loop l2 (longest_loop l1 st).
Proof.
  revert st. induction l1 as [|m l1 IH]; intros [lg tmp];
    cbn [app longest_loop]; [reflexivity|].
  destruct (success m); apply IH.
Qed.

Lemma current_loop_acc (reversed : list (option bool)) (c : Z) :
  current_loop reversed c = (c + current_loop reversed 0)%Z.
Proof.
  revert c. induction reversed as [|m l IH]; intro c; cbn [current_loop]; [lia|].
  destruct (success m); [|lia].
  rewrite (IH (c + 1)%Z), (IH (0 + 1)%Z). lia.
Qed.

(** The first loop keeps [0 <= temp_streak <= longest_streak] and never
    lowers [longest_streak]. *)
Lemma longest_loop_inv (l : list (option bool)) (lg tmp : Z) :
  (0 <= tmp <= lg)%Z ->
  (0 <= snd (longest_loop l (lg, tmp)) <= fst (longest_loop l (lg, tmp)))%Z /\
  (lg <= fst (longest_loop l (lg, tmp)))%Z.
Proof.
  revert lg tmp. induction l as [|m l IH]; intros lg tmp H;
    cbn [longest_loop fst snd]; [lia|].
  destruct (success m).
  - destruct (IH (Z.max lg (tmp + 1)) (tmp + 1)%Z) as [I1 I2]; lia.
  - destruct (IH lg 0%Z) as [I1 I2]; lia.
Qed.

(** Over a run of successful months the temporary streak grows by the length
    of the run. *)
Lemma longest_loop_run (run : list (option bool)) (lg tmp : Z) :
  Forall (fun m => success m = true) run ->
  (0 <= tmp <= lg)%Z ->
  longest_loop run (lg, tmp)
  = (Z.max lg (tmp + Z.of_nat (List.length run)),
     (tmp + Z.of_nat (List.length run))%Z).
Proof.
  intro HF. revert lg tmp. induction HF as [|m run Hm HF IH]; intros lg tmp H.
  - cbn [longest_loop List.length]. f_equal; lia.
  - cbn [longest_loop]. rewrite Hm. rewrite IH by lia.
    cbn [List.length]. f_equal; lia.
Qed.

(** The second loop counts the leading run of successes of the reversed
    list, and stops at the first failure. *)
Lemma current_loop_run (reversed : list (option bool)) :
  exists run rest,
    reversed = run ++ rest /\
    Forall (fun m => success m = true) run /\
    current_loop reversed 0 = Z.of_nat (List.length run) /\
    (rest = [] \/ exists m rest', rest = m :: rest' /\ success m = false).
Proof.
  induction reversed as [|m l IH].
  - exists [], []. cbn. repeat split; [constructor | left; reflexivity].
  - destruct IH as (run & rest & E & HF & Hc & Hrest).
    cbn [current_loop]. destruct (success m) eqn:Hm.
    + exists (m :: run), rest. split; [cbn [app]; congruence|].
      split; [constructor; assumption|].
      split; [rewrite current_loop_acc, Hc; cbn [List.length]; lia | exact Hrest].
    + exists [], (m :: l). split; [reflexivity|]. split; [constructor|].
      split; [reflexivity|]. right. exists m, l. split; [reflexivity | exact Hm].
Qed.

(** The same, read on the list in its own order: the trailing run. *)
Lemma trailing_run (monthly_performance : list (option bool)) :
  exists earlier run,
    monthly_performance = earlier ++ run /\
    Forall (fun m => success m = true) run /\
    current_loop (rev monthly_performance) 0 = Z.of_nat (List.length run) /\
    (earlier = [] \/
     exists earlier' m, earlier = earlier' ++ [m] /\ success m = false).
Proof.
  destruct (current_loop_run (rev monthly_performance))
    as (run & rest & E & HF & Hc & Hrest).
  exists (rev rest), (rev run).
  split; [rewrite <- rev_app_distr, <- E, rev_involutive; reflexivity|].
  split; [apply Forall_rev; exact HF|].
  split; [rewrite length_rev; exact Hc|].
  destruct Hrest as [-> | (m & rest' & -> & Hm)]; [left; reflexivity|].
  right. exists (rev rest'), m. split; [reflexivity | exact Hm].
Qed.

(** After the first loop, [temp_streak] is the current streak, and
    [longest_streak] is the length of a run of successes and at most the
    number of successful months. *)
Lemma longest_loop_spec (monthly_performance : list (option bool)) :
  snd (longest_loop monthly_performance (0%Z, 0%Z))
    = current_loop (rev monthly_performance) 0 /\
  (fst (longest_loop monthly_performance (0%Z, 0%Z))
     <= Z.of_nat (List.length (filter success monthly_performance)))%Z /\
  exists earlier run later,
    monthly_performance = earlier ++ run ++ later /\
    Forall (fun m => success m = true) run /\
    fst (longest_loop monthly_performance (0%Z, 0%Z))
      = Z.of_nat (List.length run).
Proof.
  induction monthly_performance as [|x l IH] using rev_ind.
  - cbn. split; [reflexivity|]. split; [lia|].
    exists [], [], []. repeat split. constructor.
  - destruct IH as (I1 & I2 & (a & run & b & E & HF & I3)).
    pose proof (longest_loop_inv l 0 0 ltac:(lia)) as [I4 _].
    rewrite longest_loop_app, rev_app_distr, filter_app, length_app.
    destruct (longest_loop l (0%Z, 0%Z)) as [lg tmp]. cbn [fst snd] in *.
    cbn [rev app longest_loop current_loop filter].
    destruct (success x) eqn:Hx; cbn [fst snd List.length].
    + rewrite current_loop_acc, <- I1.
      split; [lia|]. split; [lia|].
      destruct (Z_le_gt_dec (tmp + 1) lg) as [Hle | Hgt].
      * exists a, run, (b ++ [x]).
        split; [rewrite E, <- !app_assoc; reflexivity|].
        split; [exact HF | lia].
      * destruct (trailing_run (l ++ [x])) as (a' & run' & E' & HF' & Hc & _).
        exists a', run', []. rewrite app_nil_r.
        split; [exact E'|]. split; [exact HF'|].
        rewrite <- Hc, rev_app_distr. cbn [rev app current_loop].
        rewrite Hx, current_loop_acc, <- I1. lia.
    + split; [reflexivity|]. split; [lia|].
      exists a, run, (b ++ [x]).
      split; [rewrite E, <- !app_assoc; reflexivity|].
      split; [exact HF | lia].
Qed.

(** No run of successes is longer than [longest_streak]. *)
Lemma longest_loop_bounds_runs (earlier run later : list (option bool)) :
  Forall (fun m => success m = true) run ->
  (Z.of_nat (List.length run)
   <= fst (longest_loop (earlier ++ run ++ later) (0%Z, 0%Z)))%Z.
Proof.
  intro HF. rewrite !longest_loop_app.
  pose proof (longest_loop_inv earlier 0 0 ltac:(lia)) as [I1 _].
  destruct (longest_loop earlier (0%Z, 0%Z)) as [lg tmp]. cbn [fst snd] in I1.
  rewrite (longest_loop_run run lg tmp HF I1).
  pose proof (longest_loop_inv later
                (Z.max lg (tmp + Z.of_nat (List.length run)))
                (tmp + Z.of_nat (List.length run))%Z ltac:(lia)) as [_ I2].
  lia.
Qed.

(** What [streak_tracking] returns for a list that is not empty. *)
Lemma streak_tracking_eq (monthly_performance : list (option bool))
    (goal_type : option string) :
  monthly_performance <> [] ->
  streak_tracking monthly_performance goal_type =
  Ok (Some
    {| current_streak := current_loop (rev monthly_performance) 0;
       longest_streak := fst (longest_loop monthly_performance (0%Z, 0%Z));
       success_rate :=
         inject_Z (Z.of_nat (List.length (filter success monthly_performance)))
         / len monthly_performance * 100;
       total_months := Z.of_nat (List.length monthly_performance);
       milestone :=
         if (12 <=? current_loop (rev monthly_performance) 0)%Z
         then Some OneYearStreak
         else if (6 <=? current_loop (rev monthly_performance) 0)%Z
         then Some SixMonthStreak
         else if (3 <=? current_loop (rev monthly_performance) 0)%Z
         then Some ThreeMonthStreak
         else if (1 <=? current_loop (rev monthly_performance) 0)%Z
         then Some StartingStrong
         else None;
       goal_type := get_or goal_type "budget_adherence" |}).
Proof.
  intro Hne. unfold streak_tracking. cbv zeta.
  assert (C : negb (truthy monthly_performance)
              || (List.length monthly_performance <? 1)%nat = false).
  { destruct monthly_performance; [congruence | reflexivity]. }
  rewrite C.
  destruct (longest_loop monthly_performance (0%Z, 0%Z)) as [lg tmp].
  rewrite pdiv_ok by (pose proof (len_pos monthly_performance Hne); lra).
  reflexivity.
Qed.

(** X23: the longest streak reported is the length of the longest run of
    consecutive successful months: some run has that length, and no run is
    longer. *)
Theorem longest_streak_is_longest_run (monthly_performance : list (option bool))
    (goal_type : option string) (data : StreakData) :
  streak_tracking monthly_performance goal_type = Ok (Some data) ->
  (exists earlier run later,
     monthly_performance = earlier ++ run ++ later /\
     Forall (fun m => success m = true) run /\
     longest_streak data = Z.of_nat (List.length run)) /\
  (forall earlier run later,
     monthly_performance = earlier ++ run ++ later ->
     Forall (fun m => success m = true) run ->
     (Z.of_nat (List.length run) <= longest_streak data)%Z).
Proof.
  intro E.
  assert (Hne : monthly_performance <> []) by (intros ->; discriminate).
  rewrite streak_tracking_eq in E by exact Hne.
  injection E as <-. cbn [longest_streak].
  split.
  - apply longest_loop_spec.
  - intros earlier run later -> HF. apply longest_loop_bounds_runs. exact HF.
Qed.

Lemma longest_streak_is_longest_run_witness :
  exists data,
    streak_tracking [Some true; Some true; Some false; None; Some true] None
      = Ok (Some data) /\
    (exists earlier run later,
       [Some true; Some true; Some false; None; Some true]
         = earlier ++ run ++ later /\
       Forall (fun m => success m = true) run /\
       longest_streak data = Z.of_nat (List.length run)) /\
    (forall earlier run later,
       [Some true; Some true; Some false; None; Some true]
         = earlier ++ run ++ later ->
       Forall (fun m => success m = true) run ->
       (Z.of_nat (List.length run) <= longest_streak data)%Z).
Proof.
  eexists. split; [vm_compute; reflexivity|].
  apply (longest_streak_is_longest_run
           [Some true; Some true; Some false; None; Some true] None).
  vm_compute; reflexivity.
Defined.

(** X24: the current streak is the length of the run of successful months
    that ends the list (a month without a ['success'] entry counts as a
    failure and ends it), and a milestone is reported exactly when that run
    is not empty. *)
Theorem current_streak_is_trailing_run (monthly_performance : list (option bool))
    (goal_type : option string) (data : StreakData) :
  streak_tracking monthly_performance goal_type = Ok (Some data) ->
  (exists earlier run,
     monthly_performance = earlier ++ run /\
     Forall (fun m => success m = true) run /\
     current_streak data = Z.of_nat (List.length run) /\
     (earlier = [] \/
      exists earlier' m, earlier = earlier' ++ [m] /\ success m = false)) /\
  (milestone data = None <-> current_streak data = 0%Z) /\
  (current_streak data = 0%Z <->
   success (last monthly_performance None) = false).
Proof.
  intro E.
  assert (Hne : monthly_performance <> []) by (intros ->; discriminate).
  rewrite streak_tracking_eq in E by exact Hne.
  injection E as <-. cbn [current_streak milestone].
  rename monthly_performance into mp.
  destruct (trailing_run mp) as (earlier & run & Emp & HF & Hc & He).
  split; [exists earlier, run; repeat split; assumption|].
  split.
  - assert (H0 : (0 <= current_loop (rev mp) 0)%Z) by lia.
    destruct (12 <=? current_loop (rev mp) 0)%Z eqn:C12;
      [apply Z.leb_le in C12; split; [discriminate | lia]|].
    destruct (6 <=? current_loop (rev mp) 0)%Z eqn:C6;
      [apply Z.leb_le in C6; split; [discriminate | lia]|].
    destruct (3 <=? current_loop (rev mp) 0)%Z eqn:C3;
      [apply Z.leb_le in C3; split; [discriminate | lia]|].
    destruct (1 <=? current_loop (rev mp) 0)%Z eqn:C1;
      [apply Z.leb_le in C1; split; [discriminate | lia]|].
    apply Z.leb_gt in C1. split; [lia | reflexivity].
  - rewrite Hc. subst mp.
    destruct run as [|r run] using rev_ind.
    + rewrite app_nil_r in *. split; [intros _ | reflexivity].
      destruct He as [-> | (earlier' & m & -> & Hm)].
      * congruence.
      * rewrite last_last. exact Hm.
    + rewrite app_assoc, last_last, length_app. cbn [List.length].
      apply Forall_app in HF. destruct HF as [_ HF].
      inversion HF as [|? ? Hr _]; subst.
      split; [lia | congruence].
Qed.

Lemma current_streak_is_trailing_run_witness :
  exists data,
    streak_tracking [Some true; Some false; Some true; Some true; Some true]
      None = Ok (Some data) /\
    (exists earlier run,
       [Some true; Some false; Some true; Some true; Some true]
         = earlier ++ run /\
       Forall (fun m => success m = true) run /\
       current_streak data = Z.of_nat (List.length run) /\
       (earlier = [] \/
        exists earlier' m, earlier = earlier' ++ [m] /\ success m = false)) /\
    (milestone data = None <-> current_streak data = 0%Z) /\
    (current_streak data = 0%Z <->
     success (last [Some true; Some false; Some true; Some true; Some true] None)
       = false).
Proof.
  eexists. split; [vm_compute; reflexivity|].
  apply (current_streak_is_trailing_run
           [Some true; Some false; Some true; Some true; Some true] None).
  vm_compute; reflexivity.
Defined.

(** ** Market-aware advisor *)

Ltac eqb_facts :=
  repeat match goal with
         | H : String.eqb _ _ = true |- _ => apply String.eqb_eq in H
         | H : String.eqb _ _ = false |- _ => apply String.eqb_neq in H
         end.

Ltac split_eqbs :=
  repeat (match goal with
          | |- context [String.eqb ?a ?b] => destruct (String.eqb a b) eqn:?
          end; cbn [orb andb negb existsb app]).

(** X25: the advisor proposes a larger investment only in a dip or a
    correction and only to a moderate or aggressive profile (both read
    case-insensitively); the proposed increase is then the single adjustment,
    15% of the investment allocation for an aggressive profile and 10% for a
    moderate one.  An ["opportunity"] recommendation never comes without
    that adjustment, and there are never more than three recommendations. *)
Theorem market_advice_increase (current_market_conditions : dict string)
    (investment_allocation : Q) (risk_tolerance : string) (advice : MarketAdvice) :
  market_aware_advisor current_market_conditions investment_allocation
    risk_tolerance = Some advice ->
  let market_status :=
    lower (get current_market_conditions "status" "neutral") in
  (ma_allocation_adjustments advice <> [] <->
   (market_status = "dip" \/ market_status = "correction") /\
   (lower risk_tolerance = "moderate" \/ lower risk_tolerance = "aggressive")) /\
  (ma_allocation_adjustments advice = [] \/
   (lower risk_tolerance = "aggressive" /\
    ma_allocation_adjustments advice
    = [("increase_investment", investment_allocation * (15 / 100))]) \/
   (lower risk_tolerance = "moderate" /\
    ma_allocation_adjustments advice
    = [("increase_investment", investment_allocation * (10 / 100))])) /\
  (forall r, In r (ma_recommendations advice) -> r_type r = "opportunity" ->
             ma_allocation_adjustments advice <> []) /\
  (List.length (ma_recommendations advice) <= 3)%nat.
Proof.
  unfold market_aware_advisor.
  destruct (negb (truthy current_market_conditions)); [discriminate|].
  cbv zeta. unfold mem.
  set (market_status := lower (get current_market_conditions "status" "neutral")).
  set (volatility := lower (get current_market_conditions "volatility" "medium")).
  set (risk := lower risk_tolerance).
  cbn [existsb].
  split_eqbs; intro E; injection E as <-;
    cbn [ma_allocation_adjustments ma_recommendations List.length app];
    eqb_facts;
    (split; [split; [intro H; try congruence; tauto
                    | intros [[H1 | H1] [H2 | H2]]; congruence]|]);
    (split; [first [ left; reflexivity
                   | right; left; split; [assumption | reflexivity]
                   | right; right; split; [assumption | reflexivity] ]|]);
    (split; [|lia]);
    intros r Hin Ht; cbn [In] in Hin;
    repeat (destruct Hin as [<- | Hin]; [try discriminate Ht|]);
    try contradiction; discriminate.
Qed.

Lemma market_advice_increase_witness :
  exists advice,
    market_aware_advisor [("status", "Dip"); ("volatility", "HIGH")] 20000
      "Aggressive" = Some advice /\
    (ma_allocation_adjustments advice <> [] <->
     (lower (get [("status", "Dip"); ("volatility", "HIGH")] "status" "neutral")
        = "dip" \/
      lower (get [("status", "Dip"); ("volatility", "HIGH")] "status" "neutral")
        = "correction") /\
     (lower "Aggressive" = "moderate" \/ lower "Aggressive" = "aggressive")) /\
    (ma_allocation_adjustments advice = [] \/
     (lower "Aggressive" = "aggressive" /\
      ma_allocation_adjustments advice
      = [("increase_investment", 20000 * (15 / 100))]) \/
     (lower "Aggressive" = "moderate" /\
      ma_allocation_adjustments advice
      = [("increase_investment", 20000 * (10 / 100))])) /\
    (forall r, In r (ma_recommendations advice) -> r_type r = "opportunity" ->
               ma_allocation_adjustments advice <> []) /\
    (List.length (ma_recommendations advice) <= 3)%nat.
Proof.
  eexists. split; [vm_compute; reflexivity|].
  apply (market_advice_increase [("status", "Dip"); ("volatility", "HIGH")]
           20000 "Aggressive").
  vm_compute; reflexivity.
Defined.

(** ** Asset allocation for any profile text, age and timeline *)

(** The optimizer reads the profile through three string comparisons; the
    capitalised text it returns plays no part in the percentages. *)
Ltac decide_risk risk_tolerance :=
  unfold asset_allocation_optimizer, age_adjustment, risk_profiles;
  cbn [get];
  generalize (capitalize risk_tolerance); intro;
  destruct (String.eqb (lower risk_tolerance) "conservative");
    [|destruct (String.eqb (lower risk_tolerance) "moderate");
      [|destruct (String.eqb (lower risk_tolerance) "aggressive")]].

Ltac decide_cmp x n := destruct (Z.ltb_spec x n); try (exfalso; lia).

Ltac decide_age age :=
  decide_cmp age 30%Z; decide_cmp age 40%Z; decide_cmp age 50%Z;
  decide_cmp age 60%Z.

Ltac decide_timeline timeline_years :=
  decide_cmp timeline_years 2%Z; decide_cmp timeline_years 5%Z.

Ltac closed_facts :=
  vm_compute; repeat split;
  first [reflexivity | discriminate | intro; discriminate].

(** X26: for every age, timeline and profile text (also one that is not
    one of the three profiles, an age below 18 or a timeline that is not
    positive) the optimizer returns, no division raises, the three
    percentages sum to exactly 100, and stocks lie between 10 and 85, bonds
    are at least 10 and cash at least 3. *)
Theorem asset_allocation_optimizer_always (age : Z) (risk_tolerance : string)
    (timeline_years : Z) :
  exists a,
    asset_allocation_optimizer age risk_tolerance timeline_years = Ok a /\
    stocks a + bonds a + cash a == 100 /\
    10 <= stocks a /\ stocks a <= 85 /\ 10 <= bonds a /\ 3 <= cash a.
Proof.
  decide_risk risk_tolerance; decide_age age; decide_timeline timeline_years;
    (eexists; split; [vm_compute; reflexivity | closed_facts]).
Qed.

(** X27: a profile text whose lower-case form is neither conservative nor
    aggressive (moderate in any spelling of upper and lower case, or any
    other word) gets the percentages of the moderate profile. *)
Theorem asset_allocation_optimizer_default_profile (age : Z)
    (risk_tolerance : string) (timeline_years : Z) :
  lower risk_tolerance <> "conservative" ->
  lower risk_tolerance <> "aggressive" ->
  exists a m,
    asset_allocation_optimizer age risk_tolerance timeline_years = Ok a /\
    asset_allocation_optimizer age "moderate" timeline_years = Ok m /\
    stocks a = stocks m /\ bonds a = bonds m /\ cash a = cash m.
Proof.
  intros Hc Ha. apply String.eqb_neq in Hc. apply String.eqb_neq in Ha.
  unfold asset_allocation_optimizer, age_adjustment, risk_profiles.
  cbn [get]. rewrite Hc, Ha.
  generalize (capitalize risk_tolerance). intro.
  destruct (String.eqb (lower risk_tolerance) "moderate");
    decide_age age; decide_timeline timeline_years;
    (eexists; eexists; split; [vm_compute; reflexivity|];
     split; [vm_compute; reflexivity|]; repeat split).
Qed.

Lemma asset_allocation_optimizer_default_profile_witness :
  lower "Balanced" <> "conservative" /\
  lower "Balanced" <> "aggressive" /\
  exists a m,
    asset_allocation_optimizer 35 "Balanced" 10 = Ok a /\
    asset_allocation_optimizer 35 "moderate" 10 = Ok m /\
    stocks a = stocks m /\ bonds a = bonds m /\ cash a = cash m.
Proof.
  split; [vm_compute; discriminate|]. split; [vm_compute; discriminate|].
  apply (asset_allocation_optimizer_default_profile 35 "Balanced" 10);
    vm_compute; discriminate.
Defined.

(** X29: with the same profile, an older investor with a timeline that is
    not longer never gets a higher stocks percentage. *)
Theorem asset_allocation_stocks_monotone (age1 age2 : Z) (risk_tolerance : string)
    (timeline1 timeline2 : Z) :
  (age1 <= age2)%Z ->
  (timeline2 <= timeline1)%Z ->
  exists a1 a2,
    asset_allocation_optimizer age1 risk_tolerance timeline1 = Ok a1 /\
    asset_allocation_optimizer age2 risk_tolerance timeline2 = Ok a2 /\
    stocks a2 <= stocks a1.
Proof.
  intros Hage Htl.
  decide_risk risk_tolerance;
    decide_age age1; decide_age age2;
    decide_timeline timeline1; decide_timeline timeline2;
    (eexists; eexists; split; [vm_compute; reflexivity|];
     split; [vm_compute; reflexivity | vm_compute; discriminate]).
Qed.

Lemma asset_allocation_stocks_monotone_witness :
  (25 <= 55)%Z /\ (3 <= 10)%Z /\
  exists a1 a2,
    asset_allocation_optimizer 25 "moderate" 10 = Ok a1 /\
    asset_allocation_optimizer 55 "moderate" 3 = Ok a2 /\
    stocks a2 <= stocks a1.
Proof.
  split; [discriminate|]. split; [discriminate|].
  apply (asset_allocation_stocks_monotone 25 55 "moderate" 10 3); discriminate.
Defined.

(** ** Dynamic reallocation: when the advisor raises *)

Lemma index_ok (l : list string) (x : string) :
  In x l -> exists i, index l x = Ok i.
Proof.
  induction l as [|y l IH]; [intros []|]. intro H. cbn [index].
  destruct (String.eqb x y) eqn:E; [eexists; reflexivity|].
  apply String.eqb_neq in E. destruct H as [-> | H]; [congruence|].
  destruct (IH H) as [i ->]. cbn [bind]. eexists; reflexivity.
Qed.

Lemma index_raise (l : list string) (x : string) :
  ~ In x l -> index l x = Raise ValueError.
Proof.
  induction l as [|y l IH]; cbn [index]; intro H; [reflexivity|].
  destruct (String.eqb x y) eqn:E.
  - apply String.eqb_eq in E. exfalso. apply H. left. congruence.
  - rewrite IH; [reflexivity|]. intro Hin. apply H. right. exact Hin.
Qed.

Lemma mapM_raise {A B : Type} (f : A -> result B) (e : exn) (l : list A) :
  (forall x, In x l -> f x = Raise e \/ exists y, f x = Ok y) ->
  (exists x, In x l /\ f x = Raise e) ->
  mapM f l = Raise e.
Proof.
  induction l as [|x l IH]; intros Hall (x0 & Hin & Hx0); [destruct Hin|].
  cbn [mapM]. destruct (Hall x (or_introl eq_refl)) as [-> | [y Hy]];
    [reflexivity|].
  rewrite Hy. cbn [bind]. rewrite IH; [reflexivity | |].
  - intros z Hz. apply Hall. right. exact Hz.
  - destruct Hin as [<- | Hin]; [congruence|]. exists x0. split; assumption.
Qed.

(** The sort computes every key first: it returns when every donor category
    is in the priority list and raises [ValueError] otherwise. *)
Lemma sorted_by_priority_cases (surplus_categories : list Surplus) :
  (Forall (fun s => In (s_category s) priority_order) surplus_categories /\
   exists ordered, sorted_by_priority surplus_categories = Ok ordered) \/
  (Exists (fun s => ~ In (s_category s) priority_order) surplus_categories /\
   sorted_by_priority surplus_categories = Raise ValueError).
Proof.
  destruct (Forall_Exists_dec (fun s => In (s_category s) priority_order)
              (fun s => in_dec string_dec (s_category s) priority_order)
              surplus_categories) as [HF | HE].
  - left. split; [exact HF|]. unfold sorted_by_priority.
    destruct (mapM_ok (fun x => i <- index priority_order (s_category x) ;;
                                Ok (i, x)) surplus_categories)
      as (ys & E & _).
    { intros x Hx. rewrite Forall_forall in HF.
      destruct (index_ok _ _ (HF x Hx)) as [i Hi]. rewrite Hi. cbn [bind].
      eexists; reflexivity. }
    rewrite E. cbn [bind]. eexists; reflexivity.
  - right. split; [exact HE|]. unfold sorted_by_priority.
    rewrite (mapM_raise _ ValueError); [reflexivity | |].
    + intros x _.
      destruct (in_dec string_dec (s_category x) priority_order) as [Hi | Hn].
      * right. destruct (index_ok _ _ Hi) as [i ->]. eexists; reflexivity.
      * left. rewrite (index_raise _ _ Hn). reflexivity.
    + apply Exists_exists in HE. destruct HE as (x & Hin & Hn).
      exists x. split; [exact Hin|]. rewrite (index_raise _ _ Hn). reflexivity.
Qed.

Lemma collect_surpluses_in (ca : dict Analysis) (s : Surplus) :
  In s (collect_surpluses ca) ->
  exists a, In (s_category s, a) ca /\ 0 < an_difference a /\ an_usage_pct a < 85.
Proof.
  induction ca as [|[k0 a0] ca IH]; cbn [collect_surpluses]; [intros []|].
  destruct (Qltb 0 (an_difference a0)) eqn:C1;
    [destruct (Qltb (an_usage_pct a0) 85) eqn:C2|]; cbn [andb].
  - apply Qltb_true in C1. apply Qltb_true in C2. intros [<- | Hin].
    + exists a0. cbn [s_category]. split; [left; reflexivity | split; assumption].
    + destruct (IH Hin) as (a & Ha & H). exists a. split; [right; exact Ha | exact H].
  - intro Hin. destruct (IH Hin) as (a & Ha & H).
    exists a. split; [right; exact Ha | exact H].
  - intro Hin. destruct (IH Hin) as (a & Ha & H).
    exists a. split; [right; exact Ha | exact H].
Qed.

Lemma collect_surpluses_has (ca : dict Analysis) (k : string) (a : Analysis) :
  In (k, a) ca -> 0 < an_difference a -> an_usage_pct a < 85 ->
  exists s, In s (collect_surpluses ca) /\ s_category s = k.
Proof.
  intros Hin Hd Hu. induction ca as [|[k0 a0] ca IH]; [destruct Hin|].
  cbn [collect_surpluses]. destruct Hin as [E | Hin].
  - inversion E; subst.
    apply Qltb_true in Hd. apply Qltb_true in Hu. rewrite Hd, Hu. cbn [andb].
    eexists. split; [left; reflexivity | reflexivity].
  - destruct (IH Hin) as (s & Hs & Hk).
    destruct (Qltb 0 (an_difference a0) && Qltb (an_usage_pct a0) 85);
      exists s; (split; [|exact Hk]); [right; exact Hs | exact Hs].
Qed.

Lemma collect_deficits_in (ca : dict Analysis) (d : Deficit) :
  In d (collect_deficits ca) ->
  exists a, In (d_category d, a) ca /\ an_difference a < 0.
Proof.
  induction ca as [|[k0 a0] ca IH]; cbn [collect_deficits]; [intros []|].
  destruct (Qltb (an_difference a0) 0) eqn:C.
  - apply Qltb_true in C. intros [<- | Hin].
    + exists a0. cbn [d_category]. split; [left; reflexivity | exact C].
    + destruct (IH Hin) as (a & Ha & H). exists a. split; [right; exact Ha | exact H].
  - intro Hin. destruct (IH Hin) as (a & Ha & H).
    exists a. split; [right; exact Ha | exact H].
Qed.

(** * Binary64 rounding *)

(** ** Rounding to the nearest integer *)

Lemma round_half_even_err (x : Q) :
  Qabs (inject_Z (round_half_even x) - x) <= 1 # 2.
Proof.
  destruct x as [n d]. unfold round_half_even. cbn [Qnum Qden]. cbv zeta.
  pose proof (Z.div_mod n (Zpos d) ltac:(lia)) as Hdm.
  pose proof (Z.mod_pos_bound n (Zpos d) ltac:(lia)) as Hr.
  set (q := (n / Zpos d)%Z) in *. set (r := (n mod Zpos d)%Z) in *.
  apply Qabs_Qle_condition.
  destruct (2 * r ?= Zpos d)%Z eqn:C;
    [apply Z.compare_eq in C | rewrite Z.compare_lt_iff in C
     | rewrite Z.compare_gt_iff in C];
    [destruct (Z.even q)|..];
    unfold Qle, Qminus, Qplus, Qopp, inject_Z; cbn [Qnum Qden]; split; nia.
Qed.

Lemma round_half_even_mono (x y : Q) :
  x <= y -> (round_half_even x <= round_half_even y)%Z.
Proof.
  destruct x as [n1 d1], y as [n2 d2]. unfold Qle, round_half_even.
  cbn [Qnum Qden]. cbv zeta. intro H.
  pose proof (Z.div_mod n1 (Zpos d1) ltac:(lia)) as Hdm1.
  pose proof (Z.mod_pos_bound n1 (Zpos d1) ltac:(lia)) as Hr1.
  pose proof (Z.div_mod n2 (Zpos d2) ltac:(lia)) as Hdm2.
  pose proof (Z.mod_pos_bound n2 (Zpos d2) ltac:(lia)) as Hr2.
  set (q1 := (n1 / Zpos d1)%Z) in *. set (r1 := (n1 mod Zpos d1)%Z) in *.
  set (q2 := (n2 / Zpos d2)%Z) in *. set (r2 := (n2 mod Zpos d2)%Z) in *.
  assert (Hq : (q1 <= q2)%Z).
  { unfold q1, q2.
    rewrite <- (Z.div_mul_cancel_r n1 (Zpos d1) (Zpos d2)) by lia.
    rewrite <- (Z.div_mul_cancel_r n2 (Zpos d2) (Zpos d1)) by lia.
    rewrite (Z.mul_comm (Zpos d2) (Zpos d1)). apply Z.div_le_mono; lia. }
  destruct (Z.eq_dec q1 q2) as [E | N].
  - rewrite <- E in *. clear E.
    assert (Hrr : (r1 * Zpos d2 <= r2 * Zpos d1)%Z) by nia.
    destruct (2 * r1 ?= Zpos d1)%Z eqn:C1;
      [apply Z.compare_eq in C1 | rewrite Z.compare_lt_iff in C1
       | rewrite Z.compare_gt_iff in C1];
      (destruct (2 * r2 ?= Zpos d2)%Z eqn:C2;
       [apply Z.compare_eq in C2 | rewrite Z.compare_lt_iff in C2
        | rewrite Z.compare_gt_iff in C2]);
      try destruct (Z.even q1); try lia; exfalso; nia.
  - assert (Hlt : (q1 + 1 <= q2)%Z) by lia.
    destruct (2 * r1 ?= Zpos d1)%Z; destruct (2 * r2 ?= Zpos d2)%Z;
      try destruct (Z.even q1); try destruct (Z.even q2); lia.
Qed.

Lemma round_half_even_compat (x y : Q) :
  x == y -> round_half_even x = round_half_even y.
Proof.
  intro E.
  assert (H1 : x <= y) by (rewrite E; apply Qle_refl).
  assert (H2 : y <= x) by (rewrite E; apply Qle_refl).
  apply round_half_even_mono in H1. apply round_half_even_mono in H2. lia.
Qed.

Lemma round_half_even_inject_Z (z : Z) : round_half_even (inject_Z z) = z.
Proof.
  unfold round_half_even, inject_Z. cbn [Qnum Qden]. cbv zeta.
  rewrite Z.div_1_r, Z.mod_1_r. reflexivity.
Qed.

Lemma round_half_even_opp (x : Q) :
  round_half_even (- x) = (- round_half_even x)%Z.
Proof.
  destruct x as [n d]. unfold round_half_even, Qopp. cbn [Qnum Qden]. cbv zeta.
  pose proof (Z.div_mod n (Zpos d) ltac:(lia)) as Hdm1.
  pose proof (Z.mod_pos_bound n (Zpos d) ltac:(lia)) as Hr1.
  pose proof (Z.div_mod (- n) (Zpos d) ltac:(lia)) as Hdm2.
  pose proof (Z.mod_pos_bound (- n) (Zpos d) ltac:(lia)) as Hr2.
  set (q1 := (n / Zpos d)%Z) in *. set (r1 := (n mod Zpos d)%Z) in *.
  set (q2 := (- n / Zpos d)%Z) in *. set (r2 := (- n mod Zpos d)%Z) in *.
  assert (Hc : (q2 = - q1 /\ r1 = 0 /\ r2 = 0)%Z \/
               (q2 = - q1 - 1 /\ r2 = Zpos d - r1 /\ 0 < r1)%Z).
  { assert (Hs : (Zpos d * (q1 + q2) + (r1 + r2) = 0)%Z) by lia.
    assert (Hb : (-2 < q1 + q2 <= 0)%Z) by nia.
    assert (Hq : (q1 + q2 = 0 \/ q1 + q2 = -1)%Z) by lia.
    destruct Hq as [Hq | Hq]; rewrite Hq in Hs; [left | right]; lia. }
  destruct Hc as [(-> & -> & ->) | (-> & -> & Hpos)].
  - cbn. reflexivity.
  - assert (Hev : Z.even (- q1 - 1) = negb (Z.even q1)).
    { replace (- q1 - 1)%Z with (- (q1 + 1))%Z by lia.
      rewrite Z.even_opp, Z.add_1_r, Z.even_succ, <- Z.negb_even. reflexivity. }
    rewrite Hev.
    destruct (2 * r1 ?= Zpos d)%Z eqn:C1;
      [apply Z.compare_eq in C1 | rewrite Z.compare_lt_iff in C1
       | rewrite Z.compare_gt_iff in C1];
      (destruct (2 * (Zpos d - r1) ?= Zpos d)%Z eqn:C2;
       [apply Z.compare_eq in C2 | rewrite Z.compare_lt_iff in C2
        | rewrite Z.compare_gt_iff in C2]);
      try lia; destruct (Z.even q1); cbn [negb]; lia.
Qed.

(** ** Powers of two and the binade of a rational *)

Lemma two_neq_0 : ~ 2 == 0.
Proof. intro H. discriminate H. Qed.

Lemma pow2_pos (k : Z) : 0 < 2 ^ k.
Proof. apply Qpower_0_lt. reflexivity. Qed.

Lemma pow2_add (a b : Z) : 2 ^ (a + b) == 2 ^ a * 2 ^ b.
Proof. apply Qpower_plus, two_neq_0. Qed.

Lemma pow2_succ (k : Z) : 2 ^ (k + 1) == 2 * 2 ^ k.
Proof. rewrite pow2_add, Qpower_1_r. ring. Qed.

Lemma pow2_le (a b : Z) : (a <= b)%Z -> 2 ^ a <= 2 ^ b.
Proof. intro H. apply Qpower_le_compat_l; [exact H | discriminate]. Qed.

Lemma pow2_lt (a b : Z) : (a < b)%Z -> 2 ^ a < 2 ^ b.
Proof. intro H. apply Qpower_lt_compat_l; [exact H | reflexivity]. Qed.

Lemma pow2_inject (k : Z) : (0 <= k)%Z -> 2 ^ k == inject_Z (2 ^ k).
Proof. intro H. rewrite Zpower_Qpower by exact H. reflexivity. Qed.

Lemma ilog2_spec (x : Q) :
  ~ x == 0 -> 2 ^ ilog2 x <= Qabs x /\ Qabs x < 2 ^ (ilog2 x + 1).
Proof.
  intro Hx. unfold ilog2. cbv zeta.
  set (n := Z.abs (Qnum x)). set (d := Zpos (Qden x)).
  set (k := (Z.log2 n - Z.log2 d)%Z).
  assert (Hn : (0 < n)%Z).
  { unfold n. destruct x as [[|p|p] dd]; cbn; try lia.
    exfalso. apply Hx. reflexivity. }
  assert (Hd : (0 < d)%Z) by (unfold d; lia).
  destruct (Z.log2_spec n Hn) as [Hn1 Hn2].
  destruct (Z.log2_spec d Hd) as [Hd1 Hd2].
  rewrite Z.pow_succ_r in Hn2, Hd2 by apply Z.log2_nonneg.
  assert (Habs : Qabs x == inject_Z n / inject_Z d).
  { unfold n, d. destruct x as [xn xd]. cbn [Qabs Qnum Qden]. apply Qmake_Qdiv. }
  assert (Hk : 2 ^ k == inject_Z (2 ^ Z.log2 n) / inject_Z (2 ^ Z.log2 d)).
  { unfold k. rewrite Qpower_minus by exact two_neq_0.
    rewrite !pow2_inject by apply Z.log2_nonneg. reflexivity. }
  rewrite Zle_Qle in Hn1, Hd1. rewrite Zlt_Qlt in Hn2, Hd2, Hn, Hd.
  rewrite inject_Z_mult in Hn2, Hd2.
  change (inject_Z 2) with 2 in Hn2, Hd2. change (inject_Z 0) with 0 in Hn, Hd.
  set (A := inject_Z (2 ^ Z.log2 n)) in *. set (B := inject_Z (2 ^ Z.log2 d)) in *.
  set (N := inject_Z n) in *. set (D := inject_Z d) in *.
  assert (HB : 0 < B).
  { unfold B. change 0 with (inject_Z 0). rewrite <- Zlt_Qlt.
    apply Z.pow_pos_nonneg; [lia | apply Z.log2_nonneg]. }
  assert (HA : 0 < A).
  { unfold A. change 0 with (inject_Z 0). rewrite <- Zlt_Qlt.
    apply Z.pow_pos_nonneg; [lia | apply Z.log2_nonneg]. }
  assert (Hup : N / D < 2 * (A / B)).
  { apply Qlt_shift_div_r; [exact Hd|].
    apply Qlt_le_trans with (2 * (A / B) * B).
    - setoid_replace (2 * (A / B) * B) with (2 * A) by (field; lra). exact Hn2.
    - apply Qmult_le_l; [|exact Hd1].
      apply Qmult_lt_0_compat; [reflexivity|].
      apply Qlt_shift_div_l; [exact HB | lra]. }
  assert (Hlow : A / B / 2 <= N / D).
  { apply Qle_shift_div_l; [exact Hd|].
    apply Qle_trans with (A / B / 2 * (2 * B)).
    - apply Qmult_le_l; [|lra].
      apply Qlt_shift_div_l; [reflexivity|].
      apply Qlt_shift_div_l; [exact HB | lra].
    - setoid_replace (A / B / 2 * (2 * B)) with A by (field; lra). exact Hn1. }
  destruct (Qle_bool (2 ^ k) (Qabs x)) eqn:C.
  - apply Qle_bool_iff in C. split; [exact C|].
    rewrite pow2_succ, Hk, Habs. exact Hup.
  - apply Qle_bool_false in C. split.
    + replace k with (k - 1 + 1)%Z in Hk by lia. rewrite pow2_succ in Hk.
      rewrite Habs.
      setoid_replace (2 ^ (k - 1)) with (A / B / 2) by (rewrite <- Hk; field).
      exact Hlow.
    + replace (k - 1 + 1)%Z with k by lia. exact C.
Qed.

(** The binade is determined by the value. *)
Lemma ilog2_unique (x : Q) (k : Z) :
  2 ^ k <= Qabs x -> Qabs x < 2 ^ (k + 1) -> ilog2 x = k.
Proof.
  intros H1 H2.
  assert (Hx : ~ x == 0).
  { intro E. rewrite E in H1. pose proof (pow2_pos k) as P.
    change (Qabs 0) with 0 in H1. lra. }
  destruct (ilog2_spec x Hx) as [S1 S2].
  assert (L1 : 2 ^ k < 2 ^ (ilog2 x + 1)) by lra.
  assert (L2 : 2 ^ ilog2 x < 2 ^ (k + 1)) by lra.
  apply Qpower_lt_compat_l_inv in L1; [|reflexivity].
  apply Qpower_lt_compat_l_inv in L2; [|reflexivity].
  lia.
Qed.

Lemma ilog2_compat (x y : Q) : ~ x == 0 -> x == y -> ilog2 x = ilog2 y.
Proof.
  intros Hx E. destruct (ilog2_spec x Hx) as [S1 S2].
  symmetry. apply ilog2_unique; rewrite <- E; assumption.
Qed.

Lemma ilog2_opp (x : Q) : ~ x == 0 -> ilog2 (- x) = ilog2 x.
Proof.
  intro Hx. destruct (ilog2_spec x Hx) as [S1 S2].
  apply ilog2_unique; rewrite Qabs_opp; assumption.
Qed.

Lemma ilog2_mono (x y : Q) :
  ~ x == 0 -> Qabs x <= Qabs y -> (ilog2 x <= ilog2 y)%Z.
Proof.
  intros Hx H.
  assert (Hy : ~ y == 0).
  { intro E. rewrite E in H. change (Qabs 0) with 0 in H.
    apply Hx. apply Qabs_Qle_condition in H. lra. }
  destruct (ilog2_spec x Hx) as [S1 _]. destruct (ilog2_spec y Hy) as [_ T2].
  assert (L : 2 ^ ilog2 x < 2 ^ (ilog2 y + 1)) by lra.
  apply Qpower_lt_compat_l_inv in L; [lia | reflexivity].
Qed.

(** ** Rounding to binary64 *)

Lemma fexp_min (x : Q) : (-1074 <= fexp x)%Z.
Proof. unfold fexp. lia. Qed.

Lemma fl_zero (x : Q) : x == 0 -> fl x == 0.
Proof.
  intro E. unfold fl.
  assert (H : x / 2 ^ fexp x == 0)
    by (generalize (2 ^ fexp x); intro p; rewrite E; unfold Qdiv; ring).
  rewrite (round_half_even_compat _ _ H). change (round_half_even 0) with 0%Z.
  change (inject_Z 0) with 0. ring.
Qed.

Lemma fexp_compat (x y : Q) : ~ x == 0 -> x == y -> fexp x = fexp y.
Proof. intros Hx E. unfold fexp. rewrite (ilog2_compat x y Hx E). reflexivity. Qed.

Lemma fl_compat (x y : Q) : x == y -> fl x == fl y.
Proof.
  intro E. destruct (Qeq_dec x 0) as [Z | N].
  - rewrite (fl_zero x Z), (fl_zero y) by (rewrite <- E; exact Z). reflexivity.
  - unfold fl. rewrite <- (fexp_compat x y N E).
    assert (H : x / 2 ^ fexp x == y / 2 ^ fexp x)
      by (generalize (2 ^ fexp x); intro p; rewrite E; reflexivity).
    rewrite (round_half_even_compat _ _ H). reflexivity.
Qed.

#[export] Instance fl_proper : Proper (Qeq ==> Qeq) fl.
Proof. intros x y E. apply fl_compat, E. Qed.

Lemma fl_opp (x : Q) : fl (- x) == - fl x.
Proof.
  destruct (Qeq_dec x 0) as [Z | N].
  - rewrite (fl_zero x Z), (fl_zero (- x)) by (rewrite Z; reflexivity). reflexivity.
  - unfold fl.
    assert (E : fexp (- x) = fexp x) by (unfold fexp; rewrite ilog2_opp by exact N; reflexivity).
    rewrite E.
    assert (H : - x / 2 ^ fexp x == - (x / 2 ^ fexp x))
      by (field; apply Qpower_not_0, two_neq_0).
    rewrite (round_half_even_compat _ _ H), round_half_even_opp, inject_Z_opp.
    ring.
Qed.

(** The rounding error is at most half a unit in the last place. *)
Lemma fl_err_ulp (x : Q) : Qabs (fl x - x) <= 2 ^ fexp x / 2.
Proof.
  unfold fl. set (e := fexp x). pose proof (pow2_pos e) as P.
  set (y := x / 2 ^ e).
  assert (E : inject_Z (round_half_even y) * 2 ^ e - x
              == (inject_Z (round_half_even y) - y) * 2 ^ e).
  { unfold y. field. lra. }
  rewrite E, Qabs_Qmult, (Qabs_pos (2 ^ e)) by lra.
  pose proof (round_half_even_err y) as H.
  apply Qle_trans with ((1 # 2) * 2 ^ e).
  - apply Qmult_le_compat_r; [exact H | lra].
  - setoid_replace (2 ^ e / 2) with ((1 # 2) * 2 ^ e) by field. apply Qle_refl.
Qed.

(** The standard model of floating-point arithmetic, with gradual
    underflow: a relative error of at most [2 ^ -53], or an absolute error
    of at most [2 ^ -1075]. *)
Lemma fl_err (x : Q) :
  Qabs (fl x - x) <= unit_roundoff * Qabs x + half_min.
Proof.
  unfold unit_roundoff, half_min.
  pose proof (Qabs_nonneg x) as Hx0. pose proof (pow2_pos (-1075)) as P1.
  pose proof (pow2_pos (-53)) as P2.
  destruct (Qeq_dec x 0) as [Z | N].
  - rewrite (fl_zero x Z), Z. change (Qabs (0 - 0)) with 0.
    change (Qabs 0) with 0. lra.
  - pose proof (fl_err_ulp x) as H. destruct (ilog2_spec x N) as [S1 _].
    unfold fexp in H.
    destruct (Z.max_spec (ilog2 x - 52) (-1074)) as [[_ ->] | [_ ->]] in H.
    + setoid_replace (2 ^ (-1074) / 2) with (2 ^ (-1075)) in H
        by (change (-1074)%Z with (-1075 + 1)%Z; rewrite pow2_succ; field).
      assert (0 <= 2 ^ (-53) * Qabs x) by (apply Qmult_le_0_compat; lra).
      lra.
    + assert (E : 2 ^ (ilog2 x - 52) / 2 == 2 ^ (-53) * 2 ^ ilog2 x).
      { replace (ilog2 x - 52)%Z with (-53 + ilog2 x + 1)%Z by lia.
        rewrite pow2_succ, pow2_add. field. }
      rewrite E in H.
      assert (2 ^ (-53) * 2 ^ ilog2 x <= 2 ^ (-53) * Qabs x)
        by (apply Qmult_le_l; [exact P2 | exact S1]).
      lra.
Qed.

Lemma fl_nonneg (x : Q) : 0 <= x -> 0 <= fl x.
Proof.
  intro H. unfold fl. pose proof (pow2_pos (fexp x)) as P.
  apply Qmult_le_0_compat; [|lra].
  change 0 with (inject_Z 0). rewrite <- Zle_Qle.
  rewrite <- (round_half_even_inject_Z 0). apply round_half_even_mono.
  change (inject_Z 0) with 0. apply Qle_shift_div_l; [exact P | lra].
Qed.

Lemma fl_nonpos (x : Q) : x <= 0 -> fl x <= 0.
Proof.
  intro H. assert (H' : 0 <= - x) by lra. apply fl_nonneg in H'.
  rewrite fl_opp in H'. lra.
Qed.

(** A power of two is a float. *)
Lemma fl_pow2 (k : Z) : (-1074 <= k)%Z -> fl (2 ^ k) == 2 ^ k.
Proof.
  intro Hk. pose proof (pow2_pos k) as P.
  assert (Hl : ilog2 (2 ^ k) = k).
  { apply ilog2_unique; rewrite Qabs_pos by lra; [apply Qle_refl | apply pow2_lt; lia]. }
  unfold fl, fexp. rewrite Hl.
  set (e := Z.max (k - 52) (-1074)).
  assert (He : (e <= k)%Z) by (unfold e; lia).
  assert (E : 2 ^ k / 2 ^ e == inject_Z (2 ^ (k - e))).
  { rewrite <- pow2_inject by lia. rewrite Qpower_minus by exact two_neq_0.
    reflexivity. }
  rewrite (round_half_even_compat _ _ E), round_half_even_inject_Z.
  rewrite <- pow2_inject by lia. rewrite <- pow2_add. replace (k - e + e)%Z with k by lia.
  reflexivity.
Qed.

(** Below a power of two the rounded value stays below it, and above it
    stays above. *)
Lemma fl_le_pow2 (x : Q) (k : Z) :
  (-1074 <= k)%Z -> 0 < x -> x <= 2 ^ k -> fl x <= 2 ^ k.
Proof.
  intros Hk Hx H.
  assert (N : ~ x == 0) by lra.
  assert (Hl : (ilog2 x <= k)%Z).
  { destruct (ilog2_spec x N) as [S1 _]. rewrite Qabs_pos in S1 by lra.
    assert (L : 2 ^ ilog2 x < 2 ^ (k + 1))
      by (apply Qle_lt_trans with (2 ^ k); [lra | apply pow2_lt; lia]).
    apply Qpower_lt_compat_l_inv in L; [lia | reflexivity]. }
  unfold fl. set (e := fexp x).
  assert (He : (e <= k)%Z) by (unfold e, fexp; lia).
  pose proof (pow2_pos e) as P.
  assert (E : x / 2 ^ e <= inject_Z (2 ^ (k - e))).
  { rewrite <- pow2_inject by lia. rewrite Qpower_minus by exact two_neq_0.
    apply Qmult_le_compat_r; [exact H|]. apply Qinv_le_0_compat. lra. }
  apply round_half_even_mono in E. rewrite round_half_even_inject_Z in E.
  rewrite Zle_Qle in E. rewrite <- pow2_inject in E by lia.
  apply Qle_trans with (2 ^ (k - e) * 2 ^ e).
  - apply Qmult_le_compat_r; [exact E | lra].
  - rewrite <- pow2_add. replace (k - e + e)%Z with k by lia. apply Qle_refl.
Qed.

Lemma fl_ge_pow2 (x : Q) (k : Z) :
  (fexp x <= k)%Z -> 2 ^ k <= x -> 2 ^ k <= fl x.
Proof.
  intros He H. unfold fl. set (e := fexp x) in *.
  pose proof (pow2_pos e) as P.
  assert (E : inject_Z (2 ^ (k - e)) <= x / 2 ^ e).
  { rewrite <- pow2_inject by lia. rewrite Qpower_minus by exact two_neq_0.
    apply Qmult_le_compat_r; [exact H|]. apply Qinv_le_0_compat. lra. }
  apply round_half_even_mono in E. rewrite round_half_even_inject_Z in E.
  rewrite Zle_Qle in E. rewrite <- pow2_inject in E by lia.
  apply Qle_trans with (2 ^ (k - e) * 2 ^ e).
  - rewrite <- pow2_add. replace (k - e + e)%Z with k by lia. apply Qle_refl.
  - apply Qmult_le_compat_r; [exact E | lra].
Qed.

Lemma fl_mono_pos (x y : Q) : 0 < x -> x <= y -> fl x <= fl y.
Proof.
  intros Hx H.
  assert (Nx : ~ x == 0) by lra. assert (Ny : ~ y == 0) by lra.
  assert (Hk : (ilog2 x <= ilog2 y)%Z)
    by (apply ilog2_mono; [exact Nx | rewrite !Qabs_pos by lra; exact H]).
  destruct (Z.eq_dec (fexp x) (fexp y)) as [E | NE].
  - unfold fl. rewrite E. pose proof (pow2_pos (fexp y)) as P.
    apply Qmult_le_compat_r; [|lra].
    rewrite <- Zle_Qle. apply round_half_even_mono.
    apply Qmult_le_compat_r; [exact H|]. apply Qinv_le_0_compat. lra.
  - assert (Hlt : (fexp x < fexp y)%Z) by (unfold fexp in *; lia).
    assert (Hy : fexp y = (ilog2 y - 52)%Z) by (unfold fexp in *; lia).
    assert (Hkk : (ilog2 x + 1 <= ilog2 y)%Z) by (unfold fexp in *; lia).
    destruct (ilog2_spec x Nx) as [_ S2]. destruct (ilog2_spec y Ny) as [T1 _].
    rewrite Qabs_pos in S2, T1 by lra.
    apply Qle_trans with (2 ^ ilog2 y).
    + apply fl_le_pow2; [unfold fexp in *; lia | exact Hx|].
      apply Qle_trans with (2 ^ (ilog2 x + 1)); [lra | apply pow2_le; exact Hkk].
    + apply fl_ge_pow2; [lia | exact T1].
Qed.

(** Rounding is monotone. *)
Lemma fl_mono (x y : Q) : x <= y -> fl x <= fl y.
Proof.
  intro H. destruct (Qlt_le_dec 0 x) as [Hx | Hx].
  - apply fl_mono_pos; assumption.
  - destruct (Qlt_le_dec y 0) as [Hy | Hy].
    + assert (L : fl (- y) <= fl (- x)) by (apply fl_mono_pos; lra).
      rewrite !fl_opp in L. lra.
    + pose proof (fl_nonpos x Hx). pose proof (fl_nonneg y Hy). lra.
Qed.

(** A positive result is at least the smallest positive float. *)
Lemma fl_pos_min (x : Q) : 0 < fl x -> min_float <= fl x.
Proof.
  unfold fl, min_float. set (e := fexp x). pose proof (pow2_pos e) as P. intro H.
  assert (Hz : (1 <= round_half_even (x / 2 ^ e))%Z).
  { destruct (Z_lt_le_dec (round_half_even (x / 2 ^ e)) 1) as [L | L]; [|exact L].
    exfalso. assert (L' : (round_half_even (x / 2 ^ e) <= 0)%Z) by lia.
    rewrite Zle_Qle in L'. change (inject_Z 0) with 0 in L'.
    assert (inject_Z (round_half_even (x / 2 ^ e)) * 2 ^ e <= 0 * 2 ^ e)
      by (apply Qmult_le_compat_r; lra).
    lra. }
  rewrite Zle_Qle in Hz. change (inject_Z 1) with 1 in Hz.
  apply Qle_trans with (1 * 2 ^ e).
  - rewrite Qmult_1_l. apply pow2_le. apply fexp_min.
  - apply Qmult_le_compat_r; lra.
Qed.

Lemma fl_pos (x : Q) : min_float <= x -> 0 < fl x.
Proof.
  intro H. apply fl_mono in H. unfold min_float in H.
  rewrite fl_pow2 in H by lia. pose proof (pow2_pos (-1074)). lra.
Qed.

(** ** Error bounds in linear form *)

Lemma unit_roundoff_eq : unit_roundoff == 1 # 9007199254740992.
Proof. reflexivity. Qed.

Lemma half_min_pos : 0 < half_min.
Proof. apply pow2_pos. Qed.

Lemma half_min_small : half_min <= 1 # 9007199254740992.
Proof. unfold half_min. apply (pow2_le (-1075) (-53)). lia. Qed.

(** A value of magnitude at most [B] moves by at most [2 ^ -53 * B] plus
    half the smallest float. *)
Lemma fl_bound (x B : Q) :
  Qabs x <= B ->
  x - ((1 # 9007199254740992) * B + half_min) <= fl x /\
  fl x <= x + ((1 # 9007199254740992) * B + half_min).
Proof.
  intro H. pose proof (fl_err x) as E. rewrite unit_roundoff_eq in E.
  assert (L : (1 # 9007199254740992) * Qabs x <= (1 # 9007199254740992) * B)
    by (apply Qmult_le_l; [reflexivity | exact H]).
  apply Qabs_diff_Qle_condition in E. lra.
Qed.

Lemma Qabs_mult_le (x y bx c : Q) :
  Qabs x <= bx -> Qabs y <= c -> Qabs (x * y) <= bx * c.
Proof.
  intros Hx Hy. rewrite Qabs_Qmult.
  apply Qmult_le_compat_nonneg; split;
    [apply Qabs_nonneg | exact Hx | apply Qabs_nonneg | exact Hy].
Qed.

(** ** Float division and the conversion of ints *)

Lemma fl_one : fl 1 == 1.
Proof. vm_compute. reflexivity. Qed.

Lemma fl_inject_Z_zero_iff (n : Z) : fl (inject_Z n) == 0 <-> n = 0%Z.
Proof.
  split.
  - intro E. destruct (Z.eq_dec n 0) as [|Hn]; [assumption|exfalso].
    destruct (Z_lt_le_dec n 0) as [Hlt|Hge].
    + assert (H : inject_Z n <= - (1)).
      { change (- (1)) with (inject_Z (-1)). rewrite <- Zle_Qle. lia. }
      apply fl_mono in H. rewrite fl_opp, fl_one in H. lra.
    + assert (H : 1 <= inject_Z n).
      { change 1 with (inject_Z 1). rewrite <- Zle_Qle. lia. }
      apply fl_mono in H. rewrite fl_one in H. lra.
  - intros ->. vm_compute. reflexivity.
Qed.

Lemma of_int_cases (n : Z) :
  (overflows (inject_Z n) = true /\ of_int n = Raise OverflowError) \/
  (overflows (inject_Z n) = false /\ of_int n = Ok (fl (inject_Z n))).
Proof.
  unfold of_int. destruct (overflows (inject_Z n)); [left | right]; split; reflexivity.
Qed.

Lemma of_int_zero : of_int 0 = Ok (fl (inject_Z 0)).
Proof. vm_compute. reflexivity. Qed.

Lemma of_int_ok_zero_iff (n : Z) (v : Q) : of_int n = Ok v -> (v == 0 <-> n = 0%Z).
Proof.
  intro H. destruct (of_int_cases n) as [[_ E] | [_ E]]; rewrite E in H;
    [discriminate|].
  injection H as <-. apply fl_inject_Z_zero_iff.
Qed.

Lemma of_int_not_zero_division (n : Z) : of_int n <> Raise ZeroDivisionError.
Proof.
  destruct (of_int_cases n) as [[_ E] | [_ E]]; rewrite E; discriminate.
Qed.

Lemma fl_abs_le_pow2 (x : Q) (k : Z) :
  (-1074 <= k)%Z -> Qabs x <= 2 ^ k -> Qabs (fl x) <= 2 ^ k.
Proof.
  intros Hk H. apply Qabs_Qle_condition in H. destruct H as [L U].
  apply fl_mono in L. apply fl_mono in U.
  rewrite fl_opp in L. rewrite fl_pow2 in L, U by exact Hk.
  apply Qabs_Qle_condition. split; assumption.
Qed.

(** An int of magnitude at most [2 ^ 1023] converts. *)
Lemma of_int_in_range (n : Z) :
  (Z.abs n <= 2 ^ 1023)%Z -> of_int n = Ok (fl (inject_Z n)).
Proof.
  intro H. destruct (of_int_cases n) as [[O _] | [_ E]]; [exfalso | exact E].
  unfold overflows in O. apply Qle_bool_iff in O.
  assert (Hq : Qabs (inject_Z n) <= 2 ^ 1023).
  { rewrite (pow2_inject 1023) by lia.
    change (Qabs (inject_Z n)) with (inject_Z (Z.abs n)).
    rewrite <- Zle_Qle. exact H. }
  apply fl_abs_le_pow2 in Hq; [|lia].
  assert (L : 2 ^ 1023 < 2 ^ 1024) by (apply pow2_lt; lia).
  lra.
Qed.

Lemma fdiv_ok (x y : Q) : ~ y == 0 -> fdiv x y = Ok (fl (x / y)).
Proof.
  intro H. unfold fdiv. destruct (Qeq_bool y 0) eqn:E; [|reflexivity].
  apply Qeq_bool_eq in E. contradiction.
Qed.

Lemma fdiv_raise (x y : Q) : y == 0 -> fdiv x y = Raise ZeroDivisionError.
Proof.
  intro H. unfold fdiv. apply Qeq_bool_iff in H. rewrite H. reflexivity.
Qed.

Lemma fdiv_raise_iff (x y : Q) (e : exn) :
  fdiv x y = Raise e <-> y == 0 /\ e = ZeroDivisionError.
Proof.
  unfold fdiv. destruct (Qeq_bool y 0) eqn:E.
  - apply Qeq_bool_eq in E. split.
    + intro H. injection H as <-. split; [exact E | reflexivity].
    + intros [_ ->]. reflexivity.
  - apply Qeq_bool_false in E. split; [discriminate | intros [H _]; contradiction].
Qed.

(** ** Allocator in binary64 *)

(** One rounded product [total_amount * (pct / 100)]: its distance from the
    exact share, and its size. *)
Lemma share_bound (total_amount pct : Q) :
  0 <= pct -> pct <= 100 + (1 # 100) ->
  let a := Qabs total_amount in
  let x := fmul total_amount (fl (pct / 100)) in
  Qabs (x - total_amount * (pct / 100)) <= (9 # 20000000000000000) * a + half_min /\
  Qabs x <= (10003 # 10000) * a + half_min.
Proof.
  intros H0 H1. cbv zeta. unfold fmul.
  pose proof half_min_pos as Hh. pose proof half_min_small as Hs.
  pose proof (Qabs_nonneg total_amount) as Ha.
  set (a := Qabs total_amount) in *.
  (* the rounded fraction *)
  assert (Hq : Qabs (pct / 100) <= 10001 # 10000).
  { apply Qabs_Qle_condition. split.
    - apply Qle_trans with 0; [discriminate|]. apply Qle_shift_div_l; [reflexivity | lra].
    - apply Qle_shift_div_r; [reflexivity | lra]. }
  destruct (fl_bound (pct / 100) _ Hq) as [Q1 Q2].
  set (q := fl (pct / 100)) in *.
  assert (Hd : Qabs (q - pct / 100) <= 3 # 9007199254740992)
    by (apply Qabs_Qle_condition; split; lra).
  assert (Hqq : Qabs q <= 10002 # 10000).
  { apply Qabs_Qle_condition in Hq. apply Qabs_Qle_condition. split; lra. }
  (* the exact product *)
  assert (Hx : Qabs (total_amount * q) <= a * (10002 # 10000))
    by (apply Qabs_mult_le; [apply Qle_refl | exact Hqq]).
  assert (He : Qabs (total_amount * (q - pct / 100)) <= a * (3 # 9007199254740992))
    by (apply Qabs_mult_le; [apply Qle_refl | exact Hd]).
  setoid_replace (total_amount * (q - pct / 100))
    with (total_amount * q - total_amount * (pct / 100)) in He by ring.
  destruct (fl_bound (total_amount * q) _ Hx) as [P1 P2].
  apply Qabs_Qle_condition in Hx. apply Qabs_Qle_condition in He.
  split; apply Qabs_Qle_condition; split; lra.
Qed.

(** The rounded amounts need not sum to the income even for percentages
    that sum to exactly 100: for 1234.56 split 35/25/25/15 the float sum is
    one unit in the last place below the income, 1234.5599999999997. *)
Lemma allocate_budget_rounded_sum :
  B.alloc_total (B.allocate_budget (fl 1234.56) 35 25 25 (Some 15))
  == fl 1234.56 - 2 ^ (-42).
Proof. vm_compute. reflexivity. Qed.

(** C4, as stated, fails: the percentages 20, 20, 45 and 15.005 are not
    negative and sum to 100 within 0.01, and for an income of 100000 the four
    amounts sum to 100005, which is not within 1e-6 of the income. *)
Lemma allocate_budget_sum_off_by_tolerance :
  let income := 100000 in
  let misc_pct := fl 15.005 in
  0 <= misc_pct /\
  Qabs (20 + 20 + 45 + misc_pct - 100) <= 1 # 100 /\
  Qabs (fadd (fadd (fadd 20 20) 45) misc_pct - 100) <= 1 # 100 /\
  let a := B.allocate_budget income 20 20 45 (Some misc_pct) in
  B.alloc_total a == 100005 /\
  ~ Qabs (B.alloc_total a - income) <= 1 # 1000000 /\
  ~ Qabs (savings a + investments a + personal a + misc a - income) <= 1 # 1000000.
Proof.
  cbv zeta. split; [vm_compute; discriminate|].
  split; [vm_compute; discriminate|]. split; [vm_compute; discriminate|].
  split; [vm_compute; reflexivity|].
  split; vm_compute; intro H; apply H; reflexivity.
Qed.

(** C4, amended: for an income of magnitude at most [2 ^ 1000] and four
    percentages that are not negative and sum to 100 within [d], where [d]
    is at most 0.01, the four amounts sum to the income within the
    magnitude of the income times [d/100 + 2 ^ -48], plus [2 ^ -1070]:
    both their exact sum and their sum added from the left in binary64.
    For percentages that sum to exactly 100 ([d = 0]) this is within 1e-6
    for every income up to 2.8e8. *)
Theorem allocate_budget_sum_within_tolerance (income s i p m d : Q) :
  Qabs income <= 2 ^ 1000 ->
  0 <= s -> 0 <= i -> 0 <= p -> 0 <= m ->
  Qabs (s + i + p + m - 100) <= d -> d <= 1 # 100 ->
  let a := B.allocate_budget income s i p (Some m) in
  Qabs (savings a + investments a + personal a + misc a - income)
  <= Qabs income * (d / 100 + 2 ^ (-48)) + 2 ^ (-1070) /\
  Qabs (B.alloc_total a - income)
  <= Qabs income * (d / 100 + 2 ^ (-48)) + 2 ^ (-1070).
Proof.
  intros _ Hs Hi Hp Hm Hsum Hd. cbv zeta.
  assert (Hd0 : 0 <= d) by (pose proof (Qabs_nonneg (s + i + p + m - 100)); lra).
  unfold B.alloc_total, B.allocate_budget, fsum.
  cbn [savings investments personal misc fold_left]. unfold fadd.
  pose proof half_min_pos as Hh. pose proof half_min_small as Hsm.
  pose proof (Qabs_nonneg income) as Ha.
  assert (Hsum' := Hsum). apply Qabs_Qle_condition in Hsum'.
  destruct (share_bound income s Hs ltac:(lra)) as [S1 S2].
  destruct (share_bound income i Hi ltac:(lra)) as [I1 I2].
  destruct (share_bound income p Hp ltac:(lra)) as [P1 P2].
  destruct (share_bound income m Hm ltac:(lra)) as [M1 M2].
  cbv zeta in *.
  (* the exact shares sum to the income times the sum of the percentages *)
  assert (Hw : Qabs (income * ((s + i + p + m - 100) / 100))
               <= Qabs income * (d / 100)).
  { apply Qabs_mult_le; [apply Qle_refl|].
    apply Qabs_Qle_condition. split.
    - apply Qle_shift_div_l; [reflexivity|].
      setoid_replace (- (d / 100) * 100) with (- d) by field. lra.
    - apply Qle_shift_div_r; [reflexivity|].
      setoid_replace (d / 100 * 100) with d by field. lra. }
  setoid_replace (income * ((s + i + p + m - 100) / 100))
    with (income * (s / 100) + income * (i / 100) + income * (p / 100)
          + income * (m / 100) - income) in Hw by field.
  assert (Hwd : Qabs income * (d / 100) <= Qabs income * (1 # 10000)).
  { apply Qmult_le_compat_nonneg; [split; [exact Ha | apply Qle_refl]|].
    split; [apply Qle_shift_div_l; [reflexivity | lra]
           | apply Qle_shift_div_r; [reflexivity | lra]]. }
  assert (E0 : Qabs income * (d / 100 + 2 ^ (-48)) + 2 ^ (-1070)
               == Qabs income * (d / 100) + Qabs income * (1 # 281474976710656)
                  + 32 * half_min).
  { assert (E1 : 2 ^ (-48) == 1 # 281474976710656) by reflexivity.
    assert (E2 : 2 ^ (-1070) == 32 * half_min) by reflexivity.
    rewrite E1, E2. ring. }
  rewrite E0. clear E0.
  set (a := Qabs income) in *.
  set (w := a * (d / 100)) in *. clearbody w.
  set (xs := fmul income (fl (s / 100))) in *.
  set (xi := fmul income (fl (i / 100))) in *.
  set (xp := fmul income (fl (p / 100))) in *.
  set (xm := fmul income (fl (m / 100))) in *.
  apply Qabs_Qle_condition in S1, S2, I1, I2, P1, P2, M1, M2, Hw.
  split; [apply Qabs_Qle_condition; split; lra|].
  (* the three additions, and the one to the initial 0 *)
  assert (B1 : Qabs (0 + xs) <= 2 * a + 2 * half_min)
    by (apply Qabs_Qle_condition; split; lra).
  destruct (fl_bound _ _ B1) as [A1 A1'].
  assert (B2 : Qabs (fl (0 + xs) + xi) <= 3 * a + 5 * half_min)
    by (apply Qabs_Qle_condition; split; lra).
  destruct (fl_bound _ _ B2) as [A2 A2'].
  assert (B3 : Qabs (fl (fl (0 + xs) + xi) + xp) <= 4 * a + 9 * half_min)
    by (apply Qabs_Qle_condition; split; lra).
  destruct (fl_bound _ _ B3) as [A3 A3'].
  assert (B4 : Qabs (fl (fl (fl (0 + xs) + xi) + xp) + xm) <= 5 * a + 14 * half_min)
    by (apply Qabs_Qle_condition; split; lra).
  destruct (fl_bound _ _ B4) as [A4 A4'].
  apply Qabs_Qle_condition. split; lra.
Qed.

Lemma allocate_budget_sum_within_tolerance_witness :
  let a := B.allocate_budget 100000 20 20 45 (Some (fl 15.005)) in
  Qabs 100000 <= 2 ^ 1000 /\
  0 <= 20 /\ 0 <= 20 /\ 0 <= 45 /\ 0 <= fl 15.005 /\
  Qabs (20 + 20 + 45 + fl 15.005 - 100) <= 1 # 100 /\
  Qabs (savings a + investments a + personal a + misc a - 100000)
  <= Qabs 100000 * ((1 # 100) / 100 + 2 ^ (-48)) + 2 ^ (-1070) /\
  Qabs (B.alloc_total a - 100000)
  <= Qabs 100000 * ((1 # 100) / 100 + 2 ^ (-48)) + 2 ^ (-1070).
Proof.
  cbv zeta.
  split; [vm_compute; discriminate|]. split; [discriminate|].
  split; [discriminate|]. split; [discriminate|].
  split; [vm_compute; discriminate|]. split; [vm_compute; discriminate|].
  apply (allocate_budget_sum_within_tolerance 100000 20 20 45 (fl 15.005) (1 # 100));
    vm_compute; discriminate.
Defined.

(** ** Reallocation planner in binary64 *)

Lemma fl_005 : fl 0.05 = 7205759403792794 # 144115188075855872.
Proof. vm_compute. reflexivity. Qed.

(** Bound every rounded value in sight by [B], innermost first, and record
    how far the rounding can have moved it. *)
Ltac bound_rounding B :=
  repeat match goal with
         | |- context [fl ?x] =>
             lazymatch goal with
             | _ : Qabs x <= _ |- _ => fail
             | _ => idtac
             end;
             let H := fresh "Hb" in
             assert (H : Qabs x <= B)
               by (apply Qabs_Qle_condition; split; lra);
             let L := fresh "Hl" in
             let U := fresh "Hu" in
             destruct (fl_bound x _ H) as [L U]
         | _ : context [fl ?x] |- _ =>
             lazymatch goal with
             | _ : Qabs x <= _ |- _ => fail
             | _ => idtac
             end;
             let H := fresh "Hb" in
             assert (H : Qabs x <= B)
               by (apply Qabs_Qle_condition; split; lra);
             let L := fresh "Hl" in
             let U := fresh "Hu" in
             destruct (fl_bound x _ H) as [L U]
         end.

Ltac split_branch :=
  match goal with
  | |- context [pymax ?a ?b] =>
      let C := fresh "C" in
      let E := fresh "E" in
      destruct (pymax_cases a b) as [[C E] | [C E]]; rewrite E in *; clear E
  | |- context [pymin ?a ?b] =>
      let C := fresh "C" in
      let E := fresh "E" in
      destruct (pymin_cases a b) as [[C E] | [C E]]; rewrite E in *; clear E
  | |- context [if Qle_bool ?a ?b then _ else _] =>
      let C := fresh "C" in
      destruct (Qle_bool a b) eqn:C;
      [apply Qle_bool_iff in C | apply Qle_bool_false in C]
  | |- context [if Qltb ?a ?b then _ else _] =>
      let C := fresh "C" in
      destruct (Qltb a b) eqn:C;
      [apply Qltb_true in C | apply Qltb_false in C]
  | |- context [if Qltb ?a ?b && Qltb ?c ?d then _ else _] =>
      let C := fresh "C" in
      let D := fresh "D" in
      destruct (Qltb a b) eqn:C;
      [apply Qltb_true in C | apply Qltb_false in C];
      (destruct (Qltb c d) eqn:D;
       [apply Qltb_true in D | apply Qltb_false in D]);
      cbn [andb]
  end.

(** The loop in binary64: what leaves misc and personal leaves the
    remaining shortfall, up to four roundings. *)
Lemma reduce_loop_drift (allocation : Allocation) (total_income T M : Q) :
  Qabs (personal allocation) <= M -> Qabs (misc allocation) <= M ->
  Qabs total_income <= M -> 0 <= T -> T <= 3 * M + 2 * half_min ->
  let st := B.reduce_loop allocation total_income reduction_priority
              (allocation, T) in
  savings (fst st) = savings allocation /\
  investments (fst st) = investments allocation /\
  Qabs (misc (fst st) + personal (fst st) - snd st
        - (misc allocation + personal allocation - T))
    <= (16 # 9007199254740992) * M + 8 * half_min /\
  - ((8 # 9007199254740992) * M + 4 * half_min) <= snd st /\
  snd st <= T + ((8 # 9007199254740992) * M + 4 * half_min) /\
  Qabs (misc (fst st)) <= 3 * M + 4 * half_min /\
  Qabs (personal (fst st)) <= 3 * M + 4 * half_min.
Proof.
  intros Hper Hmis Hinc HT0 HT1.
  destruct allocation as [sav inv per mis]. cbn [savings investments personal misc] in *.
  apply Qabs_Qle_condition in Hper, Hmis, Hinc.
  pose proof half_min_pos as Hh. pose proof half_min_small as Hsm.
  unfold reduction_priority.
  cbn [B.reduce_loop alloc_get alloc_set savings investments personal misc].
  cbv zeta. unfold fsub, fmul. rewrite fl_005.
  repeat (split_branch;
          cbn [alloc_get alloc_set savings investments personal misc fst snd]);
    (split; [reflexivity|]); (split; [reflexivity|]);
    bound_rounding (4 * M + 4 * half_min);
    repeat split; try (apply Qabs_Qle_condition; split); lra.
Qed.

(** What the plan does to the exact sum of the four amounts. *)
Lemma plan_total_drift (allocation : Allocation)
    (savings_shortfall investment_shortfall total_income M : Q) (plan : Allocation) :
  0 <= savings_shortfall -> savings_shortfall <= M ->
  0 <= investment_shortfall -> investment_shortfall <= M ->
  Qabs (savings allocation) <= M -> Qabs (investments allocation) <= M ->
  Qabs (personal allocation) <= M -> Qabs (misc allocation) <= M ->
  Qabs total_income <= M ->
  B.create_unified_reallocation_plan allocation savings_shortfall
    investment_shortfall total_income = Some plan ->
  Qabs (alloc_total plan - alloc_total allocation)
    <= (1 # 140737488355328) * M + 64 * half_min /\
  Qabs (savings plan) <= 4 * M + 16 * half_min /\
  Qabs (investments plan) <= 4 * M + 16 * half_min /\
  Qabs (personal plan) <= 4 * M + 16 * half_min /\
  Qabs (misc plan) <= 4 * M + 16 * half_min.
Proof.
  intros Hs0 Hs1 Hi0 Hi1 Hsav Hinv Hper Hmis Hinc.
  unfold alloc_total, pysum. cbn [fold_left].
  pose proof half_min_pos as Hh. pose proof half_min_small as Hsm.
  unfold B.create_unified_reallocation_plan. cbv zeta. unfold fadd.
  assert (HM : 0 <= M) by (pose proof (Qabs_nonneg total_income); lra).
  assert (HbT : Qabs (savings_shortfall + investment_shortfall)
                <= 4 * M + 4 * half_min)
    by (apply Qabs_Qle_condition; split; lra).
  destruct (fl_bound _ _ HbT) as [HT1 HT2].
  assert (HT0 : 0 <= fl (savings_shortfall + investment_shortfall))
    by (apply fl_nonneg; lra).
  set (T := fl (savings_shortfall + investment_shortfall)) in *. clearbody T.
  pose proof (reduce_loop_drift allocation total_income T M Hper Hmis Hinc HT0
                ltac:(lra)) as L.
  cbv zeta in L.
  destruct (B.reduce_loop allocation total_income reduction_priority (allocation, T))
    as [new_allocation remaining].
  cbn [fst snd] in L. destruct L as (L1 & L2 & L3 & L4 & L5 & L6 & L7).
  destruct new_allocation as [sav' inv' per' mis'].
  destruct allocation as [sav inv per mis].
  cbn [savings investments personal misc] in *. subst sav' inv'.
  apply Qabs_Qle_condition in Hsav, Hinv, Hper, Hmis, Hinc, L3, L6, L7.
  unfold fsub.
  repeat (split_branch;
          cbn [alloc_get alloc_set savings investments personal misc fst snd]);
    intro E; try discriminate E; injection E as <-;
    cbn [savings investments personal misc];
    bound_rounding (4 * M + 16 * half_min);
    repeat split; apply Qabs_Qle_condition; split; lra.
Qed.

(** The float sum of four amounts of magnitude at most [F] is within four
    roundings of their exact sum. *)
Lemma alloc_total_rounded (a : Allocation) (F : Q) :
  Qabs (savings a) <= F -> Qabs (investments a) <= F ->
  Qabs (personal a) <= F -> Qabs (misc a) <= F ->
  Qabs (B.alloc_total a - alloc_total a)
    <= (20 # 9007199254740992) * F + 8 * half_min.
Proof.
  intros Hs Hi Hp Hm. destruct a as [s i p m].
  cbn [savings investments personal misc] in *.
  unfold B.alloc_total, alloc_total, fsum, pysum.
  cbn [savings investments personal misc fold_left]. unfold fadd.
  apply Qabs_Qle_condition in Hs, Hi, Hp, Hm.
  pose proof half_min_pos as Hh. pose proof half_min_small as Hsm.
  bound_rounding (5 * F + 8 * half_min).
  apply Qabs_Qle_condition; split; lra.
Qed.

(** C2, as stated, fails: for the allocation (16356.11, 16356.22, 36801.33,
    12266.34), a savings shortfall of 7000.13 and an income of 81780 the
    planner returns a plan whose four amounts sum to [2 ^ -40] more than
    those of the input; as float sums, the plan totals 81780.00000000001,
    [2 ^ -36] more than the input's 81780. *)
Lemma create_unified_reallocation_plan_total_drifts :
  let allocation :=
    mkAllocation (fl 16356.11) (fl 16356.22) (fl 36801.33) (fl 12266.34) in
  exists plan,
    B.create_unified_reallocation_plan allocation (fl 7000.13) 0 81780 = Some plan /\
    alloc_total plan - alloc_total allocation == 2 ^ (-40) /\
    B.alloc_total allocation == 81780 /\
    B.alloc_total plan == 81780 + 2 ^ (-36) /\
    ~ alloc_total plan == alloc_total allocation /\
    ~ B.alloc_total plan == B.alloc_total allocation.
Proof.
  cbv zeta. eexists. split; [vm_compute; reflexivity|].
  split; [vm_compute; reflexivity|]. split; [vm_compute; reflexivity|].
  split; [vm_compute; reflexivity|].
  split; vm_compute; discriminate.
Qed.

(** C2, amended: when the planner returns a plan for shortfalls that are not
    negative, the four amounts of the plan sum to those of the input up to
    binary64 rounding: with [M] at least the magnitude of every amount, of
    both shortfalls and of the income (and at most [2 ^ 1000]), the exact
    sums differ by at most [2 ^ -47 * M + 2 ^ -1069] and the float sums by
    at most [2 ^ -45 * M + 2 ^ -1065]. *)
Theorem create_unified_reallocation_plan_total_within_rounding
    (allocation : Allocation)
    (savings_shortfall investment_shortfall total_income M : Q) (plan : Allocation) :
  M <= 2 ^ 1000 ->
  0 <= savings_shortfall -> savings_shortfall <= M ->
  0 <= investment_shortfall -> investment_shortfall <= M ->
  Qabs (savings allocation) <= M -> Qabs (investments allocation) <= M ->
  Qabs (personal allocation) <= M -> Qabs (misc allocation) <= M ->
  Qabs total_income <= M ->
  B.create_unified_reallocation_plan allocation savings_shortfall
    investment_shortfall total_income = Some plan ->
  Qabs (alloc_total plan - alloc_total allocation)
    <= 2 ^ (-47) * M + 2 ^ (-1069) /\
  Qabs (B.alloc_total plan - B.alloc_total allocation)
    <= 2 ^ (-45) * M + 2 ^ (-1065).
Proof.
  intros _ Hs0 Hs1 Hi0 Hi1 Hsav Hinv Hper Hmis Hinc E.
  destruct (plan_total_drift _ _ _ _ M _ Hs0 Hs1 Hi0 Hi1 Hsav Hinv Hper Hmis Hinc E)
    as (D & P1 & P2 & P3 & P4).
  pose proof (alloc_total_rounded plan _ P1 P2 P3 P4) as R1.
  pose proof (alloc_total_rounded allocation _ Hsav Hinv Hper Hmis) as R2.
  pose proof half_min_pos as Hh. pose proof half_min_small as Hsm.
  assert (HM : 0 <= M) by (pose proof (Qabs_nonneg total_income); lra).
  assert (E1 : 2 ^ (-47) == 1 # 140737488355328) by reflexivity.
  assert (E2 : 2 ^ (-1069) == 64 * half_min) by reflexivity.
  assert (E3 : 2 ^ (-45) == 1 # 35184372088832) by reflexivity.
  assert (E4 : 2 ^ (-1065) == 1024 * half_min) by reflexivity.
  rewrite E1, E2, E3, E4.
  apply Qabs_Qle_condition in D, R1, R2.
  split; apply Qabs_Qle_condition; split; lra.
Qed.

Lemma create_unified_reallocation_plan_total_within_rounding_witness :
  let allocation :=
    mkAllocation (fl 16356.11) (fl 16356.22) (fl 36801.33) (fl 12266.34) in
  exists plan,
    B.create_unified_reallocation_plan allocation (fl 7000.13) 0 81780 = Some plan /\
    Qabs (alloc_total plan - alloc_total allocation)
      <= 2 ^ (-47) * 81780 + 2 ^ (-1069) /\
    Qabs (B.alloc_total plan - B.alloc_total allocation)
      <= 2 ^ (-45) * 81780 + 2 ^ (-1065).
Proof.
  cbv zeta. eexists. split; [vm_compute; reflexivity|].
  apply (create_unified_reallocation_plan_total_within_rounding
           (mkAllocation (fl 16356.11) (fl 16356.22) (fl 36801.33) (fl 12266.34))
           (fl 7000.13) 0 81780 81780);
    vm_compute; try discriminate; reflexivity.
Defined.

(** ** Goal conflict resolver in binary64 *)

Lemma float_usage_pct_ok (spent allocated : Q) :
  exists v, B.usage_pct spent allocated = Ok v /\ (allocated <= 0 -> v = 0).
Proof.
  unfold B.usage_pct. destruct (Qltb 0 allocated) eqn:C.
  - apply Qltb_true in C. rewrite fdiv_ok by lra. cbn [bind].
    eexists; split; [reflexivity | intro; lra].
  - eexists; split; [reflexivity | reflexivity].
Qed.

Lemma float_loss_pct_ok (current_value purchase_value : Q) :
  exists v, B.loss_pct current_value purchase_value = Ok v /\
            (purchase_value <= 0 -> v = 0).
Proof.
  unfold B.loss_pct. destruct (Qltb 0 purchase_value) eqn:C.
  - apply Qltb_true in C. rewrite fdiv_ok by lra. cbn [bind].
    eexists; split; [reflexivity | intro; lra].
  - eexists; split; [reflexivity | reflexivity].
Qed.

Lemma float_calculate_roi_score_cases (expected_return : Q) (timeline_months : Z) :
  (overflows (inject_Z timeline_months) = true /\
   B.calculate_roi_score expected_return timeline_months = Raise OverflowError) \/
  (exists v, B.calculate_roi_score expected_return timeline_months = Ok v /\
             (timeline_months = 0%Z -> v = 0)).
Proof.
  unfold B.calculate_roi_score.
  destruct (timeline_months =? 0)%Z eqn:E.
  - right. eexists; split; reflexivity.
  - apply Z.eqb_neq in E.
    destruct (of_int_cases timeline_months) as [[O ->] | [_ Hn]];
      [left; split; [exact O | reflexivity]|].
    right. rewrite Hn. cbn [bind].
    rewrite fdiv_ok by (rewrite fl_inject_Z_zero_iff; exact E). cbn [bind].
    repeat match goal with
           | |- context [Qle_bool ?x ?y] => destruct (Qle_bool x y)
           end; eexists; (split; [reflexivity | intro; contradiction]).
Qed.

Lemma float_calculate_feasibility_score_ok (monthly_required monthly_income : Q)
    (current_allocation : dict Q) :
  exists v,
    B.calculate_feasibility_score monthly_required monthly_income current_allocation
    = Ok v /\ (monthly_required == 0 -> v = 5).
Proof.
  unfold B.calculate_feasibility_score. cbv zeta.
  destruct (Qeq_bool monthly_required 0) eqn:E;
    [eexists; split; reflexivity|].
  apply Qeq_bool_false in E.
  destruct (Qltb 0 monthly_required).
  - rewrite fdiv_ok by exact E. cbn [bind].
    repeat match goal with
           | |- context [Qle_bool ?x ?y] => destruct (Qle_bool x y)
           end; eexists; (split; [reflexivity | intro; contradiction]).
  - cbn [bind].
    repeat match goal with
           | |- context [Qle_bool ?x ?y] => destruct (Qle_bool x y)
           end; eexists; (split; [reflexivity | intro; contradiction]).
Qed.



(** Rounding decides ties: two goals whose scores are both 7.6 in exact
    arithmetic get the floats 7.6 and 7.6000000000000005, and the resolver
    puts the second goal first. *)
Lemma goal_conflict_resolver_rounded_scores :
  let A := mkGoal (Some "A") (Some 12000) (Some 12%Z) (Some 3%Z) (Some 15) (Some 1000) in
  let B' := mkGoal (Some "B") (Some 2400) (Some 12%Z) (Some 3%Z) (Some 12) (Some 200) in
  exists a b,
    B.goal_conflict_resolver [A; B'] 1000 [("savings", 900)] = Ok (Some [b; a]) /\
    name a = "A" /\ name b = "B" /\
    total_score a == fl 7.6 /\
    total_score b == fl 7.6 + 2 ^ (-50) /\
    (exists a' b',
       goal_conflict_resolver [A; B'] 1000 [("savings", 900)] = Ok (Some [a'; b']) /\
       name a' = "A" /\ name b' = "B" /\ total_score a' == total_score b').
Proof.
  cbv zeta. eexists. eexists.
  split; [vm_compute; reflexivity|].
  repeat split; try (vm_compute; reflexivity).
  eexists. eexists. split; [vm_compute; reflexivity|].
  repeat split; vm_compute; reflexivity.
Qed.



(** ** Which divisions are guarded *)

Lemma monthly_rate_zero : Qeq_bool (B.monthly_rate 0) 0 = true.
Proof. vm_compute. reflexivity. Qed.

Lemma float_lost_future_value_raise (float_pow : Q -> Q -> result Q)
    (skipped_amount : Q) (months : Z) (annual_return_pct : Q) (e : exn) :
  B.lost_future_value float_pow skipped_amount months annual_return_pct = Raise e ->
  of_int months = Raise e \/
  exists n, of_int months = Ok n /\
            float_pow (fadd 1 (B.monthly_rate annual_return_pct)) n = Raise e.
Proof.
  unfold B.lost_future_value. cbv zeta.
  destruct (Qeq_bool (B.monthly_rate annual_return_pct) 0) eqn:R.
  - destruct (of_int months) as [n|e']; cbn [bind]; [discriminate|].
    intro H. left. exact H.
  - apply Qeq_bool_false in R.
    destruct (of_int months) as [n|e']; cbn [bind]; [|intro H; left; exact H].
    destruct (float_pow _ n) as [p|e'] eqn:P; cbn [bind].
    + rewrite fdiv_ok by exact R. cbn [bind]. discriminate.
    + intro H. injection H as <-. right. exists n.
      split; [reflexivity | exact P].
Qed.

Lemma float_lost_future_value_zero_rate (float_pow : Q -> Q -> result Q)
    (skipped_amount : Q) (months : Z) (annual_return_pct : Q) :
  B.monthly_rate annual_return_pct == 0 ->
  B.lost_future_value float_pow skipped_amount months annual_return_pct
  = (n <- of_int months ;; Ok (fmul skipped_amount n)).
Proof.
  intro R. unfold B.lost_future_value. cbv zeta.
  apply Qeq_bool_iff in R. rewrite R. reflexivity.
Qed.

Lemma float_savings_goal_calculator_raise (target_amount : Q) (months : Z) :
  B.savings_goal_calculator target_amount months = Raise ZeroDivisionError
  <-> months = 0%Z.
Proof.
  unfold B.savings_goal_calculator.
  destruct (of_int_cases months) as [[O E] | [_ E]]; rewrite E; cbn [bind].
  - split; [discriminate|]. intros ->. vm_compute in O. discriminate.
  - rewrite fdiv_raise_iff, fl_inject_Z_zero_iff. tauto.
Qed.

Lemma float_investment_goal_calculator_zero_rate (float_pow : Q -> Q -> result Q)
    (target_amount : Q) (months : Z) (annual_return_pct : Q) :
  B.monthly_rate annual_return_pct == 0 ->
  (B.investment_goal_calculator float_pow target_amount months annual_return_pct
   = Raise ZeroDivisionError <-> months = 0%Z).
Proof.
  intro R. unfold B.investment_goal_calculator. cbv zeta.
  apply Qeq_bool_iff in R. rewrite R.
  apply float_savings_goal_calculator_raise.
Qed.

Lemma float_investment_goal_calculator_raise (float_pow : Q -> Q -> result Q)
    (target_amount : Q) (months : Z) (annual_return_pct : Q) :
  ~ B.monthly_rate annual_return_pct == 0 ->
  (B.investment_goal_calculator float_pow target_amount months annual_return_pct
   = Raise ZeroDivisionError <->
   exists n, of_int months = Ok n /\
     (float_pow (fadd 1 (B.monthly_rate annual_return_pct)) n
      = Raise ZeroDivisionError \/
      exists p, float_pow (fadd 1 (B.monthly_rate annual_return_pct)) n = Ok p /\
                fsub p 1 == 0)).
Proof.
  intro R. unfold B.investment_goal_calculator. cbv zeta.
  destruct (Qeq_bool (B.monthly_rate annual_return_pct) 0) eqn:Er.
  { apply Qeq_bool_eq in Er. contradiction. }
  destruct (of_int_cases months) as [[_ E] | [_ E]]; rewrite E; cbn [bind].
  - split; [discriminate | intros (n & H & _); discriminate].
  - destruct (float_pow _ (fl (inject_Z months))) as [p|e] eqn:P; cbn [bind].
    + rewrite fdiv_raise_iff. split.
      * intros [H _]. eexists. split; [reflexivity|].
        right. exists p. rewrite P. split; [reflexivity | exact H].
      * intros (n & Hn & [H | (p' & H & Hz)]); injection Hn as <-;
          rewrite P in H; [discriminate|].
        injection H as <-. split; [exact Hz | reflexivity].
    + split.
      * intro H. injection H as ->. eexists. split; [reflexivity|].
        left. exact P.
      * intros (n & Hn & [H | (p' & H & _)]); injection Hn as <-;
          rewrite P in H; [exact H | discriminate].
Qed.

Lemma int_truediv_12 (n : Z) :
  int_truediv n 12 = Raise OverflowError \/
  int_truediv n 12 = Ok (fl (inject_Z n / inject_Z 12)).
Proof.
  unfold int_truediv. cbn [Z.eqb].
  destruct (overflows (inject_Z n / inject_Z 12)); [left | right]; reflexivity.
Qed.

Lemma float_adjust_goal_raise (float_pow : Q -> Q -> result Q)
    (current_inflation_rate : Q) (goal : Goal) :
  ~ 0 < get_or (g_expected_return goal) 0 ->
  (forall timeline_years,
     int_truediv (get_or (g_timeline_months goal) 12%Z) 12 = Ok timeline_years ->
     exists growth,
       float_pow (fadd 1 (fl (current_inflation_rate / 100))) timeline_years
       = Ok growth) ->
  (B.adjust_goal float_pow current_inflation_rate goal = Raise ZeroDivisionError
   <-> get_or (g_timeline_months goal) 12%Z = 0%Z).
Proof.
  intros Hr Hp. unfold B.adjust_goal. cbv zeta.
  set (tm := get_or (g_timeline_months goal) 12%Z) in *.
  assert (Hz : tm = 0%Z -> int_truediv tm 12 = Ok (fl (inject_Z 0 / inject_Z 12))).
  { intros ->. vm_compute. reflexivity. }
  destruct (int_truediv_12 tm) as [E | E].
  - rewrite E. cbn [bind]. split; [discriminate|].
    intro H. rewrite (Hz H) in E. discriminate.
  - destruct (Hp _ E) as [growth Hg]. rewrite E. cbn [bind]. rewrite Hg. cbn [bind].
    assert (G : Qltb 0 (get_or (g_expected_return goal) 0) = false).
    { apply Qltb_false. lra. }
    rewrite G.
    destruct (of_int_cases tm) as [[O En] | [_ En]]; rewrite En; cbn [bind].
    + split; [discriminate|]. intros H. rewrite H in O. vm_compute in O.
      discriminate.
    + destruct (fdiv_raise_iff
                  (fmul (get_or (g_target_amount goal) 0) growth)
                  (fl (inject_Z tm)) ZeroDivisionError) as [F1 F2].
      rewrite <- fl_inject_Z_zero_iff.
      destruct (fdiv _ (fl (inject_Z tm))) as [v|e] eqn:D; cbn [bind].
      * split; [discriminate|]. intro H.
        specialize (F2 (conj H eq_refl)). discriminate.
      * split.
        -- intro H. injection H as ->. apply F1. reflexivity.
        -- intro H. specialize (F2 (conj H eq_refl)). injection F2 as ->.
           reflexivity.
Qed.

(** C3, as stated, fails: the divisions of the goal calculators are not
    guarded.  With [months = 0] both goal calculators raise
    [ZeroDivisionError]; so does the annuity formula whenever
    [(1 + r) ** n] is 1: at an annual return of 1e-13 per cent [1 + r]
    rounds to 1, and at -2400 per cent [1 + r] is -1 and [n = 12] is even. *)
Lemma division_by_zero_months :
  B.savings_goal_calculator 120000 0 = Raise ZeroDivisionError /\
  (forall float_pow,
     B.investment_goal_calculator float_pow 120000 0 0
     = Raise ZeroDivisionError) /\
  (forall float_pow,
     (forall b e, b == 1 -> exists p, float_pow b e = Ok p /\ p == 1) ->
     B.investment_goal_calculator float_pow 120000 12 (fl (1 # 10000000000000))
     = Raise ZeroDivisionError) /\
  (forall float_pow,
     (forall b e, b == - (1) -> e == 12 -> exists p, float_pow b e = Ok p /\ p == 1) ->
     B.investment_goal_calculator float_pow 120000 12 (-2400)
     = Raise ZeroDivisionError).
Proof.
  split; [vm_compute; reflexivity|].
  split; [intro; vm_compute; reflexivity|].
  split.
  - intros float_pow Hp.
    apply float_investment_goal_calculator_raise; [vm_compute; discriminate|].
    eexists. split; [vm_compute; reflexivity|]. right.
    match goal with
    | |- exists p, float_pow ?b ?e = _ /\ _ =>
        destruct (Hp b e) as (p & E & H1); [vm_compute; reflexivity|]
    end.
    exists p. split; [exact E|]. unfold fsub.
    rewrite (fl_compat (p - 1) 0) by (rewrite H1; ring).
    vm_compute. reflexivity.
  - intros float_pow Hp.
    apply float_investment_goal_calculator_raise; [vm_compute; discriminate|].
    eexists. split; [vm_compute; reflexivity|]. right.
    match goal with
    | |- exists p, float_pow ?b ?e = _ /\ _ =>
        destruct (Hp b e) as (p & E & H1);
          [vm_compute; reflexivity | vm_compute; reflexivity |]
    end.
    exists p. split; [exact E|]. unfold fsub.
    rewrite (fl_compat (p - 1) 0) by (rewrite H1; ring).
    vm_compute. reflexivity.
Qed.

(** C3, amended: the divisions by allocated amount ([usage_pct]), by
    purchase value ([loss_pct]), by timeline ([calculate_roi_score]), by
    monthly requirement ([calculate_feasibility_score]) and by the monthly
    rate ([lost_future_value]) sit behind a guard on the divisor with a
    fallback value, and never raise [ZeroDivisionError].  The divisions of
    the goal calculators have no guard.  [savings_goal_calculator] raises
    [ZeroDivisionError] exactly when [months = 0];
    [investment_goal_calculator] does so, at a monthly rate that evaluates
    to 0, exactly when [months = 0], and at any other rate exactly when
    [(1 + r) ** n] raises it or evaluates to a float [p] with [p - 1 = 0];
    [inflation_adjuster], for a goal without a positive expected return
    whose growth factor evaluates, exactly when the timeline is 0 months. *)
Theorem divisions_guarded_except_in_goal_calculators
    (float_pow : Q -> Q -> result Q) :
  (forall spent allocated,
     exists v, B.usage_pct spent allocated = Ok v /\ (allocated <= 0 -> v = 0)) /\
  (forall current_value purchase_value,
     exists v, B.loss_pct current_value purchase_value = Ok v /\
               (purchase_value <= 0 -> v = 0)) /\
  (forall expected_return timeline_months,
     B.calculate_roi_score expected_return timeline_months
     <> Raise ZeroDivisionError /\
     B.calculate_roi_score expected_return 0 = Ok 0) /\
  (forall monthly_required monthly_income current_allocation,
     exists v,
       B.calculate_feasibility_score monthly_required monthly_income
         current_allocation = Ok v /\
       (monthly_required == 0 -> v = 5)) /\
  (forall skipped_amount months annual_return_pct,
     (B.monthly_rate annual_return_pct == 0 ->
      B.lost_future_value float_pow skipped_amount months annual_return_pct
      = (n <- of_int months ;; Ok (fmul skipped_amount n))) /\
     (forall e,
        B.lost_future_value float_pow skipped_amount months annual_return_pct
        = Raise e ->
        of_int months = Raise e \/
        exists n, of_int months = Ok n /\
                  float_pow (fadd 1 (B.monthly_rate annual_return_pct)) n
                  = Raise e)) /\
  (forall target_amount months,
     B.savings_goal_calculator target_amount months = Raise ZeroDivisionError
     <-> months = 0%Z) /\
  (forall target_amount months annual_return_pct,
     B.monthly_rate annual_return_pct == 0 ->
     (B.investment_goal_calculator float_pow target_amount months annual_return_pct
      = Raise ZeroDivisionError <-> months = 0%Z)) /\
  (forall target_amount months annual_return_pct,
     ~ B.monthly_rate annual_return_pct == 0 ->
     (B.investment_goal_calculator float_pow target_amount months annual_return_pct
      = Raise ZeroDivisionError <->
      exists n, of_int months = Ok n /\
        (float_pow (fadd 1 (B.monthly_rate annual_return_pct)) n
         = Raise ZeroDivisionError \/
         exists p, float_pow (fadd 1 (B.monthly_rate annual_return_pct)) n = Ok p /\
                   fsub p 1 == 0))) /\
  (forall current_inflation_rate goal,
     ~ 0 < get_or (g_expected_return goal) 0 ->
     (forall timeline_years,
        int_truediv (get_or (g_timeline_months goal) 12%Z) 12 = Ok timeline_years ->
        exists growth,
          float_pow (fadd 1 (fl (current_inflation_rate / 100))) timeline_years
          = Ok growth) ->
     (B.adjust_goal float_pow current_inflation_rate goal = Raise ZeroDivisionError
      <-> get_or (g_timeline_months goal) 12%Z = 0%Z)).
Proof.
  split; [apply float_usage_pct_ok|].
  split; [apply float_loss_pct_ok|].
  split.
  { intros er tm. split; [|reflexivity].
    destruct (float_calculate_roi_score_cases er tm) as [[_ E] | (v & E & _)];
      rewrite E; discriminate. }
  split; [apply float_calculate_feasibility_score_ok|].
  split.
  { intros sk n pct. split.
    - apply float_lost_future_value_zero_rate.
    - apply float_lost_future_value_raise. }
  split; [apply float_savings_goal_calculator_raise|].
  split; [intros; apply float_investment_goal_calculator_zero_rate; assumption|].
  split; [intros; apply float_investment_goal_calculator_raise; assumption|].
  intros; apply float_adjust_goal_raise; assumption.
Qed.

(** ** Dynamic reallocation advisor in binary64 *)

Lemma float_analyse_ok (allocation actual_spending : dict Q) (category : string) :
  B.analyse allocation actual_spending category
  = Ok (B.analysis_of allocation actual_spending category).
Proof.
  unfold B.analyse, B.analysis_of, B.usage_of, B.usage_pct, B.difference. cbv zeta.
  destruct (Qltb 0 (get allocation category 0)) eqn:C; [|reflexivity].
  apply Qltb_true in C. rewrite fdiv_ok by lra. reflexivity.
Qed.

(** A sum of floats that are not negative is positive as soon as one of
    them is: a positive float is at least [min_float]. *)
Lemma fadd_pos (t x : Q) : 0 <= t -> 0 < fl x -> 0 < fadd t (fl x).
Proof.
  intros Ht Hx. unfold fadd. apply fl_pos.
  pose proof (fl_pos_min x Hx). lra.
Qed.

Lemma fadd_abs_pos (t x : Q) : 0 <= t -> fl x < 0 -> 0 < fadd t (pyabs (fl x)).
Proof.
  intros Ht Hx. unfold fadd, pyabs. apply fl_pos.
  rewrite Qabs_neg by lra.
  assert (H : 0 < fl (- x)) by (rewrite fl_opp; lra).
  apply fl_pos_min in H. rewrite fl_opp in H. lra.
Qed.

Lemma fadd_nonneg (t x : Q) : 0 <= t -> 0 <= x -> 0 <= fadd t x.
Proof.
  intros Ht Hx. unfold fadd. apply fl_nonneg. lra.
Qed.

Section FloatFirstPass.
Variables allocation actual_spending : dict Q.

(** The first pass does not raise.  It files every category of [cats] under
    its analysis, and each total is positive at the end exactly when it was
    at the start or some category has a positive, respectively a negative,
    difference. *)
Lemma float_first_pass_spec (cats : list string) :
  forall (ca0 : dict Analysis) (ts0 td0 : Q),
    (forall k a, In (k, a) ca0 -> a = B.analysis_of allocation actual_spending k) ->
    0 <= ts0 -> 0 <= td0 ->
    exists ca ts td,
      B.first_pass allocation actual_spending cats (ca0, ts0, td0)
      = Ok (ca, ts, td) /\
      (forall k a, In (k, a) ca ->
         a = B.analysis_of allocation actual_spending k /\
         (In k cats \/ In (k, a) ca0)) /\
      (forall k, In k cats ->
         In (k, B.analysis_of allocation actual_spending k) ca) /\
      (forall k a, In (k, a) ca0 -> In (k, a) ca) /\
      0 <= ts /\ 0 <= td /\
      (0 < ts <->
       0 < ts0 \/
       exists k, In k cats /\ 0 < B.difference allocation actual_spending k) /\
      (0 < td <->
       0 < td0 \/
       exists k, In k cats /\ B.difference allocation actual_spending k < 0).
Proof.
  induction cats as [|c rest IH]; intros ca0 ts0 td0 Hca0 Hts0 Htd0.
  - exists ca0, ts0, td0. cbn [B.first_pass].
    split; [reflexivity|]. split; [intros k a H; split; auto|].
    split; [intros k []|]. split; [auto|].
    split; [lra|]. split; [lra|].
    split; (split; [intro; left; assumption | intros [H | (k & [] & _)]; exact H]).
  - cbn [B.first_pass]. rewrite float_analyse_ok. cbn [bind].
    set (a := B.analysis_of allocation actual_spending c).
    assert (Hset : forall k v, In (k, v) (dict_set ca0 c a) ->
                     v = B.analysis_of allocation actual_spending k).
    { intros k v H. destruct (dict_set_inv _ _ _ _ _ H) as [[-> ->] | H'];
        [reflexivity | exact (Hca0 _ _ H')]. }
    assert (Hkeep : forall k v, In (k, v) ca0 -> In (k, v) (dict_set ca0 c a)).
    { intros k v H. destruct (string_dec k c) as [-> | Hne].
      - rewrite (Hca0 _ _ H). apply dict_set_new.
      - apply dict_set_other; assumption. }
    assert (Hfrom : forall k v, In (k, v) (dict_set ca0 c a) ->
                      k = c \/ In (k, v) ca0).
    { intros k v H. destruct (dict_set_inv _ _ _ _ _ H) as [[-> _] | H']; auto. }
    assert (Hd : an_difference a = B.difference allocation actual_spending c)
      by reflexivity.
    rewrite !Hd. clear Hd.
    assert (Hfl : B.difference allocation actual_spending c
                  = fl (get allocation c 0 - get actual_spending c 0))
      by reflexivity.
    destruct (Qltb 0 (B.difference allocation actual_spending c)) eqn:Cpos;
      [|destruct (Qltb (B.difference allocation actual_spending c) 0) eqn:Cneg].
    + apply Qltb_true in Cpos.
      assert (Hnew : 0 < fadd ts0 (B.difference allocation actual_spending c)).
      { rewrite Hfl in *. apply fadd_pos; assumption. }
      destruct (IH (dict_set ca0 c a)
                  (fadd ts0 (B.difference allocation actual_spending c)) td0 Hset)
        as (ca & ts & td & E & Hent & Hall & Hpres & Hts & Htd & Its & Itd);
        [lra | exact Htd0 |].
      exists ca, ts, td. split; [exact E|].
      split.
      { intros k v H. destruct (Hent k v H) as [Hv [Hin | Hin]].
        - split; [exact Hv | left; right; exact Hin].
        - split; [exact Hv|]. destruct (Hfrom _ _ Hin) as [-> | Hin0];
            [left; left; reflexivity | right; exact Hin0]. }
      split.
      { intros k [<- | Hin]; [apply Hpres, dict_set_new | apply Hall, Hin]. }
      split; [intros k v H; apply Hpres, Hkeep, H|].
      split; [exact Hts|]. split; [exact Htd|].
      split.
      { split.
        - intros _. right. exists c. split; [left; reflexivity | exact Cpos].
        - intros _. apply Its. left. exact Hnew. }
      { rewrite Itd. split; (intros [H | (k & Hk & Hlt)]; [left; exact H|]).
        - right. exists k. split; [right; exact Hk | exact Hlt].
        - destruct Hk as [<- | Hk]; [lra|]. right. exists k. split; assumption. }
    + apply Qltb_false in Cpos. apply Qltb_true in Cneg.
      assert (Hnew : 0 < fadd td0 (pyabs (B.difference allocation actual_spending c))).
      { rewrite Hfl in *. apply fadd_abs_pos; assumption. }
      destruct (IH (dict_set ca0 c a) ts0
                  (fadd td0 (pyabs (B.difference allocation actual_spending c))) Hset)
        as (ca & ts & td & E & Hent & Hall & Hpres & Hts & Htd & Its & Itd);
        [exact Hts0 | lra |].
      exists ca, ts, td. split; [exact E|].
      split.
      { intros k v H. destruct (Hent k v H) as [Hv [Hin | Hin]].
        - split; [exact Hv | left; right; exact Hin].
        - split; [exact Hv|]. destruct (Hfrom _ _ Hin) as [-> | Hin0];
            [left; left; reflexivity | right; exact Hin0]. }
      split.
      { intros k [<- | Hin]; [apply Hpres, dict_set_new | apply Hall, Hin]. }
      split; [intros k v H; apply Hpres, Hkeep, H|].
      split; [exact Hts|]. split; [exact Htd|].
      split.
      { rewrite Its. split; (intros [H | (k & Hk & Hlt)]; [left; exact H|]).
        - right. exists k. split; [right; exact Hk | exact Hlt].
        - destruct Hk as [<- | Hk]; [lra|]. right. exists k. split; assumption. }
      { split.
        - intros _. right. exists c. split; [left; reflexivity | exact Cneg].
        - intros _. apply Itd. left. exact Hnew. }
    + apply Qltb_false in Cpos. apply Qltb_false in Cneg.
      destruct (IH (dict_set ca0 c a) ts0 td0 Hset)
        as (ca & ts & td & E & Hent & Hall & Hpres & Hts & Htd & Its & Itd);
        [exact Hts0 | exact Htd0 |].
      exists ca, ts, td. split; [exact E|].
      split.
      { intros k v H. destruct (Hent k v H) as [Hv [Hin | Hin]].
        - split; [exact Hv | left; right; exact Hin].
        - split; [exact Hv|]. destruct (Hfrom _ _ Hin) as [-> | Hin0];
            [left; left; reflexivity | right; exact Hin0]. }
      split.
      { intros k [<- | Hin]; [apply Hpres, dict_set_new | apply Hall, Hin]. }
      split; [intros k v H; apply Hpres, Hkeep, H|].
      split; [exact Hts|]. split; [exact Htd|].
      split.
      { rewrite Its. split; (intros [H | (k & Hk & Hlt)]; [left; exact H|]).
        - right. exists k. split; [right; exact Hk | exact Hlt].
        - destruct Hk as [<- | Hk]; [lra|]. right. exists k. split; assumption. }
      { rewrite Itd. split; (intros [H | (k & Hk & Hlt)]; [left; exact H|]).
        - right. exists k. split; [right; exact Hk | exact Hlt].
        - destruct Hk as [<- | Hk]; [lra|]. right. exists k. split; assumption. }
Qed.

End FloatFirstPass.

(** The deficit loop only appends, and with a deficit to cover and a positive
    surplus it appends at least once (when it does not raise). *)
Lemma float_cover_deficits_grows (surplus_categories : list Surplus)
    (deficits : list Deficit) :
  forall suggestions remaining suggestions' remaining',
    B.cover_deficits surplus_categories deficits (suggestions, remaining)
    = Ok (suggestions', remaining') ->
    (List.length suggestions <= List.length suggestions')%nat /\
    (deficits <> [] -> 0 < remaining ->
     (List.length suggestions < List.length suggestions')%nat).
Proof.
  induction deficits as [|d rest IH]; intros s r s' r'; cbn [B.cover_deficits].
  - intro E. inversion E; subst. split; [lia | congruence].
  - destruct (Qle_bool r 0) eqn:C.
    + apply Qle_bool_iff in C. intro E. inversion E; subst.
      split; [lia | intros _ Hr; lra].
    + destruct (sorted_by_priority surplus_categories) as [ordered | e];
        cbn [bind]; [|discriminate].
      intro E. destruct (IH _ _ _ _ E) as [Hle _].
      rewrite length_app in Hle. cbn [List.length] in Hle.
      split; [lia | intros _ _; lia].
Qed.

(** The usage percentage is the float the code computes, not the exact
    ratio: spending 12752.21 of 15002.60 is exactly 85% of the decimal
    amounts and computes to the float just below 85, and spending 0.85 of 1
    computes to 85 although the float nearest to 0.85 is below it. *)
Lemma usage_pct_rounded :
  (exists u, B.usage_pct (fl 12752.21) (fl 15002.60) = Ok u /\
             u == 85 - 2 ^ (-46)) /\
  (exists u, B.usage_pct (fl 0.85) 1 = Ok u /\ u == 85 /\ fl 0.85 / 1 * 100 < 85).
Proof.
  split.
  - eexists. split; [vm_compute; reflexivity | vm_compute; reflexivity].
  - eexists. split; [vm_compute; reflexivity|].
    split; vm_compute; reflexivity.
Qed.

(** C9, amended: with at least two months tracked the advisor returns [None]
    exactly when no category has a deficit and every category with a surplus
    has a usage percentage of at least 85, the difference and the usage
    percentage being the floats the code computes.  (It does not raise
    then; with a deficit it returns suggestions, or raises [ValueError] on a
    surplus category outside the priority list.) *)
Theorem dynamic_reallocation_suggestions_none (allocation actual_spending : dict Q)
    (months_tracked : Z) :
  (2 <= months_tracked)%Z ->
  (B.dynamic_reallocation_suggestions allocation actual_spending months_tracked
   = Ok None <->
   B.no_deficit allocation actual_spending /\
   B.surpluses_well_used allocation actual_spending).
Proof.
  intro Hm. unfold B.dynamic_reallocation_suggestions.
  assert (E : (months_tracked <? 2)%Z = false) by (apply Z.ltb_ge; exact Hm).
  rewrite E. clear E.
  destruct (float_first_pass_spec allocation actual_spending (keys allocation) [] 0 0)
    as (ca & ts & td & Hfp & Hent & Hall & _ & Hts0 & Htd0 & Hts & Htd);
    [intros k a [] | lra | lra |].
  match goal with
  | |- context [B.first_pass ?a ?b ?c ?d] =>
      replace (B.first_pass a b c d) with (Ok (ca, ts, td)) by (symmetry; exact Hfp)
  end.
  cbn [bind].
  assert (Hts' : 0 < ts <->
            exists k, In k (keys allocation) /\
                      0 < B.difference allocation actual_spending k).
  { rewrite Hts. split; [intros [H | H]; [lra | exact H] | intro H; right; exact H]. }
  assert (Htd' : 0 < td <->
            exists k, In k (keys allocation) /\
                      B.difference allocation actual_spending k < 0).
  { rewrite Htd. split; [intros [H | H]; [lra | exact H] | intro H; right; exact H]. }
  clear Hts Htd.
  (* what the two collected lists say about the categories *)
  assert (HD : collect_deficits ca = [] <-> B.no_deficit allocation actual_spending).
  { rewrite collect_deficits_nil. unfold B.no_deficit. split; intros H.
    - intros c Hc Hlt. specialize (H c _ (Hall c Hc)). cbn in H. lra.
    - intros k a Hin. destruct (Hent k a Hin) as [-> [Hk | []]].
      cbn. specialize (H k Hk). lra. }
  assert (HS : collect_surpluses ca = [] <->
               B.surpluses_well_used allocation actual_spending).
  { rewrite collect_surpluses_nil. unfold B.surpluses_well_used. split; intros H.
    - intros c Hc Hlt. exact (H c _ (Hall c Hc) Hlt).
    - intros k a Hin. destruct (Hent k a Hin) as [-> [Hk | []]].
      cbn. exact (H k Hk). }
  destruct (Qltb 0 ts || Qltb 0 td) eqn:Hcond.
  - destruct (collect_surpluses ca) as [|s0 S] eqn:ES;
      destruct (collect_deficits ca) as [|d0 D] eqn:ED;
      cbn [truthy andb negb].
    + (* neither list has an entry *)
      cbn [bind app efficiency_tips truthy].
      split; [intros _ | reflexivity]. split; [apply HD | apply HS]; reflexivity.
    + (* deficits only: one warning per deficit *)
      cbn [bind map app truthy]. split; [discriminate|].
      intros [Hno _]. apply HD in Hno. congruence.
    + (* surpluses only *)
      assert (Hpos : 0 < ts).
      { apply Hts'. destruct (Bool.orb_true_elim _ _ Hcond) as [C | C].
        - apply Qltb_true in C. apply Hts' in C. exact C.
        - exfalso. apply Qltb_true in C. apply Htd' in C.
          destruct C as (k & Hk & Hlt).
          assert (Hno : B.no_deficit allocation actual_spending)
            by (apply HD; reflexivity).
          exact (Hno k Hk Hlt). }
      cbn [bind]. rewrite truthy_length.
      * split; [discriminate|]. intros [_ Hwell]. apply HS in Hwell. congruence.
      * rewrite length_app. cbn [redirect_loop].
        apply Qltb_true in Hpos. rewrite Hpos. cbn [List.length]. lia.
    + (* both: the loop covers the first deficit, or raises *)
      assert (Hpos : 0 < ts).
      { apply Qnot_le_lt. intro Hle.
        assert (W : B.surpluses_well_used allocation actual_spending).
        { intros c Hc Hlt.
          assert (0 < ts) by (apply Hts'; exists c; auto). lra. }
        apply HS in W. congruence. }
      destruct (B.cover_deficits (s0 :: S) (d0 :: D) ([], ts))
        as [[suggestions remaining] | e] eqn:Hc; cbn [bind].
      * destruct (float_cover_deficits_grows _ _ _ _ _ _ Hc) as [_ Hlen].
        specialize (Hlen ltac:(discriminate) Hpos). cbn [List.length] in Hlen.
        assert (Hsome : forall rest : list Suggestion,
                   truthy ((suggestions ++ rest)) = true).
        { intro rest. apply truthy_length. rewrite length_app. lia. }
        destruct (Qltb 0 remaining); cbn [bind].
        -- rewrite <- app_assoc, Hsome. split; [discriminate|].
           intros [Hno _]. apply HD in Hno. congruence.
        -- rewrite Hsome. split; [discriminate|].
           intros [Hno _]. apply HD in Hno. congruence.
      * split; [discriminate|].
        intros [Hno _]. apply HD in Hno. congruence.
  - (* no category is off its allocation *)
    cbn [bind truthy]. split; [intros _ | reflexivity].
    apply Bool.orb_false_elim in Hcond. destruct Hcond as [C1 C2].
    apply Qltb_false in C1. apply Qltb_false in C2.
    split.
    + intros c Hc Hlt.
      assert (0 < td) by (apply Htd'; exists c; auto). lra.
    + intros c Hc Hlt.
      assert (0 < ts) by (apply Hts'; exists c; auto). lra.
Qed.

Lemma dynamic_reallocation_suggestions_none_witness :
  let allocation := alloc_items (mkAllocation 20000 20000 45000 15000) in
  let actual_spending := [("savings", 20000); ("investments", 20000);
                          ("personal", 45000); ("misc", 14000)] in
  (2 <= 3)%Z /\
  (B.dynamic_reallocation_suggestions allocation actual_spending 3 = Ok None <->
   B.no_deficit allocation actual_spending /\
   B.surpluses_well_used allocation actual_spending).
Proof.
  cbv zeta. split; [discriminate|].
  apply (dynamic_reallocation_suggestions_none _ _ 3). discriminate.
Defined.

(** C9, as stated, fails: allocation (20000, 20000, 45000, 15000) against
    spending (20000, 20000, 50000, 14000) over 3 months.  The only surplus
    category, misc, has used 93% of its allocation, so every surplus category
    is at or above 85%; personal is overspent, and the advisor returns a
    deficit warning for it instead of [None]. *)
Lemma dynamic_reallocation_suggestions_deficit_warning :
  let allocation := alloc_items (mkAllocation 20000 20000 45000 15000) in
  let actual_spending := [("savings", 20000); ("investments", 20000);
                          ("personal", 50000); ("misc", 14000)] in
  (2 <= 3)%Z /\
  B.surpluses_well_used allocation actual_spending /\
  (exists suggestions,
     B.dynamic_reallocation_suggestions allocation actual_spending 3
     = Ok (Some suggestions) /\
     map sg_type suggestions = ["deficit_warning"] /\
     map sg_category suggestions = ["personal"]) /\
  ~ (B.dynamic_reallocation_suggestions allocation actual_spending 3 = Ok None <->
     (B.no_surplus allocation actual_spending /\
      B.no_deficit allocation actual_spending) \/
     B.surpluses_well_used allocation actual_spending).
Proof.
  cbv zeta.
  assert (W : B.surpluses_well_used
                (alloc_items (mkAllocation 20000 20000 45000 15000))
                [("savings", 20000); ("investments", 20000);
                 ("personal", 50000); ("misc", 14000)]).
  { intros c Hc. cbn [keys alloc_items map fst] in Hc.
    destruct Hc as [<- | [<- | [<- | [<- | []]]]]; vm_compute; congruence. }
  split; [discriminate|]. split; [exact W|]. split.
  - eexists. split; [vm_compute; reflexivity|]. split; reflexivity.
  - intros [_ H]. specialize (H (or_intror W)). vm_compute in H. discriminate.
Qed.

(** ** Dynamic reallocation: when the advisor raises *)

Lemma float_cover_deficits_ok (surplus_categories ordered : list Surplus)
    (deficits : list Deficit) :
  sorted_by_priority surplus_categories = Ok ordered ->
  forall st, exists r, B.cover_deficits surplus_categories deficits st = Ok r.
Proof.
  intro E. induction deficits as [|d rest IH]; intros [s r];
    cbn [B.cover_deficits]; [eexists; reflexivity|].
  destruct (Qle_bool r 0); [eexists; reflexivity|].
  rewrite E. cbn [bind]. apply IH.
Qed.

Lemma float_cover_deficits_raise (surplus_categories : list Surplus) (e : exn)
    (deficits : list Deficit) (suggestions : list Suggestion) (remaining : Q) :
  sorted_by_priority surplus_categories = Raise e ->
  deficits <> [] -> 0 < remaining ->
  B.cover_deficits surplus_categories deficits (suggestions, remaining) = Raise e.
Proof.
  intros E Hne Hr. destruct deficits as [|d rest]; [congruence|].
  cbn [B.cover_deficits].
  destruct (Qle_bool remaining 0) eqn:C; [apply Qle_bool_iff in C; lra|].
  rewrite E. reflexivity.
Qed.

(** With at least two months tracked the advisor raises exactly in one
    situation, and then with [ValueError]; otherwise it returns. *)
Lemma float_dynamic_reallocation_suggestions_cases (allocation actual_spending : dict Q)
    (months_tracked : Z) :
  let fails :=
    (2 <= months_tracked)%Z /\
    (exists c, In c (keys allocation) /\
               B.difference allocation actual_spending c < 0) /\
    (exists c, In c (keys allocation) /\
               0 < B.difference allocation actual_spending c /\
               B.usage_of allocation actual_spending c < 85 /\
               ~ In c priority_order) in
  (fails /\
   B.dynamic_reallocation_suggestions allocation actual_spending months_tracked
   = Raise ValueError) \/
  (~ fails /\
   exists r,
     B.dynamic_reallocation_suggestions allocation actual_spending months_tracked
     = Ok r).
Proof.
  cbv zeta. unfold B.dynamic_reallocation_suggestions.
  destruct (months_tracked <? 2)%Z eqn:Hm.
  { right. apply Z.ltb_lt in Hm. split; [intros [H _]; lia | eexists; reflexivity]. }
  apply Z.ltb_ge in Hm.
  destruct (float_first_pass_spec allocation actual_spending (keys allocation) [] 0 0)
    as (ca & ts & td & Hfp & Hent & Hall & _ & Hts0 & Htd0 & Hts & Htd);
    [intros k a [] | lra | lra |].
  match goal with
  | |- context [B.first_pass ?a ?b ?c ?d] =>
      replace (B.first_pass a b c d) with (Ok (ca, ts, td)) by (symmetry; exact Hfp)
  end.
  cbn [bind].
  assert (HD : (exists c, In c (keys allocation) /\
                          B.difference allocation actual_spending c < 0) ->
               collect_deficits ca <> []).
  { intros (c & Hc & Hlt) E. rewrite collect_deficits_nil in E.
    specialize (E c _ (Hall c Hc)). cbn in E. lra. }
  assert (HS : forall c, In c (keys allocation) ->
                 0 < B.difference allocation actual_spending c ->
                 B.usage_of allocation actual_spending c < 85 ->
                 exists s, In s (collect_surpluses ca) /\ s_category s = c).
  { intros c Hc H1 H2.
    apply (collect_surpluses_has ca c _ (Hall c Hc)); assumption. }
  destruct (Qltb 0 ts || Qltb 0 td) eqn:Hcond.
  - destruct (collect_surpluses ca) as [|s0 S] eqn:ES;
      destruct (collect_deficits ca) as [|d0 D] eqn:ED;
      cbn [truthy andb negb].
    + right. cbn [bind]. split; [|eexists; reflexivity].
      intros (_ & Hd & _). apply (HD Hd). reflexivity.
    + right. cbn [bind]. split; [|eexists; reflexivity].
      intros (_ & _ & (c & Hc & H1 & H2 & _)).
      destruct (HS c Hc H1 H2) as (s & [] & _).
    + right. cbn [bind]. split; [|eexists; reflexivity].
      intros (_ & Hd & _). apply (HD Hd). reflexivity.
    + assert (Hpos : 0 < ts).
      { destruct (collect_surpluses_in ca s0) as (a & Ha & Hdiff & _);
          [rewrite ES; left; reflexivity|].
        destruct (Hent _ _ Ha) as [-> [Hk | []]].
        apply Hts. right. exists (s_category s0).
        split; [exact Hk | exact Hdiff]. }
      destruct (sorted_by_priority_cases (s0 :: S))
        as [[HF [ordered Eo]] | [HE Er]].
      * right. split.
        { intros (_ & _ & (c & Hc & H1 & H2 & Hn)).
          destruct (HS c Hc H1 H2) as (s & Hs & <-).
          rewrite Forall_forall in HF. exact (Hn (HF s Hs)). }
        destruct (float_cover_deficits_ok (s0 :: S) ordered (d0 :: D) Eo ([], ts))
          as [[suggestions remaining] Ec].
        rewrite Ec. cbn [bind].
        destruct (Qltb 0 remaining); cbn [bind]; eexists; reflexivity.
      * left. split.
        { split; [exact Hm|]. split.
          - destruct (collect_deficits_in ca d0) as (a & Ha & Hdiff);
              [rewrite ED; left; reflexivity|].
            destruct (Hent _ _ Ha) as [-> [Hk | []]].
            exists (d_category d0). split; [exact Hk | exact Hdiff].
          - apply Exists_exists in HE. destruct HE as (s & Hs & Hn).
            rewrite <- ES in Hs.
            destruct (collect_surpluses_in ca s Hs) as (a & Ha & Hdiff & Hu).
            destruct (Hent _ _ Ha) as [-> [Hk | []]].
            exists (s_category s). repeat split; assumption. }
        rewrite (float_cover_deficits_raise (s0 :: S) ValueError (d0 :: D) [] ts Er
                   ltac:(discriminate) Hpos).
        reflexivity.
  - right. cbn [bind truthy]. split; [|eexists; reflexivity].
    apply Bool.orb_false_elim in Hcond. destruct Hcond as [C1 C2].
    apply Qltb_false in C2.
    intros (_ & (c & Hc & Hlt) & _).
    assert (0 < td) by (apply Htd; right; exists c; auto). lra.
Qed.

(** X30: [dynamic_reallocation_suggestions] raises in exactly one situation:
    at least two months are tracked, some category is overspent, and some
    category outside savings, investments, personal and misc is underspent
    with a usage percentage below 85, the difference and the usage
    percentage being the floats the code computes.  The exception is then
    [ValueError], from the lookup of that category in the priority list;
    in particular the advisor never raises for an allocation over the four
    categories. *)
Theorem dynamic_reallocation_suggestions_raises_iff
    (allocation actual_spending : dict Q) (months_tracked : Z) :
  ((exists e,
      B.dynamic_reallocation_suggestions allocation actual_spending months_tracked
      = Raise e) <->
   (2 <= months_tracked)%Z /\
   (exists c, In c (keys allocation) /\
              B.difference allocation actual_spending c < 0) /\
   (exists c, In c (keys allocation) /\
              0 < B.difference allocation actual_spending c /\
              B.usage_of allocation actual_spending c < 85 /\
              ~ In c priority_order)) /\
  B.dynamic_reallocation_suggestions allocation actual_spending months_tracked
    <> Raise ZeroDivisionError.
Proof.
  pose proof (float_dynamic_reallocation_suggestions_cases allocation actual_spending
                months_tracked) as H.
  cbv zeta in H. destruct H as [[Hf E] | [Hn [r E]]]; rewrite E.
  - split; [|discriminate]. split; [intros _; exact Hf | intros _; eexists; reflexivity].
  - split; [|discriminate]. split; [intros [e He]; discriminate | intro Hf; contradiction].
Qed.

(** The usage percentage that decides is the computed one: for a category
    outside the priority list that spent 12752.21 of 15002.60, exactly 85%
    in decimal but a float below 85, the advisor raises. *)
Lemma dynamic_reallocation_raises_at_rounded_usage :
  B.dynamic_reallocation_suggestions
    [("rent", fl 15002.60); ("misc", 100)] [("rent", fl 12752.21); ("misc", 150)] 3
  = Raise ValueError.
Proof. vm_compute. reflexivity. Qed.
